(** * protoc-gen-go, package internal_gengo: the generator of .pb.go files

    A shallow embedding of [cmd/protoc-gen-go/internal_gengo/main.go] and the
    properties of its type mapper, tag encoder, default resolver, entity
    emitters and registration code. *)

From Stdlib Require Import ZArith Ascii String List Floats.SpecFloat.
From stdpp Require Import base option list strings gmap pretty sorting.
From Equations Require Import Equations.

Set Warnings "-register-all".

Local Open Scope string_scope.
Local Open Scope list_scope.
Local Open Scope Z_scope.

(** ** The resolved schema model (protoreflect and protogen)

    The descriptors and the protogen structures are declared in other
    packages; they are given here by what the generator reads from them.
    The option getters of the package (enumOptions, enumValueOptions,
    messageOptions, fieldOptions) are in another file: the options they
    read, deprecated and message-set wire format (section 3 of the
    specification), are attributes of the entities. *)

(** protoreflect.Kind: the closed set of field kinds. *)
Inductive Kind : Set :=
  | BoolKind | EnumKind
  | Int32Kind | Sint32Kind | Uint32Kind
  | Int64Kind | Sint64Kind | Uint64Kind
  | Sfixed32Kind | Fixed32Kind | FloatKind
  | Sfixed64Kind | Fixed64Kind | DoubleKind
  | StringKind | BytesKind | MessageKind | GroupKind.

Inductive Cardinality : Set := Optional | Required | Repeated.

Inductive Syntax : Set := Proto2 | Proto3.

#[global] Instance Kind_eq_dec : EqDecision Kind.
Proof. solve_decision. Defined.
#[global] Instance Cardinality_eq_dec : EqDecision Cardinality.
Proof. solve_decision. Defined.
#[global] Instance Syntax_eq_dec : EqDecision Syntax.
Proof. solve_decision. Defined.

(** protogen.GoIdent: a Go identifier with the package that declares it. *)
Record GoIdent : Set := mkGoIdent {
  GoName : string;
  GoImportPath : string
}.

(** A float64 as the IEEE 754 datum it denotes. *)
Definition float64 : Set := spec_float.

(** math.IsInf(f, sign): sign > 0 asks for +Inf, sign < 0 for -Inf and
    sign = 0 for either. *)
Definition math_IsInf (f : float64) (sign : Z) : bool :=
  match f with
  | S754_infinity neg =>
      if neg then bool_decide (sign <= 0) else bool_decide (0 <= sign)
  | _ => false
  end.

Definition math_IsNaN (f : float64) : bool :=
  match f with S754_nan => true | _ => false end.

(** protoreflect.Value: a union of the Go values a scalar field can hold. *)
Inductive Value : Set :=
  | VNil
  | VBool (b : bool)
  | VInt32 (n : Z)
  | VInt64 (n : Z)
  | VUint32 (n : Z)
  | VUint64 (n : Z)
  | VFloat32 (f : float64)
  | VFloat64 (f : float64)
  | VString (s : string)
  | VBytes (b : list Byte.byte)
  | VEnum (n : Z).

(** The chain of Parent() links of a descriptor. A file descriptor has no
    parent; every declaration sits in a parent; a descriptor that is neither
    a file nor attached to a parent is an orphan. *)
Inductive Descriptor : Set :=
  | FileDesc (package : string)
  | NestedDesc (parent : Descriptor)
  | OrphanDesc.

Record EnumValue : Set := mkEnumValue {
  evGoIdent : GoIdent;
  evName : string;          (* value.Desc.Name() *)
  evNumber : Z;             (* value.Desc.Number() *)
  evPath : list Z;
  evDeprecated : bool       (* enumValueOptions(gen, value).GetDeprecated() *)
}.

Record Enum : Set := mkEnum {
  eGoIdent : GoIdent;
  eDesc : Descriptor;       (* enum.Desc with its Parent() chain *)
  eName : string;           (* enum.Desc.Name() *)
  eFullName : string;       (* enum.Desc.FullName() *)
  eSyntax : Syntax;         (* enum.Desc.Syntax() *)
  ePath : list Z;
  eValues : list EnumValue;
  eDeprecated : bool        (* enumOptions(gen, enum).GetDeprecated() *)
}.

(** protoreflect.FieldDescriptor, by the methods the generator calls. *)
Record FieldDescriptor : Set := mkFieldDescriptor {
  fdKind : Kind;
  fdNumber : Z;
  fdCardinality : Cardinality;
  fdIsPacked : bool;
  fdName : string;
  fdFullName : string;
  fdJSONName : string;
  fdSyntax : Syntax;
  fdOneofType : option string;   (* Desc.OneofType(), by the oneof's name *)
  fdHasDefault : bool;
  fdDefault : Value;
  fdIsMap : bool
}.

(** The Oneof a field points to: its Go name and the addresses of its
    member fields, in declaration order. *)
Record OneofRef : Set := mkOneofRef {
  orGoName : string;
  orFields : list positive
}.

(** protogen.Field (protogen.Extension is the same type). The Go structure
    is a graph of pointers, with cycles; [MessageRef] is what the generator
    reads through a *Message held by a field: the identifier, the names and
    options of the descriptor and, for a map entry, the synthetic fields. *)
Inductive Field : Set := mkField {
  fAddr : positive;                    (* the identity of the Go pointer *)
  fDesc : FieldDescriptor;
  fGoName : string;
  fPath : list Z;
  fDeprecated : bool;                  (* fieldOptions(gen, field).GetDeprecated() *)
  fEnumType : option Enum;
  fMessageType : option MessageRef;
  fOneofType : option OneofRef;
  fParentMessage : option MessageRef;  (* extensions only *)
  fExtendedType : option MessageRef    (* extensions only *)
}
with MessageRef : Set := mkMessageRef {
  mrGoIdent : GoIdent;
  mrName : string;                     (* Desc.Name() *)
  mrFullName : string;                 (* Desc.FullName() *)
  mrMessageSetWireFormat : bool;       (* messageOptions(gen, m).GetMessageSetWireFormat() *)
  mrFields : list Field
}.

Definition Extension : Set := Field.

(** ** Go library functions with a plain meaning *)

(** strconv.Itoa. *)
Definition strconv_Itoa (n : Z) : string := pretty n.

(** strings.Join. *)
Fixpoint strings_Join (elems : list string) (sep : string) : string :=
  match elems with
  | [] => ""
  | [x] => x
  | x :: rest => x +:+ sep +:+ strings_Join rest sep
  end.

(** The double quote, and a string between double quotes with nothing
    escaped. *)
Definition dq : string := String "034"%char EmptyString.

(** protogen.Oneof and protogen.Message, as the emitters walk them. *)
Record Oneof : Set := mkOneof {
  oGoName : string;
  oFields : list Field
}.

Inductive Message : Set := mkMessage {
  mGoIdent : GoIdent;
  mName : string;                      (* Desc.Name() *)
  mFullName : string;                  (* Desc.FullName() *)
  mIsMapEntry : bool;                  (* Desc.IsMapEntry() *)
  mExtensionRanges : list (Z * Z);     (* Desc.ExtensionRanges() *)
  mDeprecated : bool;                  (* messageOptions(gen, m).GetDeprecated() *)
  mMessageSetWireFormat : bool;        (* messageOptions(gen, m).GetMessageSetWireFormat() *)
  mPath : list Z;
  mFields : list Field;
  mOneofs : list Oneof;
  mEnums : list Enum;
  mExtensions : list Extension;
  mMessages : list Message
}.

(** descpb.SourceCodeInfo_Location: LeadingComments is a *string. *)
Record Location : Set := mkLocation {
  locPath : list Z;
  locLeadingComments : option string
}.

(** ** What the generator takes from the packages around it

    protogen assigns package names to identifiers, strconv quotes strings and
    fmt prints floating-point numbers; the generator only passes their
    results on, so they are left open here. *)
Class GoEnv : Type := mkGoEnv {
  (* g.QualifiedGoIdent *)
  QualifiedGoIdent : GoIdent -> string;
  (* strconv.Quote, also the verb %q of fmt on a string *)
  strconv_Quote : string -> string;
  (* fmt.Sprint of a float32 and of a float64 *)
  fmt_Sprint_float32 : float64 -> string;
  fmt_Sprint_float64 : float64 -> string;
  (* protoreflect.FullName.Parent *)
  FullName_Parent : string -> string;
  (* sort.Slice, with the less function on elements *)
  sort_Slice : forall A : Type, (A -> A -> bool) -> list A -> list A;
  (* descpb.FileDescriptorProto, with the getters the generator calls *)
  FileDescriptorProto : Type;
  GetLocation : FileDescriptorProto -> list Location;   (* GetSourceCodeInfo().GetLocation() *)
  GetDeprecated : FileDescriptorProto -> bool;          (* GetOptions().GetDeprecated() *)
  (* proto.Clone followed by SourceCodeInfo = nil *)
  dropSourceCodeInfo : FileDescriptorProto -> FileDescriptorProto;
  (* proto.Marshal: the bytes, or an error *)
  proto_Marshal : FileDescriptorProto -> list Byte.byte + string;
  (* a gzip writer at gzip.BestCompression over a buffer *)
  gzip_BestCompression : list Byte.byte -> list Byte.byte;
  (* sha256.Sum256: 32 bytes *)
  sha256_Sum256 : string -> list Byte.byte
}.
#[global] Arguments sort_Slice {_ _} _ _.

Section Mapping.
Context `{env : GoEnv}.

(** fmt.Sprint of one operand, the value behind Value.Interface(). *)
Definition fmt_Sprint (v : Value) : string :=
  match v with
  | VNil => "<nil>"
  | VBool b => if b then "true" else "false"
  | VInt32 n | VInt64 n | VUint32 n | VUint64 n | VEnum n => strconv_Itoa n
  | VFloat32 f => fmt_Sprint_float32 f
  | VFloat64 f => fmt_Sprint_float64 f
  | VString s => s
  | VBytes b =>
      "[" +:+ strings_Join (map (fun c => strconv_Itoa (Z.of_N (Byte.to_N c))) b) " " +:+ "]"
  end.

(** The typed accessors of protoreflect.Value. Each panics ([None]) on a
    value of another type, except String, which formats it. *)
Definition Value_Bool (v : Value) : option bool :=
  match v with VBool b => Some b | _ => None end.

Definition Value_Float (v : Value) : option float64 :=
  match v with VFloat32 f | VFloat64 f => Some f | _ => None end.

Definition Value_Bytes (v : Value) : option (list Byte.byte) :=
  match v with VBytes b => Some b | _ => None end.

Definition Value_Enum (v : Value) : option Z :=
  match v with VEnum n => Some n | _ => None end.

Definition Value_String (v : Value) : string :=
  match v with VString s => s | _ => fmt_Sprint v end.

(** enumRegistryName: <proto_package>.<go_ident>. The loop climbs to the
    root of the Parent() chain; the type assertion on the root panics unless
    it is a file descriptor. *)
Fixpoint rootDescriptor (desc : Descriptor) : Descriptor :=
  match desc with
  | NestedDesc p => rootDescriptor p
  | _ => desc
  end.

Definition enumRegistryName (enum : Enum) : option string :=
  match rootDescriptor (eDesc enum) with
  | FileDesc package => Some (package +:+ "." +:+ GoName (eGoIdent enum))
  | _ => None
  end.

(** The switch of fieldGoType on the kind: the Go type and the pointer flag
    before cardinality and syntax are looked at. *)
Definition isMessageOrGroup (k : Kind) : bool :=
  match k with MessageKind | GroupKind => true | _ => false end.

(** fieldGoType returns the Go type used for a field and whether the struct
    field is a pointer to it. A map field returns from inside the switch. *)
Fixpoint fieldGoType (field : Field) : option (string * bool) :=
  let desc := fDesc field in
  let finish (goType : string) (pointer : bool) : option (string * bool) :=
    let '(goType, pointer) :=
      if decide (fdCardinality desc = Repeated)
      then ("[]" +:+ goType, false) else (goType, pointer) in
    let pointer := if decide (fdSyntax desc = Proto3) then false else pointer in
    Some (goType, pointer) in
  let pointer := true in
  match fdKind desc with
  | BoolKind => finish "bool" pointer
  | EnumKind =>
      match fEnumType field with
      | Some enum => finish (QualifiedGoIdent (eGoIdent enum)) pointer
      | None => None
      end
  | Int32Kind | Sint32Kind | Sfixed32Kind => finish "int32" pointer
  | Uint32Kind | Fixed32Kind => finish "uint32" pointer
  | Int64Kind | Sint64Kind | Sfixed64Kind => finish "int64" pointer
  | Uint64Kind | Fixed64Kind => finish "uint64" pointer
  | FloatKind => finish "float32" pointer
  | DoubleKind => finish "float64" pointer
  | StringKind => finish "string" pointer
  | BytesKind => finish "[]byte" false
  | MessageKind | GroupKind =>
      match fMessageType field with
      | None => None
      | Some mt =>
          if fdIsMap desc then
            match mrFields mt with
            | key :: val :: _ =>
                match fieldGoType key, fieldGoType val with
                | Some (keyType, _), Some (valType, _) =>
                    Some ("map[" +:+ keyType +:+ "]" +:+ valType, false)
                | _, _ => None
                end
            | _ => None
            end
          else finish ("*" +:+ QualifiedGoIdent (mrGoIdent mt)) false
      end
  end.

(** wireTypes: the wire type token of each kind. *)
Definition wireTypes (k : Kind) : string :=
  match k with
  | BoolKind => "varint"
  | EnumKind => "varint"
  | Int32Kind => "varint"
  | Sint32Kind => "zigzag32"
  | Uint32Kind => "varint"
  | Int64Kind => "varint"
  | Sint64Kind => "zigzag64"
  | Uint64Kind => "varint"
  | Sfixed32Kind => "fixed32"
  | Fixed32Kind => "fixed32"
  | FloatKind => "fixed32"
  | Sfixed64Kind => "fixed64"
  | Fixed64Kind => "fixed64"
  | DoubleKind => "fixed64"
  | StringKind => "bytes"
  | BytesKind => "bytes"
  | MessageKind => "bytes"
  | GroupKind => "group"
  end.

(** The text after def= in a tag, for a field with HasDefault. *)
Definition tagDefault (desc : FieldDescriptor) : option string :=
  match fdKind desc with
  | BoolKind =>
      b ← Value_Bool (fdDefault desc);
      Some (if b : bool then "1" else "0")
  | BytesKind =>
      b ← Value_Bytes (fdDefault desc);
      Some (string_of_list_byte b)
  | FloatKind | DoubleKind =>
      f ← Value_Float (fdDefault desc);
      Some (if math_IsInf f (-1) then "-inf"
            else if math_IsInf f 1 then "inf"
            else if math_IsNaN f then "nan"
            else fmt_Sprint (fdDefault desc))
  | _ => Some (fmt_Sprint (fdDefault desc))
  end.

(** fieldProtobufTag: the tokens are appended to [tag] one statement after
    the other and joined with commas at the end. *)
Definition fieldProtobufTag (field : Field) : option string :=
  let desc := fDesc field in
  let tag : list string := [] in
  (* wire type *)
  let tag := tag ++ [wireTypes (fdKind desc)] in
  (* field number *)
  let tag := tag ++ [strconv_Itoa (fdNumber desc)] in
  (* cardinality *)
  let tag :=
    match fdCardinality desc with
    | Optional => tag ++ ["opt"]
    | Required => tag ++ ["req"]
    | Repeated => tag ++ ["rep"]
    end in
  let tag := if fdIsPacked desc then tag ++ ["packed"] else tag in
  (* name *)
  name ← (if decide (fdKind desc = GroupKind)
          then mt ← fMessageType field; Some (mrName mt)
          else Some (fdName desc));
  let tag := tag ++ ["name=" +:+ name] in
  (* JSON name *)
  let jsonName := fdJSONName desc in
  let tag :=
    if negb (String.eqb jsonName "") && negb (String.eqb jsonName name)
    then tag ++ ["json=" +:+ jsonName] else tag in
  (* proto3 *)
  let tag := if decide (fdSyntax desc = Proto3) then tag ++ ["proto3"] else tag in
  (* enum *)
  tag ← (if decide (fdKind desc = EnumKind)
         then enum ← fEnumType field;
              reg ← enumRegistryName enum;
              Some (tag ++ ["enum=" +:+ reg])
         else Some tag);
  (* oneof *)
  let tag := if fdOneofType desc is Some _ then tag ++ ["oneof"] else tag in
  (* default value: last in the tag, commas in strings are not escaped *)
  tag ← (if fdHasDefault desc
         then def ← tagDefault desc; Some (tag ++ ["def=" +:+ def])
         else Some tag);
  Some (strings_Join tag ",").

(** fieldHasDefault: a field with [default=""] counts as having none. *)
Definition fieldHasDefault (field : Field) : option bool :=
  let desc := fDesc field in
  if negb (fdHasDefault desc) then Some false
  else match fdKind desc with
       | StringKind => Some (negb (String.eqb (Value_String (fdDefault desc)) ""))
       | BytesKind =>
           b ← Value_Bytes (fdDefault desc);
           Some (bool_decide (0 < length b)%nat)
       | _ => Some true
       end.

(** fieldDefaultValue: the expression a getter returns for an unset field. *)
Definition fieldDefaultValue (message : Message) (field : Field) : option string :=
  let desc := fDesc field in
  if decide (fdCardinality desc = Repeated) then Some "nil"
  else
    hasDefault ← fieldHasDefault field;
    if hasDefault : bool then
      let defVarName := "Default_" +:+ GoName (mGoIdent message) +:+ "_" +:+ fGoName field in
      if decide (fdKind desc = BytesKind)
      then Some ("append([]byte(nil), " +:+ defVarName +:+ "...)")
      else Some defVarName
    else
      match fdKind desc with
      | BoolKind => Some "false"
      | StringKind => Some (dq +:+ dq)
      | MessageKind | GroupKind | BytesKind => Some "nil"
      | EnumKind =>
          enum ← fEnumType field;
          v ← eValues enum !! 0%nat;
          Some (QualifiedGoIdent (evGoIdent v))
      | _ => Some "0"
      end.

(** fieldJSONTag. *)
Definition fieldJSONTag (field : Field) : string :=
  fdName (fDesc field) +:+ ",omitempty".

End Mapping.

(** ** The generated file and the monad of the emitters *)

(** An operand of g.P: a string (or a Name, a FullName, a GoPackageName), an
    identifier, which P qualifies, an integer (an int, an EnumNumber, a
    FieldNumber) or the interface value of a default. A line is the list of
    the operands of one call. *)
Inductive PArg : Set :=
  | PStr (s : string)
  | PIdent (id : GoIdent)
  | PInt (n : Z)
  | PVal (v : Value).

Coercion PStr : string >-> PArg.
Coercion PIdent : GoIdent >-> PArg.
Coercion PInt : Z >-> PArg.

Definition Line : Set := list PArg.

(** What a run of the generator changes: the buffer of the generated file,
    its imports, and the errors reported to the plugin. *)
Record GenState : Type := mkGenState {
  gBuf : list Line;
  gImports : gset string;
  genErrors : list string
}.

(** An emitter runs on a state and panics ([None]) or returns a result and
    the next state. *)
Definition Gen (A : Type) : Type := GenState -> option (A * GenState).

#[global] Instance Gen_ret : MRet Gen := fun A a st => Some (a, st).
#[global] Instance Gen_bind : MBind Gen :=
  fun A B f m st => match m st with Some (a, st') => f a st' | None => None end.

(** g.P *)
Definition g_P (v : Line) : Gen unit :=
  fun st => Some (tt, mkGenState (gBuf st ++ [v]) (gImports st) (genErrors st)).

Notation "'g_P(' x , .. , y ')'" :=
  (g_P (cons (x : PArg) .. (cons (y : PArg) nil) ..))
  (at level 0, x at level 99, y at level 99).

(** g.Import *)
Definition g_Import (path : string) : Gen unit :=
  fun st => Some (tt, mkGenState (gBuf st) ({[ path ]} ∪ gImports st) (genErrors st)).

(** gen.Error *)
Definition gen_Error (err : string) : Gen unit :=
  fun st => Some (tt, mkGenState (gBuf st) (gImports st) (genErrors st ++ [err])).

(** A partial operation inside an emitter: a panic stops the run. *)
Definition orPanic {A : Type} (o : option A) : Gen A :=
  fun st => match o with Some a => Some (a, st) | None => None end.

(** for _, x := range l { body } *)
Fixpoint forRange {A : Type} (l : list A) (body : A -> Gen unit) : Gen unit :=
  match l with
  | [] => mret tt
  | x :: l' => body x ;; forRange l' body
  end.

Definition when (b : bool) (m : Gen unit) : Gen unit :=
  if b then m else mret tt.

(** ** More of the Go library *)

Definition newline : ascii := "010"%char.

(** strings.TrimSuffix(s, "\n") *)
Fixpoint strings_TrimSuffix_newline (s : string) : string :=
  match s with
  | EmptyString => EmptyString
  | String c EmptyString => if Ascii.eqb c newline then EmptyString else s
  | String c rest => String c (strings_TrimSuffix_newline rest)
  end.

(** strings.Split(s, "\n") *)
Fixpoint strings_Split_newline (s : string) : list string :=
  match s with
  | EmptyString => [EmptyString]
  | String c rest =>
      if Ascii.eqb c newline then EmptyString :: strings_Split_newline rest
      else match strings_Split_newline rest with
           | h :: t => String c h :: t
           | [] => [String c EmptyString]
           end
  end.

(** The elements at the odd indexes: for i := 1; i < len(path); i += 2. *)
Fixpoint oddIndexes {A : Type} (path : list A) : list A :=
  match path with
  | _ :: x :: rest => x :: oddIndexes rest
  | _ => []
  end.

(** An int32 result, wrapped around. *)
Definition wrap_int32 (z : Z) : Z := (z + 2 ^ 31) mod 2 ^ 32 - 2 ^ 31.

(** The two lower-case hexadecimal digits of a byte: the verb %02x, and
    hex.EncodeToString byte by byte. *)
Definition hexDigit (n : N) : ascii :=
  match n with
  | 0 => "0" | 1 => "1" | 2 => "2" | 3 => "3" | 4 => "4" | 5 => "5"
  | 6 => "6" | 7 => "7" | 8 => "8" | 9 => "9" | 10 => "a" | 11 => "b"
  | 12 => "c" | 13 => "d" | 14 => "e" | _ => "f"
  end%N%char.

Definition hex02x (c : Byte.byte) : string :=
  let n := Byte.to_N c in
  String (hexDigit (n / 16)%N) (String (hexDigit (n mod 16)%N) EmptyString).

Definition hex_EncodeToString (b : list Byte.byte) : string :=
  fold_right (fun c s => hex02x c +:+ s) "" b.

(** The loop [for len(b) > 0] of the byte dump: b[:n] is printed and the
    loop goes on with b[n:], where n = min(16, len(b)). *)
Equations chunks16 (b : list Byte.byte) : list (list Byte.byte) by wf (length b) lt :=
  chunks16 [] := [];
  chunks16 (c :: b') := take 16 (c :: b') :: chunks16 (drop 16 (c :: b')).
Next Obligation. rewrite length_drop. simpl. lia. Qed.

(** pathKey converts a location path to a string usable as a map key. *)
Definition pathKey (path : list Z) : string :=
  strings_Join (map strconv_Itoa path) ",".

(** deprecationComment *)
Definition deprecationComment (deprecated : bool) : string :=
  if negb deprecated then "" else "// Deprecated: Do not use.".

Definition generatedCodeVersion : Z := 2.
Definition protoPackage : string := "github.com/golang/protobuf/proto".
Definition protoIdent (name : string) : GoIdent := mkGoIdent name protoPackage.

(** wellKnownTypes *)
Definition wellKnownTypes (fullName : string) : bool :=
  bool_decide (fullName ∈
    [ "google.protobuf.Any"; "google.protobuf.Duration"; "google.protobuf.Empty";
      "google.protobuf.Struct"; "google.protobuf.Timestamp";
      "google.protobuf.BoolValue"; "google.protobuf.BytesValue";
      "google.protobuf.DoubleValue"; "google.protobuf.FloatValue";
      "google.protobuf.Int32Value"; "google.protobuf.Int64Value";
      "google.protobuf.ListValue"; "google.protobuf.NullValue";
      "google.protobuf.StringValue"; "google.protobuf.UInt32Value";
      "google.protobuf.UInt64Value"; "google.protobuf.Value" ]).

(** ** Files *)

Record FileImport : Set := mkFileImport {
  impPath : string;
  impIsPublic : bool
}.

Section Emitters.
Context `{env : GoEnv}.

(** protogen.File *)
Record File : Type := mkFile {
  fileDescPath : string;               (* Desc.Path() *)
  fileImports : list FileImport;       (* Desc.Imports() *)
  fileProto : FileDescriptorProto;
  fileGoPackageName : string;
  fileGoImportPath : string;
  fileMessages : list Message;
  fileEnums : list Enum;
  fileExtensions : list Extension
}.

Record fileInfo : Type := mkFileInfo {
  fiFile : File;
  locationMap : gmap string (list Location);
  descriptorVar : string;
  allEnums : list Enum;
  allMessages : list Message;
  allExtensions : list Extension
}.

(** The plugin, for what GenerateFile reads from it: gen.FileByName. *)
Record Plugin : Type := mkPlugin {
  filesByName : gmap string File
}.

(** Modelled from the spec: the emitters of oneofs (genOneofField,
    genOneofTypes, genOneofFuncs) and fieldOneofType are in another file of
    the package. By section 7 every step but the marshalling of the
    descriptor is a total function, so each emitter is taken as a function
    that gives the lines it prints for a oneof of a message; fieldOneofType
    names the wrapper type of a member field (section 4.4). *)
Class OneofEmitters : Type := mkOneofEmitters {
  fieldOneofType : Field -> GoIdent;
  genOneofField : fileInfo -> Message -> OneofRef -> list Line;
  genOneofTypes : fileInfo -> Message -> OneofRef -> list Line;
  genOneofFuncs : fileInfo -> Message -> list Line
}.
Context `{oneofs : OneofEmitters}.

Definition emitLines (ls : list Line) : Gen unit := forRange ls g_P.

(** walkMessages calls f on each message and all of its descendants. *)
Fixpoint walkMessage {S : Type} (f : Message -> S -> option S) (m : Message) (s : S)
    {struct m} : option S :=
  match f m s with
  | None => None
  | Some s1 =>
      (fix walk (messages : list Message) (s : S) {struct messages} : option S :=
         match messages with
         | [] => Some s
         | m' :: rest =>
             match walkMessage f m' s with
             | Some s2 => walk rest s2
             | None => None
             end
         end) (mMessages m) s1
  end.

Fixpoint walkMessages {S : Type} (messages : list Message)
    (f : Message -> S -> option S) (s : S) : option S :=
  match messages with
  | [] => Some s
  | m :: rest =>
      match walkMessage f m s with
      | Some s1 => walkMessages rest f s1
      | None => None
      end
  end.

(** genComment prints the leading comments of the first location of the
    path that has some, and reports whether it printed a line. *)
Fixpoint firstCommented (locs : list Location) : option string :=
  match locs with
  | [] => None
  | loc :: rest =>
      match locLeadingComments loc with
      | None => firstCommented rest
      | Some c => Some c
      end
  end.

Definition genComment (f : fileInfo) (path : list Z) : Gen bool :=
  match firstCommented (default [] (locationMap f !! pathKey path)) with
  | None => mret false
  | Some comments =>
      let lines := strings_Split_newline (strings_TrimSuffix_newline comments) in
      forRange lines (fun line => g_P("//", line)) ;;
      mret (bool_decide (lines <> []))
  end.

Definition genWellKnownType (ptr : string) (ident : GoIdent)
    (fullName name : string) : Gen unit :=
  when (wellKnownTypes fullName)
    (g_P("func (", ptr, ident, ") XXX_WellKnownType() string { return " +:+ dq,
         name, dq +:+ " }") ;;
     g_P []).

(** *** Enums *)

(** The number-to-name table of genEnum. [generated] holds the numbers
    printed so far; a value whose number is there is printed behind the
    duplicate comment. *)
Fixpoint genEnum_nameMapEntries (values : list EnumValue) (generated : gset Z)
    : Gen unit :=
  match values with
  | [] => mret tt
  | value :: rest =>
      let duplicate :=
        if decide (evNumber value ∈ generated) then "// Duplicate value: " else "" in
      g_P(duplicate, evNumber value, ": ", strconv_Quote (evName value), ",") ;;
      genEnum_nameMapEntries rest ({[ evNumber value ]} ∪ generated)
  end.

Definition genEnum_nameMap (enum : Enum) : Gen unit :=
  let nameMap := GoName (eGoIdent enum) +:+ "_name" in
  g_P("var ", nameMap, " = map[int32]string{") ;;
  genEnum_nameMapEntries (eValues enum) ∅ ;;
  g_P("}") ;;
  g_P [].

(** The name-to-number table of genEnum. *)
Definition genEnum_valueMap (enum : Enum) : Gen unit :=
  let valueMap := GoName (eGoIdent enum) +:+ "_value" in
  g_P("var ", valueMap, " = map[string]int32{") ;;
  forRange (eValues enum) (fun value =>
    g_P(strconv_Quote (evName value), ": ", evNumber value, ",")) ;;
  g_P("}") ;;
  g_P [].

Definition genEnum (f : fileInfo) (enum : Enum) : Gen unit :=
  genComment f (ePath enum) ;;
  g_P("type ", eGoIdent enum, " int32", deprecationComment (eDeprecated enum)) ;;
  g_P("const (") ;;
  forRange (eValues enum) (fun value =>
    genComment f (evPath value) ;;
    g_P(evGoIdent value, " ", eGoIdent enum, " = ", evNumber value,
        deprecationComment (evDeprecated value))) ;;
  g_P(")") ;;
  g_P [] ;;
  genEnum_nameMap enum ;;
  genEnum_valueMap enum ;;
  when (bool_decide (eSyntax enum <> Proto3))
    (g_P("func (x ", eGoIdent enum, ") Enum() *", eGoIdent enum, " {") ;;
     g_P("p := new(", eGoIdent enum, ")") ;;
     g_P("*p = x") ;;
     g_P("return p") ;;
     g_P("}") ;;
     g_P []) ;;
  g_P("func (x ", eGoIdent enum, ") String() string {") ;;
  g_P("return ", protoIdent "EnumName", "(", eGoIdent enum, "_name, int32(x))") ;;
  g_P("}") ;;
  g_P [] ;;
  when (bool_decide (eSyntax enum <> Proto3))
    (g_P("func (x *", eGoIdent enum, ") UnmarshalJSON(data []byte) error {") ;;
     g_P("value, err := ", protoIdent "UnmarshalJSONEnum", "(", eGoIdent enum,
         "_value, data, " +:+ dq, eGoIdent enum, dq +:+ ")") ;;
     g_P("if err != nil {") ;;
     g_P("return err") ;;
     g_P("}") ;;
     g_P("*x = ", eGoIdent enum, "(value)") ;;
     g_P("return nil") ;;
     g_P("}") ;;
     g_P []) ;;
  let indexes := map strconv_Itoa (oddIndexes (ePath enum)) in
  g_P("func (", eGoIdent enum, ") EnumDescriptor() ([]byte, []int) {") ;;
  g_P("return ", descriptorVar f, ", []int{", strings_Join indexes ",", "}") ;;
  g_P("}") ;;
  g_P [] ;;
  genWellKnownType "" (eGoIdent enum) (eFullName enum) (eName enum).

(** *** Messages *)

(** field == field.OneofType.Fields[0], on the addresses. *)
Definition isFirstOfOneof (field : Field) (oneof : OneofRef) : option bool :=
  first ← orFields oneof !! 0%nat;
  Some (bool_decide (fAddr field = first)).

(** One iteration of the loop over the fields of the struct. *)
Definition genMessage_structField (f : fileInfo) (message : Message) (field : Field)
    : Gen unit :=
  match fOneofType field with
  | Some oneof =>
      isFirst ← orPanic (isFirstOfOneof field oneof);
      when isFirst (emitLines (genOneofField f message oneof))
  | None =>
      genComment f (fPath field) ;;
      '(goType, pointer) ← orPanic (fieldGoType field);
      let goType := if pointer : bool then "*" +:+ goType else goType in
      tag ← orPanic (fieldProtobufTag field);
      let tags := [ "protobuf:" +:+ strconv_Quote tag;
                    "json:" +:+ strconv_Quote (fieldJSONTag field) ] in
      tags ← (if fdIsMap (fDesc field) then
                mt ← orPanic (fMessageType field);
                key ← orPanic (mrFields mt !! 0%nat);
                val ← orPanic (mrFields mt !! 1%nat);
                keyTag ← orPanic (fieldProtobufTag key);
                valTag ← orPanic (fieldProtobufTag val);
                mret (tags ++ [ "protobuf_key:" +:+ strconv_Quote keyTag;
                                "protobuf_val:" +:+ strconv_Quote valTag ])
              else mret tags);
      g_P(fGoName field, " ", goType, " `", strings_Join tags " ", "`",
          deprecationComment (fDeprecated field))
  end.

(** enum.Desc.Values().ByNumber(n).Index(): the index of the first value
    numbered n; a method call on the nil result panics. *)
Fixpoint ByNumber_Index (values : list EnumValue) (n : Z) : option nat :=
  match values with
  | [] => None
  | v :: rest =>
      if decide (evNumber v = n) then Some O
      else S <$> ByNumber_Index rest n
  end.

(** funcCall returns a call to a function in the math package, possibly
    converting the result to float32. *)
Definition funcCall (goType fn param : string) : string :=
  let s := QualifiedGoIdent (mkGoIdent fn "math") +:+ param in
  if negb (String.eqb goType "float64") then goType +:+ "(" +:+ s +:+ ")" else s.

(** One iteration of the loop over the constants and vars holding the
    default values of fields. *)
Definition genMessage_defaultVar (message : Message) (field : Field) : Gen unit :=
  hasDefault ← orPanic (fieldHasDefault field);
  if negb hasDefault then mret tt
  else
    let defVarName :=
      "Default_" +:+ GoName (mGoIdent message) +:+ "_" +:+ fGoName field in
    let def := fdDefault (fDesc field) in
    match fdKind (fDesc field) with
    | StringKind =>
        g_P("const ", defVarName, " string = ", strconv_Quote (Value_String def))
    | BytesKind =>
        b ← orPanic (Value_Bytes def);
        g_P("var ", defVarName, " []byte = []byte(",
            strconv_Quote (string_of_list_byte b), ")")
    | EnumKind =>
        enum ← orPanic (fEnumType field);
        n ← orPanic (Value_Enum def);
        index ← orPanic (ByNumber_Index (eValues enum) n);
        evalue ← orPanic (eValues enum !! index);
        g_P("const ", defVarName, " ", eGoIdent enum, " = ", evGoIdent evalue)
    | FloatKind | DoubleKind =>
        (* Floating point numbers need extra handling for -Inf/Inf/NaN. *)
        x ← orPanic (Value_Float def);
        let goType :=
          if decide (fdKind (fDesc field) = FloatKind) then "float32" else "float64" in
        if math_IsInf x (-1) then
          g_P("var ", defVarName, " ", goType, " = ", funcCall goType "Inf" "(-1)")
        else if math_IsInf x 1 then
          g_P("var ", defVarName, " ", goType, " = ", funcCall goType "Inf" "(1)")
        else if math_IsNaN x then
          g_P("var ", defVarName, " ", goType, " = ", funcCall goType "NaN" "()")
        else
          g_P("const ", defVarName, " ", goType, " = ", PVal def)
    | _ =>
        typ ← orPanic (fieldGoType field);
        let goType : string := typ.1 in
        g_P("const ", defVarName, " ", goType, " = ", PVal def)
    end.

(** The lines of a getter between its header and its last return. *)
Definition genMessage_getterGuard (field : Field) (pointer : bool)
    (defaultValue : string) : Gen unit :=
  match fOneofType field with
  | Some oneof =>
      g_P("if x, ok := m.Get", orGoName oneof, "().(*", fieldOneofType field, "); ok {") ;;
      g_P("return x.", fGoName field) ;;
      g_P("}")
  | None =>
      (if bool_decide (fdSyntax (fDesc field) = Proto3) || String.eqb defaultValue "nil"
       then g_P("if m != nil {")
       else g_P("if m != nil && m.", fGoName field, " != nil {")) ;;
      let star := if pointer then "*" else "" in
      g_P("return ", star, " m.", fGoName field) ;;
      g_P("}")
  end.

(** One iteration of the loop over the getters. *)
Definition genMessage_getter (f : fileInfo) (message : Message) (field : Field)
    : Gen unit :=
  match fOneofType field with
  | Some oneof =>
      isFirst ← orPanic (isFirstOfOneof field oneof);
      when isFirst (emitLines (genOneofTypes f message oneof))
  | None => mret tt
  end ;;
  typ ← orPanic (fieldGoType field);
  let goType : string := typ.1 in
  let pointer : bool := typ.2 in
  def ← orPanic (fieldDefaultValue message field);
  let defaultValue : string := def in
  when (fDeprecated field) (g_P(deprecationComment true)) ;;
  g_P("func (m *", mGoIdent message, ") Get", fGoName field, "() ", goType, " {") ;;
  genMessage_getterGuard field pointer defaultValue ;;
  g_P("return ", defaultValue) ;;
  g_P("}") ;;
  g_P [].

(** *** Extensions *)

Definition isExtensionMessageSetElement (extension : Extension) : option bool :=
  match fParentMessage extension with
  | None => Some false
  | Some _ =>
      extended ← fExtendedType extension;
      Some (mrMessageSetWireFormat extended
            && String.eqb (fdName (fDesc extension)) "message_set_extension")
  end.

(** extensionVar returns the var holding the ExtensionDesc for an extension. *)
Definition extensionVar (f : fileInfo) (extension : Extension) : GoIdent :=
  let name := "E_" in
  let name :=
    match fParentMessage extension with
    | Some parent => name +:+ GoName (mrGoIdent parent) +:+ "_"
    | None => name
    end in
  let name := name +:+ fGoName extension in
  mkGoIdent name (fileGoImportPath (fiFile f)).

Definition genExtension (f : fileInfo) (extension : Extension) : Gen unit :=
  let name := fdFullName (fDesc extension) in
  isElement ← orPanic (isExtensionMessageSetElement extension);
  let name := if isElement : bool then FullName_Parent name else name in
  g_P("var ", extensionVar f extension, " = &", protoIdent "ExtensionDesc", "{") ;;
  extended ← orPanic (fExtendedType extension);
  g_P("ExtendedType: (*", mrGoIdent extended, ")(nil),") ;;
  '(goType, pointer) ← orPanic (fieldGoType extension);
  let goType := if pointer : bool then "*" +:+ goType else goType in
  g_P("ExtensionType: (", goType, ")(nil),") ;;
  g_P("Field: ", fdNumber (fDesc extension), ",") ;;
  g_P("Name: ", strconv_Quote name, ",") ;;
  tag ← orPanic (fieldProtobufTag extension);
  g_P("Tag: ", strconv_Quote tag, ",") ;;
  g_P("Filename: ", strconv_Quote (fileDescPath (fiFile f)), ",") ;;
  g_P("}") ;;
  g_P [].

Definition genRegisterExtension (f : fileInfo) (extension : Extension) : Gen unit :=
  g_P(protoIdent "RegisterExtension", "(", extensionVar f extension, ")") ;;
  isElement ← orPanic (isExtensionMessageSetElement extension);
  when isElement
    ('(goType, pointer) ← orPanic (fieldGoType extension);
     let goType := if pointer : bool then "*" +:+ goType else goType in
     g_P(protoIdent "RegisterMessageSetType", "((", goType, ")(nil), ",
         fdNumber (fDesc extension), ",",
         strconv_Quote (FullName_Parent (fdFullName (fDesc extension))), ")")).

(** *** genMessage *)

Definition genMessage (f : fileInfo) (message : Message) : Gen unit :=
  if mIsMapEntry message then mret tt
  else
    hasComment ← genComment f (mPath message);
    when (mDeprecated message)
      (when hasComment (g_P("//")) ;;
       g_P(deprecationComment true)) ;;
    g_P("type ", mGoIdent message, " struct {") ;;
    forRange (mFields message) (genMessage_structField f message) ;;
    g_P("XXX_NoUnkeyedLiteral struct{} `json:" +:+ dq +:+ "-" +:+ dq +:+ "`") ;;
    when (bool_decide (0 < length (mExtensionRanges message))%nat)
      (let tags : list string := [] in
       let tags :=
         if mMessageSetWireFormat message
         then tags ++ ["protobuf_messageset:" +:+ dq +:+ "1" +:+ dq] else tags in
       let tags := tags ++ ["json:" +:+ dq +:+ "-" +:+ dq] in
       g_P(protoIdent "XXX_InternalExtensions", " `", strings_Join tags " ", "`")) ;;
    g_P("XXX_unrecognized []byte `json:" +:+ dq +:+ "-" +:+ dq +:+ "`") ;;
    g_P("XXX_sizecache int32 `json:" +:+ dq +:+ "-" +:+ dq +:+ "`") ;;
    g_P("}") ;;
    g_P [] ;;
    (* Reset *)
    g_P("func (m *", mGoIdent message, ") Reset() { *m = ", mGoIdent message, "{} }") ;;
    (* String *)
    g_P("func (m *", mGoIdent message, ") String() string { return ",
        protoIdent "CompactTextString", "(m) }") ;;
    (* ProtoMessage *)
    g_P("func (*", mGoIdent message, ") ProtoMessage() {}") ;;
    (* Descriptor *)
    let indexes := map strconv_Itoa (oddIndexes (mPath message)) in
    g_P("func (*", mGoIdent message, ") Descriptor() ([]byte, []int) {") ;;
    g_P("return ", descriptorVar f, ", []int{", strings_Join indexes ",", "}") ;;
    g_P("}") ;;
    g_P [] ;;
    (* ExtensionRangeArray *)
    when (bool_decide (0 < length (mExtensionRanges message))%nat)
      (when (mMessageSetWireFormat message)
         (g_P("func (m *", mGoIdent message, ") MarshalJSON() ([]byte, error) {") ;;
          g_P("return ", protoIdent "MarshalMessageSetJSON", "(&m.XXX_InternalExtensions)") ;;
          g_P("}") ;;
          g_P("func (m *", mGoIdent message, ") UnmarshalJSON(buf []byte) error {") ;;
          g_P("return ", protoIdent "UnmarshalMessageSetJSON",
              "(buf, &m.XXX_InternalExtensions)") ;;
          g_P("}") ;;
          g_P []) ;;
       let protoExtRange := protoIdent "ExtensionRange" in
       let extRangeVar := "extRange_" +:+ GoName (mGoIdent message) in
       g_P("var ", extRangeVar, " = []", protoExtRange, " {") ;;
       forRange (mExtensionRanges message) (fun r =>
         g_P("{Start:", r.1, ", End:", wrap_int32 (r.2 - 1) (* inclusive *), "},")) ;;
       g_P("}") ;;
       g_P [] ;;
       g_P("func (*", mGoIdent message, ") ExtensionRangeArray() []", protoExtRange, " {") ;;
       g_P("return ", extRangeVar) ;;
       g_P("}") ;;
       g_P []) ;;
    genWellKnownType "*" (mGoIdent message) (mFullName message) (mName message) ;;
    (* Table-driven proto support. *)
    let messageInfoVar := "xxx_messageInfo_" +:+ GoName (mGoIdent message) in
    (* XXX_Unmarshal *)
    g_P("func (m *", mGoIdent message, ") XXX_Unmarshal(b []byte) error {") ;;
    g_P("return ", messageInfoVar, ".Unmarshal(m, b)") ;;
    g_P("}") ;;
    (* XXX_Marshal *)
    g_P("func (m *", mGoIdent message,
        ") XXX_Marshal(b []byte, deterministic bool) ([]byte, error) {") ;;
    g_P("return ", messageInfoVar, ".Marshal(b, m, deterministic)") ;;
    g_P("}") ;;
    (* XXX_Merge *)
    g_P("func (m *", mGoIdent message, ") XXX_Merge(src proto.Message) {") ;;
    g_P(messageInfoVar, ".Merge(m, src)") ;;
    g_P("}") ;;
    (* XXX_Size *)
    g_P("func (m *", mGoIdent message, ") XXX_Size() int {") ;;
    g_P("return ", messageInfoVar, ".Size(m)") ;;
    g_P("}") ;;
    (* XXX_DiscardUnknown *)
    g_P("func (m *", mGoIdent message, ") XXX_DiscardUnknown() {") ;;
    g_P(messageInfoVar, ".DiscardUnknown(m)") ;;
    g_P("}") ;;
    g_P [] ;;
    g_P("var ", messageInfoVar, " ", protoIdent "InternalMessageInfo") ;;
    g_P [] ;;
    (* Constants and vars holding the default values of fields. *)
    forRange (mFields message) (genMessage_defaultVar message) ;;
    g_P [] ;;
    (* Getters. *)
    forRange (mFields message) (genMessage_getter f message) ;;
    when (bool_decide (0 < length (mOneofs message))%nat)
      (emitLines (genOneofFuncs f message)) ;;
    forRange (mExtensions message) (genExtension f).

(** *** Registration *)

(** The less function handed to sort.Slice: by the full name of the message
    type of the map field. A field without message type panics. *)
Definition mapFieldName (field : Field) : string :=
  match fMessageType field with
  | Some mt => mrFullName mt
  | None => ""
  end.

Definition mapFieldLess (x y : Field) : bool :=
  String.ltb (mapFieldName x) (mapFieldName y).

(** The types of the map fields of a message. *)
Definition genInitFunction_mapTypes (message : Message) : Gen unit :=
  let mapFields := filter (fun field => fdIsMap (fDesc field) = true) (mFields message) in
  (* MessageType is dereferenced on every element: by the less function
     when there are two or more, and by the loop below *)
  forRange mapFields (fun field => orPanic (fMessageType field) ;; mret tt) ;;
  let mapFields := sort_Slice mapFieldLess mapFields in
  forRange mapFields (fun field =>
    mt ← orPanic (fMessageType field);
    let typeName := mrFullName mt in
    '(goType, _) ← orPanic (fieldGoType field);
    g_P(protoIdent "RegisterMapType",
        "((" +:+ goType +:+ ")(nil), " +:+ strconv_Quote typeName +:+ ")")).

(** One iteration of the loop of genInitFunction over the messages. *)
Definition genInitFunction_message (f : fileInfo) (message : Message) : Gen unit :=
  if mIsMapEntry message then mret tt
  else
    forRange (mExtensions message) (genRegisterExtension f) ;;
    let name := GoName (mGoIdent message) in
    g_P(protoIdent "RegisterType",
        "((*" +:+ name +:+ ")(nil), " +:+ strconv_Quote (mFullName message) +:+ ")") ;;
    genInitFunction_mapTypes message.

(** genInitFunction generates an init function that registers the types in
    the generated file with the proto package. *)
Definition genInitFunction (f : fileInfo) : Gen unit :=
  if bool_decide (length (allMessages f) = 0%nat)
     && bool_decide (length (allEnums f) = 0%nat)
     && bool_decide (length (allExtensions f) = 0%nat)
  then mret tt
  else
    g_P("func init() {") ;;
    forRange (allEnums f) (fun enum =>
      let name := GoName (eGoIdent enum) in
      reg ← orPanic (enumRegistryName enum);
      g_P(protoIdent "RegisterEnum",
          "(" +:+ strconv_Quote reg +:+ ", " +:+ name +:+ "_name, " +:+ name +:+ "_value)")) ;;
    forRange (allMessages f) (genInitFunction_message f) ;;
    forRange (fileExtensions (fiFile f)) (genRegisterExtension f) ;;
    g_P("}") ;;
    g_P [].

(** *** The embedded descriptor *)

Definition genFileDescriptor (f : fileInfo) : Gen unit :=
  (* Trim the source_code_info from the descriptor. Marshal and gzip it. *)
  let descProto := dropSourceCodeInfo (fileProto (fiFile f)) in
  match proto_Marshal descProto with
  | inr err => gen_Error err
  | inl b =>
      let b := gzip_BestCompression b in
      g_P("func init() { proto.RegisterFile(", strconv_Quote (fileDescPath (fiFile f)),
          ", ", descriptorVar f, ") }") ;;
      g_P [] ;;
      g_P("var ", descriptorVar f, " = []byte{") ;;
      g_P("// ", Z.of_nat (length b), " bytes of a gzipped FileDescriptorProto") ;;
      forRange (chunks16 b) (fun chunk =>
        let s := fold_left (fun s c => s +:+ "0x" +:+ hex02x c +:+ ",") chunk "" in
        g_P(s)) ;;
      g_P("}") ;;
      g_P []
  end.

(** *** Imports *)

(** The function genImport hands to walkMessages: it appends to the local
    slice [enums] and prints the aliases of a message. *)
Definition genImport_message (imp : FileImport) (message : Message)
    (s : list Enum * GenState) : option (list Enum * GenState) :=
  let enums := s.1 ++ mEnums message in
  let body : Gen unit :=
    g_P("// ", GoName (mGoIdent message), " from public import ", impPath imp) ;;
    g_P("type ", GoName (mGoIdent message), " = ", mGoIdent message) ;;
    forRange (mOneofs message) (fun oneof =>
      forRange (oFields oneof) (fun field =>
        let typ := fieldOneofType field in
        g_P("type ", GoName typ, " = ", typ))) ;;
    g_P [] in
  match body s.2 with
  | Some (_, st) => Some (enums, st)
  | None => None
  end.

Definition genImport (gen : Plugin) (f : fileInfo) (imp : FileImport) : Gen unit :=
  match filesByName gen !! impPath imp with
  | None => mret tt
  | Some impFile =>
      if String.eqb (fileGoImportPath impFile) (fileGoImportPath (fiFile f))
      then
        (* Don't generate imports or aliases for types in the same Go package. *)
        mret tt
      else
        (* Generate imports for all dependencies, even if they are not
           referenced. *)
        g_Import (fileGoImportPath impFile) ;;
        if negb (impIsPublic imp) then mret tt
        else
          let enums : list Enum := [] in
          let enums := enums ++ fileEnums impFile in
          enums ← (fun st =>
                     walkMessages (fileMessages impFile) (genImport_message imp) (enums, st));
          forRange enums (fun enum =>
            g_P("// ", GoName (eGoIdent enum), " from public import ", impPath imp) ;;
            g_P("type ", GoName (eGoIdent enum), " = ", eGoIdent enum) ;;
            g_P("var ", GoName (eGoIdent enum), "_name = ", eGoIdent enum, "_name") ;;
            g_P("var ", GoName (eGoIdent enum), "_value = ", eGoIdent enum, "_value") ;;
            g_P [] ;;
            forRange (eValues enum) (fun value =>
              g_P("const ", GoName (evGoIdent value), " = ", GoName (eGoIdent enum), "(",
                  evGoIdent value, ")")))
  end.

(** *** GenerateFile *)

(** f.locationMap[key] = append(f.locationMap[key], loc), over the locations. *)
Definition buildLocationMap (locs : list Location) : gmap string (list Location) :=
  fold_left (fun m loc =>
               let key := pathKey (locPath loc) in
               <[ key := default [] (m !! key) ++ [loc] ]> m)
            locs ∅.

(** The flat lists of the file. The function handed to walkMessages appends
    each message, its enums and its extensions. *)
Record flatLists : Type := mkFlatLists {
  flEnums : list Enum;
  flMessages : list Message;
  flExtensions : list Extension
}.

Definition collectMessage (message : Message) (l : flatLists) : option flatLists :=
  Some (mkFlatLists (flEnums l ++ mEnums message)
                    (flMessages l ++ [message])
                    (flExtensions l ++ mExtensions message)).

Definition newFileInfo (file : File) : option fileInfo :=
  let locs := buildLocationMap (GetLocation (fileProto file)) in
  (* The different order for enums and extensions is to match the output
     of the previous implementation. *)
  let l := mkFlatLists ([] ++ fileEnums file) [] [] in
  l ← walkMessages (fileMessages file) collectMessage l;
  let exts := flExtensions l ++ fileExtensions file in
  (* fileDescriptor_<hash of filename> *)
  let filenameHash := sha256_Sum256 (fileDescPath file) in
  let var := "fileDescriptor_" +:+ hex_EncodeToString (take 8 filenameHash) in
  Some (mkFileInfo file locs var (flEnums l) (flMessages l) exts).

(** GenerateFile generates the contents of a .pb.go file. *)
Definition GenerateFile (gen : Plugin) (file : File) : Gen unit :=
  f ← orPanic (newFileInfo file);
  g_P("// Code generated by protoc-gen-go. DO NOT EDIT.") ;;
  (if GetDeprecated (fileProto file)
   then g_P("// ", fileDescPath file, " is a deprecated file.")
   else g_P("// source: ", fileDescPath file)) ;;
  g_P [] ;;
  let filePackageField := 2 in (* FileDescriptorProto.package *)
  genComment f [filePackageField] ;;
  g_P [] ;;
  g_P("package ", fileGoPackageName file) ;;
  g_P [] ;;
  g_P("// Reference imports to suppress errors if they are not otherwise used.") ;;
  g_P("var _ = ", protoIdent "Marshal") ;;
  g_P("var _ = ", mkGoIdent "Errorf" "fmt") ;;
  g_P("var _ = ", mkGoIdent "Inf" "math") ;;
  g_P [] ;;
  g_P("// This is a compile-time assertion to ensure that this generated file") ;;
  g_P("// is compatible with the proto package it is being compiled against.") ;;
  g_P("// A compilation error at this line likely means your copy of the") ;;
  g_P("// proto package needs to be updated.") ;;
  g_P("const _ = ",
      protoIdent ("ProtoPackageIsVersion" +:+ strconv_Itoa generatedCodeVersion),
      "// please upgrade the proto package") ;;
  g_P [] ;;
  forRange (fileImports file) (genImport gen f) ;;
  forRange (allEnums f) (genEnum f) ;;
  forRange (allMessages f) (genMessage f) ;;
  forRange (fileExtensions file) (genExtension f) ;;
  genInitFunction f ;;
  genFileDescriptor f.

End Emitters.

(** ** Well-formed models

    What the resolver guarantees and the generator relies on: the links a
    kind calls for are there, a default has the Go type of its kind, an enum
    has a value and hangs under a file, and a map entry has its two fields. *)

Definition wfEnum (enum : Enum) : bool :=
  match rootDescriptor (eDesc enum) with FileDesc _ => true | _ => false end
  && bool_decide (eValues enum <> []).

Definition wfDefault (desc : FieldDescriptor) (enumType : option Enum) : bool :=
  negb (fdHasDefault desc)
  || match fdKind desc, fdDefault desc with
     | BoolKind, VBool _ => true
     | EnumKind, VEnum n =>
         match enumType with
         | Some enum => bool_decide (n ∈ map evNumber (eValues enum))
         | None => false
         end
     | (Int32Kind | Sint32Kind | Sfixed32Kind), VInt32 _ => true
     | (Uint32Kind | Fixed32Kind), VUint32 _ => true
     | (Int64Kind | Sint64Kind | Sfixed64Kind), VInt64 _ => true
     | (Uint64Kind | Fixed64Kind), VUint64 _ => true
     | FloatKind, VFloat32 _ => true
     | DoubleKind, VFloat64 _ => true
     | StringKind, VString _ => true
     | BytesKind, VBytes _ => true
     | _, _ => false
     end.

Fixpoint wfField (field : Field) : bool :=
  let desc := fDesc field in
  wfDefault desc (fEnumType field)
  && match fOneofType field with
     | Some oneof => bool_decide (orFields oneof <> [])
     | None => true
     end
  && match fdKind desc with
     | EnumKind =>
         negb (fdIsMap desc)
         && match fEnumType field with Some enum => wfEnum enum | None => false end
     | MessageKind | GroupKind =>
         match fMessageType field with
         | None => false
         | Some mt =>
             if fdIsMap desc then
               match mrFields mt with
               | key :: val :: _ => wfField key && wfField val
               | _ => false
               end
             else true
         end
     | _ => negb (fdIsMap desc)
     end.

Definition wfExtension (extension : Extension) : bool :=
  wfField extension
  && match fExtendedType extension with Some _ => true | None => false end.

Fixpoint wfMessage (message : Message) : bool :=
  forallb wfField (mFields message)
  && forallb wfEnum (mEnums message)
  && forallb wfExtension (mExtensions message)
  && (fix all (messages : list Message) : bool :=
        match messages with
        | [] => true
        | m :: rest => wfMessage m && all rest
        end) (mMessages message).

Section WellFormedFiles.
Context `{env : GoEnv}.

Definition wfFile (file : File) : bool :=
  forallb wfMessage (fileMessages file)
  && forallb wfEnum (fileEnums file)
  && forallb wfExtension (fileExtensions file).

Definition wfFileInfo (f : fileInfo) : bool :=
  forallb wfEnum (allEnums f)
  && forallb (fun m => forallb wfField (mFields m) && forallb wfExtension (mExtensions m))
       (allMessages f)
  && forallb wfExtension (fileExtensions (fiFile f)).

End WellFormedFiles.

(** ** A small model to run the generator on *)

Module Demo.

Definition goPath : string := "example.com/demo".

(** The descriptor proto of the demo: its locations, its deprecated option
    and whether it can be marshalled. *)
Record descProto : Set := mkDescProto {
  dpLocations : list Location;
  dpDeprecated : bool;
  dpMarshals : bool
}.

Fixpoint afterDot (parts : list ascii) : list ascii :=
  match parts with
  | [] => []
  | c :: rest => if Ascii.eqb c "." then rest else afterDot rest
  end.

Definition parentOf (fullName : string) : string :=
  let parts := List.rev (String.list_ascii_of_string fullName) in
  String.string_of_list_ascii (List.rev (afterDot parts)).

#[local] Instance leNot {A : Type} (less : A -> A -> bool) :
  RelDecision (fun x y => less y x = false).
Proof. intros x y. unfold Decision. decide equality. Defined.

#[export] Instance env : GoEnv := {|
  QualifiedGoIdent id :=
    if String.eqb (GoImportPath id) goPath then GoName id
    else if String.eqb (GoImportPath id) protoPackage then "proto." +:+ GoName id
    else GoImportPath id +:+ "." +:+ GoName id;
  strconv_Quote s := dq +:+ s +:+ dq;
  fmt_Sprint_float32 _ := "1.5";
  fmt_Sprint_float64 _ := "1.5";
  FullName_Parent := parentOf;
  sort_Slice A less := merge_sort (fun x y => less y x = false);
  FileDescriptorProto := descProto;
  GetLocation := dpLocations;
  GetDeprecated := dpDeprecated;
  dropSourceCodeInfo d := mkDescProto [] (dpDeprecated d) (dpMarshals d);
  proto_Marshal d :=
    if dpMarshals d then inl [Byte.x0a; Byte.x04; Byte.x64; Byte.x65; Byte.x6d; Byte.x6f]
    else inr "proto: required field not set";
  gzip_BestCompression b := b;
  sha256_Sum256 _ := repeat Byte.xab 32
|}.

#[export] Instance oneofs : OneofEmitters := {|
  fieldOneofType field := mkGoIdent ("Msg_" +:+ fGoName field) goPath;
  genOneofField _ _ oneof := [[PStr ("// oneof " +:+ orGoName oneof)]];
  genOneofTypes _ _ oneof := [[PStr ("// types of " +:+ orGoName oneof)]];
  genOneofFuncs _ _ := [[PStr "// oneof funcs"]]
|}.

Definition scalar (addr : positive) (desc : FieldDescriptor) (goName : string) : Field :=
  mkField addr desc goName [] false None None None None None.

Definition desc (kind : Kind) (number : Z) (card : Cardinality) (name json : string)
    (syntax : Syntax) : FieldDescriptor :=
  mkFieldDescriptor kind number card false name ("demo.Msg." +:+ name) json syntax
    None false VNil false.

Definition withDefault (d : FieldDescriptor) (v : Value) : FieldDescriptor :=
  mkFieldDescriptor (fdKind d) (fdNumber d) (fdCardinality d) (fdIsPacked d) (fdName d)
    (fdFullName d) (fdJSONName d) (fdSyntax d) (fdOneofType d) true v (fdIsMap d).

(** int32 id = 1; under proto3 *)
Definition idField : Field :=
  scalar 1 (desc Int32Kind 1 Optional "id" "id" Proto3) "Id".

(** optional string name = 2 [default = "x"]; under proto2 *)
Definition nameField : Field :=
  scalar 2 (withDefault (desc StringKind 2 Optional "name" "name" Proto2) (VString "x")) "Name".

(** optional string note = 3 [default = ""]; under proto2 *)
Definition noteField : Field :=
  scalar 3 (withDefault (desc StringKind 3 Optional "note" "note" Proto2) (VString "")) "Note".

(** optional float low = 4 [default = -inf]; under proto2 *)
Definition lowField : Field :=
  scalar 4 (withDefault (desc FloatKind 4 Optional "low" "low" Proto2)
              (VFloat32 (S754_infinity true))) "Low".

(** optional double high = 6 [default = inf]; under proto2 *)
Definition highField : Field :=
  scalar 6 (withDefault (desc DoubleKind 6 Optional "high" "high" Proto2)
              (VFloat64 (S754_infinity false))) "High".

(** repeated int64 nums = 7; under proto2 *)
Definition numsField : Field :=
  scalar 7 (desc Int64Kind 7 Repeated "nums" "nums" Proto2) "Nums".

(** A field whose descriptor has no JSON name. *)
Definition bareField : Field :=
  scalar 8 (desc Int32Kind 1 Optional "id" "" Proto2) "Id".

(** enum Color { RED = 0; GREEN = 1; BLUE = 1; } *)
Definition color : Enum :=
  mkEnum (mkGoIdent "Color" goPath) (NestedDesc (FileDesc "demo")) "Color" "demo.Color"
    Proto2 [5; 0]
    [ mkEnumValue (mkGoIdent "Color_RED" goPath) "RED" 0 [5; 0; 2; 0] false;
      mkEnumValue (mkGoIdent "Color_GREEN" goPath) "GREEN" 1 [5; 0; 2; 1] false;
      mkEnumValue (mkGoIdent "Color_BLUE" goPath) "BLUE" 1 [5; 0; 2; 2] false ]
    false.

(** optional Color tint = 9; under proto2 *)
Definition tintField : Field :=
  mkField 9 (desc EnumKind 9 Optional "tint" "tint" Proto2) "Tint" [] false
    (Some color) None None None None.

(** map<string, int32> tags = 5; with its map entry *)
Definition keyField : Field :=
  scalar 20 (desc StringKind 1 Optional "key" "key" Proto2) "Key".

Definition valueField : Field :=
  scalar 21 (desc Int32Kind 2 Optional "value" "value" Proto2) "Value".

Definition entry (name : string) : MessageRef :=
  mkMessageRef (mkGoIdent ("Msg_" +:+ name) goPath) name ("demo.Msg." +:+ name) false
    [keyField; valueField].

Definition mapField (addr : positive) (number : Z) (name goName entryName : string) : Field :=
  mkField addr
    (mkFieldDescriptor MessageKind number Repeated false name ("demo.Msg." +:+ name) name
       Proto2 None false VNil true)
    goName [] false None (Some (entry entryName)) None None None.

Definition tagsField : Field := mapField 5 5 "tags" "Tags" "TagsEntry".
Definition attrsField : Field := mapField 10 10 "attrs" "Attrs" "AttrsEntry".

(** extend Msg { optional int32 weight = 100; } at the top of the file *)
Definition weightExt : Extension :=
  mkField 30 (desc Int32Kind 100 Optional "weight" "weight" Proto2) "Weight" [] false
    None None None None
    (Some (mkMessageRef (mkGoIdent "Msg" goPath) "Msg" "demo.Msg" false [])).

Definition msg : Message :=
  mkMessage (mkGoIdent "Msg" goPath) "Msg" "demo.Msg" false [(100, 200)] false false [4; 0]
    [nameField; noteField; lowField; highField; numsField; tintField; tagsField; attrsField]
    [] [] [] [].

Definition file (marshals : bool) : File :=
  mkFile "demo.proto" [] (mkDescProto [] false marshals) "demo" goPath
    [msg] [color] [weightExt].

Definition plugin : Plugin := mkPlugin ∅.

Definition start : GenState := mkGenState [] ∅ [].

(** The file information GenerateFile builds for the demo file. *)
Definition info : fileInfo :=
  default (mkFileInfo (file true) ∅ "" [] [] []) (newFileInfo (file true)).

End Demo.

(** ** Vocabulary of the statements *)

(** [addLines st ls]: the state after printing the lines [ls]. *)
Definition addLines (st : GenState) (ls : list Line) : GenState :=
  mkGenState (gBuf st ++ ls) (gImports st) (genErrors st).

(** [emits m a ls]: from every state, [m] returns [a] without a panic and
    its whole effect is to print the lines [ls]. *)
Definition emits {A : Type} (m : Gen A) (a : A) (ls : list Line) : Prop :=
  forall st, m st = Some (a, addLines st ls).

(** [quiet m]: from every state, [m] returns without a panic and reports no
    error; it only adds lines to the buffer. *)
Definition quiet {A : Type} (m : Gen A) : Prop :=
  forall st, exists a st' ls,
    m st = Some (a, st') /\ genErrors st' = genErrors st /\ gBuf st' = gBuf st ++ ls.

(** A token that is there under a condition. *)
Definition tokenIf (b : bool) (token : string) : list string :=
  if b then [token] else [].

Definition cardinalityToken (c : Cardinality) : string :=
  match c with Optional => "opt" | Required => "req" | Repeated => "rep" end.

(** The tokens of a tag in the order of the tag encoder, given whether
    the json token is shown, the name on the wire, the registry name of the
    enum and the encoded default. *)
Definition tagTokens (jsonShown : bool) (desc : FieldDescriptor)
    (wireName registryName encodedDefault : string) : list string :=
  [wireTypes (fdKind desc); strconv_Itoa (fdNumber desc);
   cardinalityToken (fdCardinality desc)]
  ++ tokenIf (fdIsPacked desc) "packed"
  ++ ["name=" +:+ wireName]
  ++ tokenIf jsonShown ("json=" +:+ fdJSONName desc)
  ++ tokenIf (bool_decide (fdSyntax desc = Proto3)) "proto3"
  ++ tokenIf (bool_decide (fdKind desc = EnumKind)) ("enum=" +:+ registryName)
  ++ tokenIf (bool_decide (is_Some (fdOneofType desc))) "oneof"
  ++ tokenIf (fdHasDefault desc) ("def=" +:+ encodedDefault).

(** The name of a field on the wire: the name of the message type for a
    group, the name of the field otherwise. *)
Definition isWireName (field : Field) (wireName : string) : Prop :=
  if decide (fdKind (fDesc field) = GroupKind)
  then exists mt, fMessageType field = Some mt /\ wireName = mrName mt
  else wireName = fdName (fDesc field).

(** A default that is the empty string or the empty byte sequence. *)
Definition emptyDefault (v : Value) : bool :=
  match v with
  | VString s => String.eqb s ""
  | VBytes b => bool_decide (b = [])
  | _ => false
  end.

Definition isStringOrBytes (k : Kind) : bool :=
  match k with StringKind | BytesKind => true | _ => false end.

(** The kinds held in a Go number. *)
Definition isNumeric (k : Kind) : bool :=
  match k with
  | Int32Kind | Sint32Kind | Uint32Kind | Int64Kind | Sint64Kind | Uint64Kind
  | Sfixed32Kind | Fixed32Kind | FloatKind | Sfixed64Kind | Fixed64Kind
  | DoubleKind => true
  | _ => false
  end.

Section EmitterVocabulary.
Context `{env : GoEnv}.

(** The entry of a value in the number-to-name table, behind the duplicate
    comment or not, and its entry in the name-to-number table. *)
Definition nameMapLine (duplicate : bool) (value : EnumValue) : Line :=
  [ PStr (if duplicate then "// Duplicate value: " else ""); PInt (evNumber value);
    PStr ": "; PStr (strconv_Quote (evName value)); PStr "," ].

Definition valueMapLine (value : EnumValue) : Line :=
  [ PStr (strconv_Quote (evName value)); PStr ": "; PInt (evNumber value); PStr "," ].

(** The value at index i has the number of a value declared before it. *)
Definition repeatsEarlier (values : list EnumValue) (i : nat) : bool :=
  match values !! i with
  | Some value => bool_decide (evNumber value ∈ map evNumber (take i values))
  | None => false
  end.

(** The constructor of the math package for -Inf, +Inf and NaN, with its
    argument list; no other float has one. *)
Definition specialFloat (x : float64) : option (string * string) :=
  match x with
  | S754_infinity true => Some ("Inf", "(-1)")
  | S754_infinity false => Some ("Inf", "(1)")
  | S754_nan => Some ("NaN", "()")
  | _ => None
  end.

(** What sort.Slice promises for a less function: the result is a
    rearrangement of the slice in which no element is less than the one
    before it. *)
Definition sortsBy {A : Type} (less : A -> A -> bool) (sort : list A -> list A) : Prop :=
  forall l, sort l ≡ₚ l /\ Sorted (fun x y => less y x = false) (sort l).

(** The lines of the init function, entity by entity. *)
Definition enumRegistration (enum : Enum) (line : Line) : Prop :=
  exists registryName,
    enumRegistryName enum = Some registryName
    /\ line = [ PIdent (protoIdent "RegisterEnum");
                PStr ("(" +:+ strconv_Quote registryName +:+ ", "
                      +:+ GoName (eGoIdent enum) +:+ "_name, "
                      +:+ GoName (eGoIdent enum) +:+ "_value)") ].

Definition extensionRegistration (f : fileInfo) (extension : Extension)
    (lines : list Line) : Prop :=
  exists isElement : bool,
    isExtensionMessageSetElement extension = Some isElement
    /\ if isElement then
         exists goType pointer,
           fieldGoType extension = Some (goType, pointer)
           /\ lines = [ [ PIdent (protoIdent "RegisterExtension"); PStr "(";
                          PIdent (extensionVar f extension); PStr ")" ];
                        [ PIdent (protoIdent "RegisterMessageSetType"); PStr "((";
                          PStr (if pointer : bool then "*" +:+ goType else goType);
                          PStr ")(nil), "; PInt (fdNumber (fDesc extension)); PStr ",";
                          PStr (strconv_Quote (FullName_Parent (fdFullName (fDesc extension))));
                          PStr ")" ] ]
       else lines = [ [ PIdent (protoIdent "RegisterExtension"); PStr "(";
                        PIdent (extensionVar f extension); PStr ")" ] ].

Definition typeRegistration (message : Message) : Line :=
  [ PIdent (protoIdent "RegisterType");
    PStr ("((*" +:+ GoName (mGoIdent message) +:+ ")(nil), "
          +:+ strconv_Quote (mFullName message) +:+ ")") ].

Definition mapTypeRegistration (field : Field) (line : Line) : Prop :=
  exists mt goType pointer,
    fMessageType field = Some mt
    /\ fieldGoType field = Some (goType, pointer)
    /\ line = [ PIdent (protoIdent "RegisterMapType");
                PStr ("((" +:+ goType +:+ ")(nil), "
                      +:+ strconv_Quote (mrFullName mt) +:+ ")") ].

(** A message registers its nested extensions, then itself, then the types
    of its map fields in the order of the full names of their entries. *)
Definition messageRegistration (f : fileInfo) (message : Message)
    (lines : list Line) : Prop :=
  exists (extensionLines : list (list Line)) (sortedFields : list Field)
         (mapLines : list Line),
    Forall2 (extensionRegistration f) (mExtensions message) extensionLines
    /\ sortedFields ≡ₚ filter (fun field => fdIsMap (fDesc field) = true) (mFields message)
    /\ Sorted (fun x y => String.leb (mapFieldName x) (mapFieldName y) = true) sortedFields
    /\ Forall2 mapTypeRegistration sortedFields mapLines
    /\ lines = concat extensionLines ++ [typeRegistration message] ++ mapLines.

End EmitterVocabulary.

(** A message followed by all its descendants, depth first, and the same
    for a list of messages: the order in which walkMessages calls its
    function. *)
Fixpoint messageTree (m : Message) : list Message :=
  m :: (fix below (messages : list Message) : list Message :=
          match messages with
          | [] => []
          | m' :: rest => messageTree m' ++ below rest
          end) (mMessages m).

Definition descendants (messages : list Message) : list Message :=
  flat_map messageTree messages.

(** What the function of GenerateFile collects over a list of messages, from
    the lists [l]. *)
Definition collected (l : flatLists) (messages : list Message) : flatLists :=
  mkFlatLists (flEnums l ++ flat_map mEnums messages)
    (flMessages l ++ messages)
    (flExtensions l ++ flat_map mExtensions messages).

Section FileVocabulary.
Context `{env : GoEnv}.

(** The lines genFileDescriptor prints for the gzipped bytes [b]: the init
    function that registers the file, and the var with the bytes, sixteen
    to a line. *)
Definition descriptorBlock (f : fileInfo) (b : list Byte.byte) : list Line :=
  [ [ PStr "func init() { proto.RegisterFile(";
      PStr (strconv_Quote (fileDescPath (fiFile f))); PStr ", ";
      PStr (descriptorVar f); PStr ") }" ];
    [];
    [ PStr "var "; PStr (descriptorVar f); PStr " = []byte{" ];
    [ PStr "// "; PInt (Z.of_nat (length b));
      PStr " bytes of a gzipped FileDescriptorProto" ] ]
  ++ map (fun chunk =>
            [ PStr (fold_left (fun s c => s +:+ "0x" +:+ hex02x c +:+ ",") chunk "") ])
         (chunks16 b)
  ++ [ [PStr "}"]; [] ].

End FileVocabulary.

(** [runsInto m last]: from every state, [m] runs without a panic and
    without an error, only printing, up to a state from which what is left
    of it is [last]. *)
Definition runsInto {A : Type} (m last : Gen A) : Prop :=
  forall st, exists st1 ls,
    genErrors st1 = genErrors st /\ gBuf st1 = gBuf st ++ ls /\ m st = last st1.

(** A string without a comma. *)
Definition commaFree (s : string) : Prop :=
  Forall (fun c => c <> ","%char) (String.list_ascii_of_string s).

(** The locations of a descriptor that are at a path. *)
Definition locationsAt (path : list Z) (locs : list Location) : list Location :=
  filter (fun loc => locPath loc = path) locs.

(** A line of a leading comment, as genComment prints it. *)
Definition commentLine (line : string) : Line := [PStr "//"; PStr line].

(** A line of the byte dump, as the loop of genFileDescriptor builds it. *)
Definition dumpLine (chunk : list Byte.byte) : string :=
  fold_left (fun s c => s +:+ "0x" +:+ hex02x c +:+ ",") chunk "".

(** The value of a hexadecimal digit in lower case, and the byte written
    with two of them. *)
Definition hexValue (c : ascii) : option N :=
  match c with
  | "0" => Some 0 | "1" => Some 1 | "2" => Some 2 | "3" => Some 3 | "4" => Some 4
  | "5" => Some 5 | "6" => Some 6 | "7" => Some 7 | "8" => Some 8 | "9" => Some 9
  | "a" => Some 10 | "b" => Some 11 | "c" => Some 12 | "d" => Some 13
  | "e" => Some 14 | "f" => Some 15 | _ => None
  end%char%N.

Definition hexByte (s : string) : option Byte.byte :=
  match s with
  | String h (String l EmptyString) =>
      high ← hexValue h; low ← hexValue l; Byte.of_N (16 * high + low)
  | _ => None
  end.

(** A field with another cardinality. *)
Definition withCardinality (c : Cardinality) (field : Field) : Field :=
  let d := fDesc field in
  mkField (fAddr field)
    (mkFieldDescriptor (fdKind d) (fdNumber d) c (fdIsPacked d) (fdName d) (fdFullName d)
       (fdJSONName d) (fdSyntax d) (fdOneofType d) (fdHasDefault d) (fdDefault d)
       (fdIsMap d))
    (fGoName field) (fPath field) (fDeprecated field) (fEnumType field)
    (fMessageType field) (fOneofType field) (fParentMessage field) (fExtendedType field).

(** A descriptor [depth] declarations below [root]. *)
Fixpoint nestedIn (depth : nat) (root : Descriptor) : Descriptor :=
  match depth with
  | O => root
  | S depth' => NestedDesc (nestedIn depth' root)
  end.

Section ImportVocabulary.
Context `{env : GoEnv} `{oneofs : !OneofEmitters}.

(** The aliases genImport prints for a message of a public import: the
    comment, the alias of the struct, an alias for the wrapper type of each
    field of each oneof, and a blank line. *)
Definition messageAliases (imp : FileImport) (message : Message) : list Line :=
  [ [ PStr "// "; PStr (GoName (mGoIdent message)); PStr " from public import ";
      PStr (impPath imp) ];
    [ PStr "type "; PStr (GoName (mGoIdent message)); PStr " = ";
      PIdent (mGoIdent message) ] ]
  ++ flat_map (fun oneof =>
                 map (fun field =>
                        [ PStr "type "; PStr (GoName (fieldOneofType field)); PStr " = ";
                          PIdent (fieldOneofType field) ])
                     (oFields oneof))
              (mOneofs message)
  ++ [ [] ].

(** The aliases genImport prints for an enum of a public import: the
    comment, the alias of the type and of its two tables, a blank line, and
    a constant for each value. *)
Definition enumAliases (imp : FileImport) (enum : Enum) : list Line :=
  [ [ PStr "// "; PStr (GoName (eGoIdent enum)); PStr " from public import ";
      PStr (impPath imp) ];
    [ PStr "type "; PStr (GoName (eGoIdent enum)); PStr " = "; PIdent (eGoIdent enum) ];
    [ PStr "var "; PStr (GoName (eGoIdent enum)); PStr "_name = ";
      PIdent (eGoIdent enum); PStr "_name" ];
    [ PStr "var "; PStr (GoName (eGoIdent enum)); PStr "_value = ";
      PIdent (eGoIdent enum); PStr "_value" ];
    [] ]
  ++ map (fun value =>
            [ PStr "const "; PStr (GoName (evGoIdent value)); PStr " = ";
              PStr (GoName (eGoIdent enum)); PStr "("; PIdent (evGoIdent value);
              PStr ")" ])
         (eValues enum).

End ImportVocabulary.

Section CommentVocabulary.
Context `{env : GoEnv}.

(** The lines of the leading comments genComment finds for a path: those of
    the first location with comments that the location map has under the
    key of the path. *)
Definition leadingComment (f : fileInfo) (path : list Z) : list string :=
  match firstCommented (default [] (locationMap f !! pathKey path)) with
  | Some comments => strings_Split_newline (strings_TrimSuffix_newline comments)
  | None => []
  end.

End CommentVocabulary.

Section PreambleVocabulary.
Context `{env : GoEnv}.

(** The lines of the leading comments of the package clause of a file:
    those of the first location with comments at the path of the package
    field of the descriptor. *)
Definition packageComment (file : File) : list string :=
  match firstCommented (locationsAt [2] (GetLocation (fileProto file))) with
  | Some comments => strings_Split_newline (strings_TrimSuffix_newline comments)
  | None => []
  end.

(** The lines a generated file begins with: the marker of generated code,
    the source, the package clause under its comments, the references that
    keep the imports used, and the assertion on the version of the proto
    package. *)
Definition preamble (file : File) : list Line :=
  [ [ PStr "// Code generated by protoc-gen-go. DO NOT EDIT." ];
    (if GetDeprecated (fileProto file)
     then [ PStr "// "; PStr (fileDescPath file); PStr " is a deprecated file." ]
     else [ PStr "// source: "; PStr (fileDescPath file) ]);
    [] ]
  ++ map commentLine (packageComment file)
  ++ [ [];
       [ PStr "package "; PStr (fileGoPackageName file) ];
       [];
       [ PStr "// Reference imports to suppress errors if they are not otherwise used." ];
       [ PStr "var _ = "; PIdent (protoIdent "Marshal") ];
       [ PStr "var _ = "; PIdent (mkGoIdent "Errorf" "fmt") ];
       [ PStr "var _ = "; PIdent (mkGoIdent "Inf" "math") ];
       [];
       [ PStr "// This is a compile-time assertion to ensure that this generated file" ];
       [ PStr "// is compatible with the proto package it is being compiled against." ];
       [ PStr "// A compilation error at this line likely means your copy of the" ];
       [ PStr "// proto package needs to be updated." ];
       [ PStr "const _ = "; PIdent (protoIdent "ProtoPackageIsVersion2");
         PStr "// please upgrade the proto package" ];
       [] ].

End PreambleVocabulary.

(** [printsFirst m header last]: as [runsInto m last], and the lines
    printed on the way begin with [header]. *)
Definition printsFirst {A : Type} (m : Gen A) (header : list Line) (last : Gen A) : Prop :=
  forall st, exists st1 ls,
    genErrors st1 = genErrors st /\ gBuf st1 = gBuf st ++ header ++ ls /\ m st = last st1.

(** The state after g.Import of a path. *)
Definition imported (path : string) (st : GenState) : GenState :=
  mkGenState (gBuf st) ({[ path ]} ∪ gImports st) (genErrors st).

Section EntityVocabulary.
Context `{env : GoEnv} `{oneofs : !OneofEmitters}.

(** The result of genComment for a path: whether a location of the path has
    leading comments. *)
Definition hasLeadingComment (f : fileInfo) (path : list Z) : bool :=
  bool_decide (is_Some (firstCommented (default [] (locationMap f !! pathKey path)))).

(** What genEnum prints before the two tables: the type under its leading
    comments and the block of constants, one for each value under its
    leading comments. *)
Definition enumOpening (f : fileInfo) (enum : Enum) : list Line :=
  map commentLine (leadingComment f (ePath enum))
  ++ [ [ PStr "type "; PIdent (eGoIdent enum); PStr " int32";
         PStr (deprecationComment (eDeprecated enum)) ];
       [ PStr "const (" ] ]
  ++ flat_map (fun value =>
                 map commentLine (leadingComment f (evPath value))
                 ++ [ [ PIdent (evGoIdent value); PStr " "; PIdent (eGoIdent enum);
                        PStr " = "; PInt (evNumber value);
                        PStr (deprecationComment (evDeprecated value)) ] ])
              (eValues enum)
  ++ [ [ PStr ")" ]; [] ].

(** The two tables of an enum. The number-to-name table has an entry for
    each value, behind the duplicate comment when the number of the value
    repeats that of an earlier one; the name-to-number table has an entry
    for each value. *)
Definition nameTable (enum : Enum) : list Line :=
  [ [ PStr "var "; PStr (GoName (eGoIdent enum) +:+ "_name");
      PStr " = map[int32]string{" ] ]
  ++ imap (fun i value => nameMapLine (repeatsEarlier (eValues enum) i) value)
       (eValues enum)
  ++ [ [ PStr "}" ]; [] ].

Definition valueTable (enum : Enum) : list Line :=
  [ [ PStr "var "; PStr (GoName (eGoIdent enum) +:+ "_value");
      PStr " = map[string]int32{" ] ]
  ++ map valueMapLine (eValues enum)
  ++ [ [ PStr "}" ]; [] ].

(** What genEnum prints after the two tables: the methods Enum (not under
    proto3), String, UnmarshalJSON (not under proto3) and EnumDescriptor,
    and XXX_WellKnownType for a well-known type. *)
Definition enumMethods (f : fileInfo) (enum : Enum) : list Line :=
  (if bool_decide (eSyntax enum <> Proto3)
   then [ [ PStr "func (x "; PIdent (eGoIdent enum); PStr ") Enum() *";
            PIdent (eGoIdent enum); PStr " {" ];
          [ PStr "p := new("; PIdent (eGoIdent enum); PStr ")" ];
          [ PStr "*p = x" ];
          [ PStr "return p" ];
          [ PStr "}" ];
          [] ]
   else [])
  ++ [ [ PStr "func (x "; PIdent (eGoIdent enum); PStr ") String() string {" ];
       [ PStr "return "; PIdent (protoIdent "EnumName"); PStr "(";
         PIdent (eGoIdent enum); PStr "_name, int32(x))" ];
       [ PStr "}" ];
       [] ]
  ++ (if bool_decide (eSyntax enum <> Proto3)
      then [ [ PStr "func (x *"; PIdent (eGoIdent enum);
               PStr ") UnmarshalJSON(data []byte) error {" ];
             [ PStr "value, err := "; PIdent (protoIdent "UnmarshalJSONEnum"); PStr "(";
               PIdent (eGoIdent enum); PStr ("_value, data, " +:+ dq);
               PIdent (eGoIdent enum); PStr (dq +:+ ")") ];
             [ PStr "if err != nil {" ];
             [ PStr "return err" ];
             [ PStr "}" ];
             [ PStr "*x = "; PIdent (eGoIdent enum); PStr "(value)" ];
             [ PStr "return nil" ];
             [ PStr "}" ];
             [] ]
      else [])
  ++ [ [ PStr "func ("; PIdent (eGoIdent enum);
         PStr ") EnumDescriptor() ([]byte, []int) {" ];
       [ PStr "return "; PStr (descriptorVar f); PStr ", []int{";
         PStr (strings_Join (map strconv_Itoa (oddIndexes (ePath enum))) ",");
         PStr "}" ];
       [ PStr "}" ];
       [] ]
  ++ (if wellKnownTypes (eFullName enum)
      then [ [ PStr "func ("; PStr ""; PIdent (eGoIdent enum);
               PStr (") XXX_WellKnownType() string { return " +:+ dq);
               PStr (eName enum); PStr (dq +:+ " }") ];
             [] ]
      else []).

(** The line of an extension range in the table of a message. *)
Definition rangeLine (r : Z * Z) : Line :=
  [ PStr "{Start:"; PInt r.1; PStr ", End:"; PInt (wrap_int32 (r.2 - 1)); PStr "}," ].

(** What genMessage prints before the fields of the struct: the leading
    comments, the deprecation comment of a deprecated message (behind an
    empty comment line when there are leading comments), and the opening of
    the struct. *)
Definition messageOpening (f : fileInfo) (message : Message) : list Line :=
  map commentLine (leadingComment f (mPath message))
  ++ (if mDeprecated message
      then (if hasLeadingComment f (mPath message) then [ [ PStr "//" ] ] else [])
           ++ [ [ PStr "// Deprecated: Do not use." ] ]
      else [])
  ++ [ [ PStr "type "; PIdent (mGoIdent message); PStr " struct {" ] ].

(** What genMessage prints between the fields of the struct and the holders
    of the defaults: the fields of the runtime and the end of the struct,
    the methods Reset, String, ProtoMessage and Descriptor, for a message
    with extension ranges the JSON methods of a message set and the table of
    the ranges, XXX_WellKnownType for a well-known type, and the methods
    and var of the table-driven support. *)
Definition messageMethods (f : fileInfo) (message : Message) : list Line :=
  let ident := mGoIdent message in
  let extensible := bool_decide (0 < length (mExtensionRanges message))%nat in
  let extRangeVar := "extRange_" +:+ GoName ident in
  let messageInfoVar := "xxx_messageInfo_" +:+ GoName ident in
  [ [ PStr ("XXX_NoUnkeyedLiteral struct{} `json:" +:+ dq +:+ "-" +:+ dq +:+ "`") ] ]
  ++ (if extensible
      then [ [ PIdent (protoIdent "XXX_InternalExtensions"); PStr " `";
               PStr (strings_Join
                       ((if mMessageSetWireFormat message
                         then [ "protobuf_messageset:" +:+ dq +:+ "1" +:+ dq ] else [])
                        ++ [ "json:" +:+ dq +:+ "-" +:+ dq ]) " ");
               PStr "`" ] ]
      else [])
  ++ [ [ PStr ("XXX_unrecognized []byte `json:" +:+ dq +:+ "-" +:+ dq +:+ "`") ];
       [ PStr ("XXX_sizecache int32 `json:" +:+ dq +:+ "-" +:+ dq +:+ "`") ];
       [ PStr "}" ];
       [];
       [ PStr "func (m *"; PIdent ident; PStr ") Reset() { *m = "; PIdent ident;
         PStr "{} }" ];
       [ PStr "func (m *"; PIdent ident; PStr ") String() string { return ";
         PIdent (protoIdent "CompactTextString"); PStr "(m) }" ];
       [ PStr "func (*"; PIdent ident; PStr ") ProtoMessage() {}" ];
       [ PStr "func (*"; PIdent ident; PStr ") Descriptor() ([]byte, []int) {" ];
       [ PStr "return "; PStr (descriptorVar f); PStr ", []int{";
         PStr (strings_Join (map strconv_Itoa (oddIndexes (mPath message))) ",");
         PStr "}" ];
       [ PStr "}" ];
       [] ]
  ++ (if extensible
      then (if mMessageSetWireFormat message
            then [ [ PStr "func (m *"; PIdent ident;
                     PStr ") MarshalJSON() ([]byte, error) {" ];
                   [ PStr "return "; PIdent (protoIdent "MarshalMessageSetJSON");
                     PStr "(&m.XXX_InternalExtensions)" ];
                   [ PStr "}" ];
                   [ PStr "func (m *"; PIdent ident;
                     PStr ") UnmarshalJSON(buf []byte) error {" ];
                   [ PStr "return "; PIdent (protoIdent "UnmarshalMessageSetJSON");
                     PStr "(buf, &m.XXX_InternalExtensions)" ];
                   [ PStr "}" ];
                   [] ]
            else [])
           ++ [ [ PStr "var "; PStr extRangeVar; PStr " = []";
                  PIdent (protoIdent "ExtensionRange"); PStr " {" ] ]
           ++ map rangeLine (mExtensionRanges message)
           ++ [ [ PStr "}" ];
                [];
                [ PStr "func (*"; PIdent ident; PStr ") ExtensionRangeArray() []";
                  PIdent (protoIdent "ExtensionRange"); PStr " {" ];
                [ PStr "return "; PStr extRangeVar ];
                [ PStr "}" ];
                [] ]
      else [])
  ++ (if wellKnownTypes (mFullName message)
      then [ [ PStr "func ("; PStr "*"; PIdent ident;
               PStr (") XXX_WellKnownType() string { return " +:+ dq);
               PStr (mName message); PStr (dq +:+ " }") ];
             [] ]
      else [])
  ++ [ [ PStr "func (m *"; PIdent ident; PStr ") XXX_Unmarshal(b []byte) error {" ];
       [ PStr "return "; PStr messageInfoVar; PStr ".Unmarshal(m, b)" ];
       [ PStr "}" ];
       [ PStr "func (m *"; PIdent ident;
         PStr ") XXX_Marshal(b []byte, deterministic bool) ([]byte, error) {" ];
       [ PStr "return "; PStr messageInfoVar; PStr ".Marshal(b, m, deterministic)" ];
       [ PStr "}" ];
       [ PStr "func (m *"; PIdent ident; PStr ") XXX_Merge(src proto.Message) {" ];
       [ PStr messageInfoVar; PStr ".Merge(m, src)" ];
       [ PStr "}" ];
       [ PStr "func (m *"; PIdent ident; PStr ") XXX_Size() int {" ];
       [ PStr "return "; PStr messageInfoVar; PStr ".Size(m)" ];
       [ PStr "}" ];
       [ PStr "func (m *"; PIdent ident; PStr ") XXX_DiscardUnknown() {" ];
       [ PStr messageInfoVar; PStr ".DiscardUnknown(m)" ];
       [ PStr "}" ];
       [];
       [ PStr "var "; PStr messageInfoVar; PStr " ";
         PIdent (protoIdent "InternalMessageInfo") ];
       [] ].

(** The lines of a message that is not a map entry, around what its loops
    print: the lines of the struct for each field, the holder of the
    default for each field, the getter for each field, and the block of
    each extension declared in the message. *)
Definition messageLines (f : fileInfo) (message : Message)
    (structLines holderLines getterLines extensionLines : list (list Line)) : list Line :=
  messageOpening f message
  ++ concat structLines
  ++ messageMethods f message
  ++ concat holderLines
  ++ [ [] ]
  ++ concat getterLines
  ++ (if bool_decide (0 < length (mOneofs message))%nat
      then genOneofFuncs f message else [])
  ++ concat extensionLines.

(** What the loops of genMessage print, iteration by iteration: one list of
    lines for each field in the loop over the struct, in the loop over the
    holders and in the loop over the getters, and one for each extension. *)
Definition messageLoops (f : fileInfo) (message : Message)
    (structLines holderLines getterLines extensionLines : list (list Line)) : Prop :=
  Forall2 (fun field ls => emits (genMessage_structField f message field) tt ls)
    (mFields message) structLines
  /\ Forall2 (fun field ls => emits (genMessage_defaultVar message field) tt ls)
       (mFields message) holderLines
  /\ Forall2 (fun field ls => emits (genMessage_getter f message field) tt ls)
       (mFields message) getterLines
  /\ Forall2 (fun extension ls => emits (genExtension f extension) tt ls)
       (mExtensions message) extensionLines.

End EntityVocabulary.

(** ** A second model: a file with comments and a public import *)

Module Sample.
Import Demo.

Definition depPath : string := "example.com/dep".

(** enum Unit { METRE = 0; } at the top of dep.proto *)
Definition unitEnum : Enum :=
  mkEnum (mkGoIdent "Unit" depPath) (NestedDesc (FileDesc "dep")) "Unit" "dep.Unit"
    Proto3 [5; 0]
    [ mkEnumValue (mkGoIdent "Unit_METRE" depPath) "METRE" 0 [5; 0; 2; 0] false ]
    false.

(** enum Kind { PLAIN = 0; } in the message Outer.Inner *)
Definition kindEnum : Enum :=
  mkEnum (mkGoIdent "Outer_Inner_Kind" depPath)
    (NestedDesc (NestedDesc (NestedDesc (FileDesc "dep")))) "Kind" "dep.Outer.Inner.Kind"
    Proto3 [4; 0; 3; 0; 4; 0]
    [ mkEnumValue (mkGoIdent "Outer_Inner_PLAIN" depPath) "PLAIN" 0
        [4; 0; 3; 0; 4; 0; 2; 0] false ]
    false.

(** message Outer { message Inner { enum Kind ... } } *)
Definition inner : Message :=
  mkMessage (mkGoIdent "Outer_Inner" depPath) "Inner" "dep.Outer.Inner" false [] false
    false [4; 0; 3; 0] [] [] [kindEnum] [] [].

Definition outer : Message :=
  mkMessage (mkGoIdent "Outer" depPath) "Outer" "dep.Outer" false [] false false [4; 0]
    [] [] [] [] [inner].

Definition dep : File :=
  mkFile "dep.proto" [] (mkDescProto [] false true) "dep" depPath [outer] [unitEnum] [].

Definition publicImport : FileImport := mkFileImport "dep.proto" true.

Definition plugin : Plugin := mkPlugin {[ "dep.proto" := dep ]}.

(** The locations of sample.proto: the package statement has a location
    without comments and one with two lines of comments. *)
Definition packageComments : string :=
  String.append " Package demo is a sample."
    (String newline (String.append " It has one message." (String newline ""))).

Definition locations : list Location :=
  [ mkLocation [2] None;
    mkLocation [4; 0] (Some " Msg is a message.");
    mkLocation [2] (Some packageComments);
    mkLocation [2] (Some " A later comment.") ].

Definition file : File :=
  mkFile "sample.proto" [publicImport] (mkDescProto locations false true) "demo" goPath
    [msg] [color] [weightExt].

Definition info : fileInfo :=
  default (mkFileInfo file ∅ "" [] [] []) (newFileInfo file).

(** message Item { extend Set { optional Item message_set_extension = 4; } }
    where Set has the message-set wire format *)
Definition itemRef : MessageRef :=
  mkMessageRef (mkGoIdent "Item" goPath) "Item" "demo.Item" false [].

Definition setRef : MessageRef :=
  mkMessageRef (mkGoIdent "Set" goPath) "Set" "demo.Set" true [].

Definition element : Extension :=
  mkField 31
    (mkFieldDescriptor MessageKind 4 Optional false "message_set_extension"
       "demo.Item.message_set_extension" "messageSetExtension" Proto2 None false VNil
       false)
    "MessageSetExtension" [] false None (Some itemRef) None (Some itemRef) (Some setRef).

(** optional Color shade = 11 [default = BLUE]; BLUE has the number of
    GREEN, which is declared before it *)
Definition shadeField : Field :=
  mkField 11 (withDefault (desc EnumKind 11 Optional "shade" "shade" Proto2) (VEnum 1))
    "Shade" [] false (Some color) None None None None.

(** message Shaded { optional Color shade = 11 [default = BLUE]; } *)
Definition shaded : Message :=
  mkMessage (mkGoIdent "Shaded" goPath) "Shaded" "demo.Shaded" false [] false false
    [4; 1] [shadeField] [] [] [] [].

End Sample.

(** * Properties *)

Section MonadFacts.

Lemma addLines_nil st : addLines st [] = st.
Proof. destruct st. unfold addLines. simpl. by rewrite app_nil_r. Qed.

Lemma addLines_app st l1 l2 : addLines (addLines st l1) l2 = addLines st (l1 ++ l2).
Proof. unfold addLines. simpl. by rewrite app_assoc. Qed.

Lemma emits_ret {A} (a : A) : emits (mret a) a [].
Proof. intros st. by rewrite addLines_nil. Qed.

Lemma emits_P (l : Line) : emits (g_P l) tt [l].
Proof. by intros st. Qed.

Lemma emits_bind {A B} (m : Gen A) (k : A -> Gen B) a b l1 l2 :
  emits m a l1 -> emits (k a) b l2 -> emits (m ≫= k) b (l1 ++ l2).
Proof.
  intros Hm Hk st. unfold mbind, Gen_bind.
  by rewrite Hm, Hk, addLines_app.
Qed.

Lemma emits_orPanic {A} (o : option A) a : o = Some a -> emits (orPanic o) a [].
Proof. intros -> st. by rewrite addLines_nil. Qed.

Lemma emits_orPanic_bind {A B} (o : option A) (k : A -> Gen B) a b ls :
  o = Some a -> emits (k a) b ls -> emits (orPanic o ≫= k) b ls.
Proof.
  intros Ho Hk. change ls with ([] ++ ls).
  eapply emits_bind; [by apply emits_orPanic|done].
Qed.

Lemma emits_when_true (m : Gen unit) ls : emits m tt ls -> emits (when true m) tt ls.
Proof. done. Qed.

Lemma emits_when_false (m : Gen unit) : emits (when false m) tt [].
Proof. apply emits_ret. Qed.

Lemma emits_forRange {A} (body : A -> Gen unit) (l : list A) (lss : list (list Line)) :
  Forall2 (fun x ls => emits (body x) tt ls) l lss ->
  emits (forRange l body) tt (concat lss).
Proof.
  induction 1 as [|x ls l lss Hx _ IH]; simpl.
  - apply emits_ret.
  - by eapply emits_bind.
Qed.

Lemma emits_forRange_map {A} (body : A -> Gen unit) (line : A -> Line) (l : list A) :
  (forall x, x ∈ l -> emits (body x) tt [line x]) ->
  emits (forRange l body) tt (map line l).
Proof.
  induction l as [|x l IH]; intros H; simpl.
  - apply emits_ret.
  - change (line x :: map line l) with ([line x] ++ map line l).
    eapply emits_bind; [apply H; left|apply IH; intros; apply H; by right].
Qed.

Lemma emits_emitLines ls : emits (emitLines ls) tt ls.
Proof.
  unfold emitLines. rewrite <- (list_fmap_id ls) at 2.
  apply emits_forRange_map. intros; apply emits_P.
Qed.

Lemma emits_quiet {A} (m : Gen A) a ls : emits m a ls -> quiet m.
Proof. intros H st. exists a, (addLines st ls), ls. by rewrite H. Qed.

Lemma quiet_ret {A} (a : A) : quiet (mret a).
Proof. eapply emits_quiet, emits_ret. Qed.

Lemma quiet_bind {A B} (m : Gen A) (k : A -> Gen B) :
  quiet m -> (forall a, quiet (k a)) -> quiet (m ≫= k).
Proof.
  intros Hm Hk st. destruct (Hm st) as (a & st1 & l1 & E1 & Herr1 & Hbuf1).
  destruct (Hk a st1) as (b & st2 & l2 & E2 & Herr2 & Hbuf2).
  exists b, st2, (l1 ++ l2). unfold mbind, Gen_bind. rewrite E1, E2.
  split; [done|]. split; [congruence|]. by rewrite Hbuf2, Hbuf1, app_assoc.
Qed.

Lemma quiet_orPanic_bind {A B} (o : option A) (k : A -> Gen B) a :
  o = Some a -> quiet (k a) -> quiet (orPanic o ≫= k).
Proof. intros -> Hk st. apply Hk. Qed.

Lemma quiet_P l : quiet (g_P l).
Proof. eapply emits_quiet, emits_P. Qed.

Lemma quiet_when b (m : Gen unit) : quiet m -> quiet (when b m).
Proof. destruct b; [done|intros _; apply quiet_ret]. Qed.

Lemma quiet_forRange {A} (body : A -> Gen unit) (l : list A) :
  (forall x, x ∈ l -> quiet (body x)) -> quiet (forRange l body).
Proof.
  induction l as [|x l IH]; intros H; simpl.
  - apply quiet_ret.
  - apply quiet_bind; [apply H; left|intros _; apply IH; intros; apply H; by right].
Qed.

Lemma quiet_emitLines ls : quiet (emitLines ls).
Proof. eapply emits_quiet, emits_emitLines. Qed.

End MonadFacts.

Section MappingFacts.
Context `{env : GoEnv}.

Lemma tokenIf_app (b : bool) (tag : list string) (token : string) :
  (if b then tag ++ [token] else tag) = tag ++ tokenIf b token.
Proof. destruct b; simpl; [done|by rewrite app_nil_r]. Qed.

Lemma last_tokenIf_true (l : list string) (token : string) :
  last (l ++ tokenIf true token) = Some token.
Proof. simpl. apply last_snoc. Qed.

(** A well-formed default can be read with the accessor of its kind. *)
Lemma wfDefault_tagDefault desc enumType :
  wfDefault desc enumType = true -> fdHasDefault desc = true ->
  is_Some (tagDefault desc).
Proof.
  unfold wfDefault, tagDefault. intros Hwf Hdef. rewrite Hdef in Hwf. simpl in Hwf.
  destruct (fdKind desc), (fdDefault desc); simpl in *; try discriminate; eauto.
Qed.

Lemma wfEnum_registryName enum :
  wfEnum enum = true -> is_Some (enumRegistryName enum).
Proof.
  unfold wfEnum, enumRegistryName. intros H%andb_prop. destruct H as [H _].
  destruct (rootDescriptor (eDesc enum)); try discriminate. eauto.
Qed.

Lemma wfEnum_first enum :
  wfEnum enum = true -> is_Some (eValues enum !! 0%nat).
Proof.
  unfold wfEnum. intros H%andb_prop. destruct H as [_ H].
  apply bool_decide_eq_true in H. destruct (eValues enum); [done|]. simpl. eauto.
Qed.

(** The parts of well-formedness, one at a time. *)
Lemma wfField_default field :
  wfField field = true -> wfDefault (fDesc field) (fEnumType field) = true.
Proof.
  destruct field; simpl. intros H%andb_prop. destruct H as [H _].
  apply andb_prop in H. tauto.
Qed.

Lemma wfField_oneof field oneof :
  wfField field = true -> fOneofType field = Some oneof ->
  is_Some (orFields oneof !! 0%nat).
Proof.
  destruct field; simpl. intros H%andb_prop Ho. destruct H as [H _].
  apply andb_prop in H. destruct H as [_ H]. rewrite Ho in H.
  apply bool_decide_eq_true in H. destruct (orFields oneof); [done|]. simpl. eauto.
Qed.

Lemma wfField_enum field :
  wfField field = true -> fdKind (fDesc field) = EnumKind ->
  exists enum, fEnumType field = Some enum /\ wfEnum enum = true.
Proof.
  destruct field; simpl. intros H%andb_prop Hk. destruct H as [_ H].
  rewrite Hk in H. apply andb_prop in H. destruct H as [_ H].
  destruct fEnumType0; [eauto|discriminate].
Qed.

Lemma wfField_message field :
  wfField field = true -> isMessageOrGroup (fdKind (fDesc field)) = true ->
  exists mt, fMessageType field = Some mt.
Proof.
  destruct field; simpl. intros H%andb_prop Hk. destruct H as [_ H].
  destruct (fdKind fDesc0); try discriminate;
    (destruct fMessageType0; [eauto|discriminate]).
Qed.

Lemma wfField_map field :
  wfField field = true -> fdIsMap (fDesc field) = true ->
  isMessageOrGroup (fdKind (fDesc field)) = true
  /\ exists mt key val,
       fMessageType field = Some mt /\ mrFields mt !! 0%nat = Some key
       /\ mrFields mt !! 1%nat = Some val
       /\ wfField key = true /\ wfField val = true.
Proof.
  destruct field; simpl. intros H%andb_prop Hm. destruct H as [_ H].
  rewrite Hm in H.
  destruct (fdKind fDesc0); simpl in H; try discriminate;
    (split; [done|]);
    (destruct fMessageType0 as [mt|]; [|discriminate]);
    (destruct mt as [? ? ? ? fields]; simpl in *);
    (destruct fields as [|key [|val rest]]; try discriminate);
    apply andb_prop in H; destruct H; eauto 10.
Qed.

(** The type mapper returns on every well-formed field. *)
Lemma wfField_fieldGoType :
  forall field, wfField field = true -> is_Some (fieldGoType field).
Proof.
  fix IH 1. intros field Hwf.
  destruct field as [addr desc goName path depr enumType mt oneof parent extended].
  simpl in Hwf. apply andb_prop in Hwf. destruct Hwf as [_ Hwf].
  simpl. destruct (fdKind desc) eqn:Hk; simpl;
    try (repeat case_decide; by eauto).
  - apply andb_prop in Hwf. destruct Hwf as [_ Hwf].
    destruct enumType; [|discriminate]. repeat case_decide; eauto.
  - destruct mt as [[ident name fullName wire fields]|]; [|discriminate]. simpl in *.
    destruct (fdIsMap desc); [|repeat case_decide; eauto].
    destruct fields as [|key [|val rest]]; try discriminate.
    apply andb_prop in Hwf. destruct Hwf as [Hkey Hval].
    destruct (IH key Hkey) as [[kt kp] ->], (IH val Hval) as [[vt vp] ->]. eauto.
  - destruct mt as [[ident name fullName wire fields]|]; [|discriminate]. simpl in *.
    destruct (fdIsMap desc); [|repeat case_decide; eauto].
    destruct fields as [|key [|val rest]]; try discriminate.
    apply andb_prop in Hwf. destruct Hwf as [Hkey Hval].
    destruct (IH key Hkey) as [[kt kp] ->], (IH val Hval) as [[vt vp] ->]. eauto.
Qed.

(** Under proto3, and for a repeated field, no return of the type mapper
    has the pointer flag. *)
Lemma fieldGoType_pointer_false (field : Field) (goType : string) (pointer : bool) :
  fdSyntax (fDesc field) = Proto3 \/ fdCardinality (fDesc field) = Repeated ->
  fieldGoType field = Some (goType, pointer) -> pointer = false.
Proof.
  intros Hcase.
  destruct field as [addr desc goName path depr enumType mt oneof parent extended].
  simpl in *.
  destruct (fdKind desc); simpl;
    try (repeat case_decide; intros [= <- <-]; by (done || destruct Hcase)).
  - destruct enumType; [|done].
    repeat case_decide; intros [= <- <-]; by (done || destruct Hcase).
  - destruct mt as [mt|]; [|done]. destruct (fdIsMap desc).
    + destruct (mrFields mt) as [|key [|val rest]]; try done.
      destruct (fieldGoType key) as [[kt kp]|]; [|done].
      destruct (fieldGoType val) as [[vt vp]|]; [|done]. by intros [= <- <-].
    + repeat case_decide; intros [= <- <-]; by (done || destruct Hcase).
  - destruct mt as [mt|]; [|done]. destruct (fdIsMap desc).
    + destruct (mrFields mt) as [|key [|val rest]]; try done.
      destruct (fieldGoType key) as [[kt kp]|]; [|done].
      destruct (fieldGoType val) as [[vt vp]|]; [|done]. by intros [= <- <-].
    + repeat case_decide; intros [= <- <-]; by (done || destruct Hcase).
Qed.

(** C7: the pointer flag of the type mapper is false for every field
    declared under proto3 syntax and for every repeated field, whatever its
    syntax and kind; and the mapper does return on a well-formed field. *)
Theorem fieldGoType_never_pointer (field : Field) :
  fdSyntax (fDesc field) = Proto3 \/ fdCardinality (fDesc field) = Repeated ->
  (forall goType pointer, fieldGoType field = Some (goType, pointer) -> pointer = false)
  /\ (wfField field = true -> exists goType, fieldGoType field = Some (goType, false)).
Proof.
  intros Hcase. split.
  - intros goType pointer. by apply fieldGoType_pointer_false.
  - intros Hwf. destruct (wfField_fieldGoType field Hwf) as [[goType pointer] E].
    exists goType. by rewrite E, (fieldGoType_pointer_false _ _ _ Hcase E).
Qed.

(** C6: for a map field, a field of message kind whose message type is a
    map entry, the type mapper returns the mapping type map[K]V, where K and
    V are the types it maps the first and the second field of the entry to,
    and the pointer flag false. *)
Theorem fieldGoType_map (field : Field) (mt : MessageRef) (key val : Field)
    (keyType valType : string) (keyPointer valPointer : bool) :
  isMessageOrGroup (fdKind (fDesc field)) = true ->
  fdIsMap (fDesc field) = true ->
  fMessageType field = Some mt ->
  mrFields mt !! 0%nat = Some key ->
  mrFields mt !! 1%nat = Some val ->
  fieldGoType key = Some (keyType, keyPointer) ->
  fieldGoType val = Some (valType, valPointer) ->
  fieldGoType field = Some ("map[" +:+ keyType +:+ "]" +:+ valType, false).
Proof.
  intros Hkind Hmap Hmt Hkey Hval Ekey Eval.
  destruct field as [addr desc goName path depr enumType mt' oneof parent extended].
  simpl in *. subst mt'. rewrite Hmap.
  destruct (mrFields mt) as [|key' [|val' rest]]; try done.
  simpl in Hkey, Hval. injection Hkey as ->. injection Hval as ->.
  rewrite Ekey, Eval.
  by destruct (fdKind desc).
Qed.

(** What fieldHasDefault computes on a default of the type of its kind. *)
Lemma wfDefault_fieldHasDefault (field : Field) :
  wfDefault (fDesc field) (fEnumType field) = true ->
  fieldHasDefault field
    = Some (fdHasDefault (fDesc field)
            && (negb (isStringOrBytes (fdKind (fDesc field)))
                || negb (emptyDefault (fdDefault (fDesc field))))).
Proof.
  unfold wfDefault, fieldHasDefault. intros Hwf.
  destruct (fdHasDefault (fDesc field)); simpl in *; [|done].
  destruct (fdKind (fDesc field)), (fdDefault (fDesc field)) as [| | | | | | | |s|b|];
    simpl in *; try discriminate; try done.
  f_equal. f_equal. destruct b; by simpl.
Qed.

(** C5: a field has a default in the sense of the generator exactly when it
    declares one and either its kind is neither string nor bytes or the
    declared default is not empty; a string field with the default "" and a
    bytes field with an empty default count as having none. *)
Theorem fieldHasDefault_nontrivial (field : Field) :
  wfDefault (fDesc field) (fEnumType field) = true ->
  fieldHasDefault field
    = Some (fdHasDefault (fDesc field)
            && (negb (isStringOrBytes (fdKind (fDesc field)))
                || negb (emptyDefault (fdDefault (fDesc field)))))
  /\ (fdKind (fDesc field) = StringKind -> fdDefault (fDesc field) = VString "" ->
       fieldHasDefault field = Some false)
  /\ (fdKind (fDesc field) = BytesKind -> fdDefault (fDesc field) = VBytes [] ->
       fieldHasDefault field = Some false).
Proof.
  intros Hwf. rewrite (wfDefault_fieldHasDefault field Hwf).
  repeat split; intros -> ->; simpl; by rewrite andb_false_r.
Qed.

#[local] Arguments enumRegistryName : simpl never.
#[local] Arguments tagDefault : simpl never.

(** C1, as amended: the tag of a well-formed field is the comma-joined list
    of the wire type token, the field number, the cardinality token, then
    packed if the field is packed, name= and the name on the wire, json= and
    the JSON name if that name is not empty and differs from the name on the
    wire, proto3 under proto3 syntax, enum= and the registry name for an
    enum kind, oneof for a member of a oneof, and def= and the encoded
    default if the field declares a default; the def token, when there, is
    the last one. *)
Theorem fieldProtobufTag_tokens (field : Field) :
  wfField field = true ->
  exists wireName registryName encodedDefault,
    isWireName field wireName
    /\ (fdKind (fDesc field) = EnumKind ->
         exists enum, fEnumType field = Some enum
                      /\ enumRegistryName enum = Some registryName)
    /\ (fdHasDefault (fDesc field) = true ->
         tagDefault (fDesc field) = Some encodedDefault)
    /\ let jsonName := fdJSONName (fDesc field) in
        let tokens :=
          tagTokens (negb (String.eqb jsonName "") && negb (String.eqb jsonName wireName))
            (fDesc field) wireName registryName encodedDefault in
        fieldProtobufTag field = Some (strings_Join tokens ",")
        /\ (fdHasDefault (fDesc field) = true ->
             last tokens = Some ("def=" +:+ encodedDefault)).
Proof.
  intros Hwf.
  assert (Hname : exists wireName, isWireName field wireName
            /\ (if decide (fdKind (fDesc field) = GroupKind)
                then mt ← fMessageType field; Some (mrName mt)
                else Some (fdName (fDesc field))) = Some wireName).
  { unfold isWireName. case_decide as Hk; [|eauto].
    destruct (wfField_message field Hwf) as [mt Hmt]; [by rewrite Hk|].
    exists (mrName mt). rewrite Hmt. eauto. }
  destruct Hname as (wireName & Hwire & Ename).
  assert (Hreg : exists registryName,
            fdKind (fDesc field) = EnumKind ->
            exists enum, fEnumType field = Some enum
                         /\ enumRegistryName enum = Some registryName).
  { destruct (decide (fdKind (fDesc field) = EnumKind)) as [Hk|Hk].
    - destruct (wfField_enum field Hwf Hk) as (enum & He & Hwfe).
      destruct (wfEnum_registryName enum Hwfe) as [reg Hreg]. exists reg. eauto.
    - exists "". done. }
  destruct Hreg as (registryName & Hreg).
  assert (Hdef : exists encodedDefault,
            fdHasDefault (fDesc field) = true ->
            tagDefault (fDesc field) = Some encodedDefault).
  { destruct (fdHasDefault (fDesc field)) eqn:Hd.
    - destruct (wfDefault_tagDefault _ _ (wfField_default field Hwf) Hd) as [d Hd'].
      exists d. done.
    - exists "". done. }
  destruct Hdef as (encodedDefault & Hdef).
  exists wireName, registryName, encodedDefault.
  split; [done|]. split; [done|]. split; [done|].
  cbv zeta. split.
  - unfold fieldProtobufTag, tagTokens. rewrite Ename. simpl.
    destruct (decide (fdKind (fDesc field) = EnumKind)) as [Hk|Hk];
      [destruct (Hreg Hk) as (enum & -> & Hr); simpl; rewrite Hr; simpl|];
      (destruct (fdHasDefault (fDesc field)); [rewrite (Hdef eq_refl)|]; simpl);
      repeat case_bool_decide; repeat case_decide; try done;
      destruct (fdOneofType (fDesc field)) eqn:Ho;
      try (exfalso; by eauto using is_Some_None);
      try (match goal with H : ¬ is_Some (Some _) |- _ => exfalso; apply H; eauto end);
      destruct (fdIsPacked (fDesc field)),
        (negb (fdJSONName (fDesc field) =? "")%string
         && negb (fdJSONName (fDesc field) =? wireName)%string),
        (fdCardinality (fDesc field)); simpl; try done.
  - intros Hd. unfold tagTokens. rewrite Hd. rewrite !app_assoc. apply last_snoc.
Qed.

(** C3: for a field that is not repeated, the value a getter returns when
    the field is unset is, without a default in the sense of the generator,
    false or 0 for the scalar kinds, the empty string literal for a string,
    nil for a message, a group or bytes, and the first declared value of the
    enum for an enum; with such a default it is the holder
    Default_<Message>_<Field>, and for bytes a fresh copy of the holder. *)
Theorem fieldDefaultValue_unset (message : Message) (field : Field) :
  fdCardinality (fDesc field) <> Repeated ->
  wfField field = true ->
  let kind := fdKind (fDesc field) in
  let holder := "Default_" +:+ GoName (mGoIdent message) +:+ "_" +:+ fGoName field in
  is_Some (fieldHasDefault field)
  /\ (fieldHasDefault field = Some false ->
       (kind = BoolKind -> fieldDefaultValue message field = Some "false")
       /\ (isNumeric kind = true -> fieldDefaultValue message field = Some "0")
       /\ (kind = StringKind -> fieldDefaultValue message field = Some (dq +:+ dq))
       /\ (isMessageOrGroup kind = true \/ kind = BytesKind ->
            fieldDefaultValue message field = Some "nil")
       /\ (kind = EnumKind ->
            exists enum first,
              fEnumType field = Some enum /\ eValues enum !! 0%nat = Some first
              /\ fieldDefaultValue message field
                  = Some (QualifiedGoIdent (evGoIdent first))))
  /\ (fieldHasDefault field = Some true ->
       (kind <> BytesKind -> fieldDefaultValue message field = Some holder)
       /\ (kind = BytesKind ->
            fieldDefaultValue message field
            = Some ("append([]byte(nil), " +:+ holder +:+ "...)"))).
Proof.
  intros Hcard Hwf kind holder. subst kind holder.
  assert (Hsome : is_Some (fieldHasDefault field)).
  { rewrite (wfDefault_fieldHasDefault field (wfField_default field Hwf)). eauto. }
  split; [done|]. unfold fieldDefaultValue.
  destruct (decide (fdCardinality (fDesc field) = Repeated)); [done|].
  split; intros ->; simpl.
  - repeat split.
    + by intros ->.
    + by destruct (fdKind (fDesc field)).
    + by intros ->.
    + intros [H| ->]; [|done]. by destruct (fdKind (fDesc field)).
    + intros Hk. destruct (wfField_enum field Hwf Hk) as (enum & He & Hwfe).
      destruct (wfEnum_first enum Hwfe) as [first Hfirst].
      exists enum, first. rewrite Hk, He. simpl. by rewrite Hfirst.
  - split; intros Hk; by case_decide.
Qed.

End MappingFacts.

Section MappingWitnesses.
Import Demo.

Lemma fieldGoType_never_pointer_witness :
  (forall goType pointer,
      fieldGoType numsField = Some (goType, pointer) -> pointer = false)
  /\ (wfField numsField = true ->
       exists goType, fieldGoType numsField = Some (goType, false)).
Proof. apply (fieldGoType_never_pointer numsField). right. reflexivity. Defined.

Lemma fieldGoType_map_witness :
  fieldGoType tagsField = Some ("map[string]int32", false).
Proof.
  apply (fieldGoType_map tagsField (entry "TagsEntry") keyField valueField
           "string" "int32" true true); reflexivity.
Defined.

Lemma fieldHasDefault_nontrivial_witness :
  fieldHasDefault noteField = Some false
  /\ fieldHasDefault nameField = Some true.
Proof.
  split.
  - destruct (fieldHasDefault_nontrivial noteField) as (_ & E & _);
      [reflexivity|apply E; reflexivity].
  - destruct (fieldHasDefault_nontrivial nameField) as [E _];
      [reflexivity|exact E].
Defined.

Lemma fieldProtobufTag_tokens_witness :
  fieldProtobufTag nameField = Some "bytes,2,opt,name=name,def=x"
  /\ fieldProtobufTag tintField = Some "varint,9,opt,name=tint,enum=demo.Color".
Proof.
  split.
  - destruct (fieldProtobufTag_tokens nameField) as (w & r & d & Hw & _ & Hd & E & _);
      [reflexivity|].
    compute in Hw. subst w. specialize (Hd eq_refl). injection Hd as <-. exact E.
  - destruct (fieldProtobufTag_tokens tintField) as (w & r & d & Hw & Hr & _ & E & _);
      [reflexivity|].
    compute in Hw. subst w. destruct (Hr eq_refl) as (enum & He & Hn).
    injection He as <-. injection Hn as <-. exact E.
Defined.

(** The claim of C1 as written shows the json token whenever the JSON name
    differs from the name on the wire. A descriptor without a JSON name has
    the empty one, which differs from the name "id", and the tag has no json
    token. *)
Lemma fieldProtobufTag_json_counterexample :
  fdJSONName (fDesc bareField) <> "id"
  /\ isWireName bareField "id"
  /\ fieldProtobufTag bareField = Some "varint,1,opt,name=id"
  /\ fieldProtobufTag bareField
      <> Some (strings_Join
                (tagTokens (bool_decide (fdJSONName (fDesc bareField) <> "id"))
                   (fDesc bareField) "id" "" "") ",").
Proof. repeat split; done. Qed.

Lemma fieldDefaultValue_unset_witness :
  fieldDefaultValue msg tintField = Some "Color_RED"
  /\ fieldDefaultValue msg nameField = Some "Default_Msg_Name".
Proof.
  split.
  - destruct (fieldDefaultValue_unset msg tintField) as (_ & H & _);
      [done|reflexivity|].
    destruct H as (_ & _ & _ & _ & H); [reflexivity|].
    destruct (H eq_refl) as (enum & first & He & Hf & E).
    injection He as <-. injection Hf as <-. exact E.
  - destruct (fieldDefaultValue_unset msg nameField) as (_ & _ & H);
      [done|reflexivity|].
    destruct H as [H _]; [reflexivity|]. apply H. done.
Defined.

End MappingWitnesses.

Section EnumFacts.
Context `{env : GoEnv}.

(** The loop over the values, started after [prefix] with the numbers of
    [prefix] in [generated]. *)
Lemma genEnum_nameMapEntries_emits (prefix rest : list EnumValue) (generated : gset Z) :
  (forall n, n ∈ generated <-> n ∈ map evNumber prefix) ->
  emits (genEnum_nameMapEntries rest generated) tt
    (imap (fun i value =>
             nameMapLine (repeatsEarlier (prefix ++ rest) (length prefix + i)) value)
          rest).
Proof.
  revert prefix generated.
  induction rest as [|value rest IH]; intros prefix generated Hgen; simpl.
  - apply emits_ret.
  - assert (Hdup : repeatsEarlier (prefix ++ value :: rest) (length prefix + 0)
                   = bool_decide (evNumber value ∈ generated)).
    { unfold repeatsEarlier. rewrite Nat.add_0_r.
      rewrite list_lookup_middle by done. rewrite take_app_length.
      apply bool_decide_ext. by rewrite Hgen. }
    rewrite Hdup.
    match goal with
    | |- emits _ tt (?l :: ?ls) => change (l :: ls) with ([l] ++ ls)
    end.
    eapply emits_bind.
    + unfold nameMapLine. case_decide; case_bool_decide; try done; apply emits_P.
    + specialize (IH (prefix ++ [value]) ({[evNumber value]} ∪ generated)).
      erewrite imap_ext; [apply IH|].
      * intros n. rewrite map_app, elem_of_app, elem_of_union, elem_of_singleton.
        simpl. rewrite list_elem_of_singleton, Hgen. tauto.
      * intros i v _. simpl. rewrite length_app, <- app_assoc. simpl.
        do 2 f_equal. lia.
Qed.

(** The two tables of an enum, as their parts of genEnum print them, and
    when the entry of a value is behind the duplicate comment. *)
Lemma genEnum_tables_emits (enum : Enum) :
  let values := eValues enum in
  let goName := GoName (eGoIdent enum) in
  emits (genEnum_nameMap enum) tt
    ([ [PStr "var "; PStr (goName +:+ "_name"); PStr " = map[int32]string{"] ]
       ++ imap (fun i value => nameMapLine (repeatsEarlier values i) value) values
       ++ [ [PStr "}"]; [] ])
  /\ emits (genEnum_valueMap enum) tt
       ([ [PStr "var "; PStr (goName +:+ "_value"); PStr " = map[string]int32{"] ]
          ++ map valueMapLine values
          ++ [ [PStr "}"]; [] ])
  /\ (forall i value, values !! i = Some value ->
        (repeatsEarlier values i = true <->
         exists j earlier, (j < i)%nat /\ values !! j = Some earlier
                           /\ evNumber earlier = evNumber value)).
Proof.
  intros values goName. subst values goName. repeat split.
  - unfold genEnum_nameMap.
    eapply emits_bind; [apply emits_P|].
    eapply emits_bind;
      [apply (genEnum_nameMapEntries_emits [] (eValues enum) ∅); set_solver|].
    change [[PStr "}"]; []] with ([[PStr "}"]] ++ [[]] : list Line).
    eapply emits_bind; apply emits_P.
  - unfold genEnum_valueMap.
    eapply emits_bind; [apply emits_P|].
    eapply emits_bind; [apply emits_forRange_map; intros; apply emits_P|].
    change [[PStr "}"]; []] with ([[PStr "}"]] ++ [[]] : list Line).
    eapply emits_bind; apply emits_P.
  - unfold repeatsEarlier. rewrite H. intros Hin%bool_decide_eq_true.
    apply list_elem_of_fmap in Hin as (earlier & Hn & Hin).
    apply list_elem_of_lookup in Hin as (j & Hj).
    apply lookup_take_Some in Hj as [Hj Hlt]. eauto.
  - unfold repeatsEarlier. rewrite H. intros (j & earlier & Hlt & Hj & Hn).
    apply bool_decide_eq_true. rewrite <- Hn.
    apply list_elem_of_fmap. exists earlier. split; [done|].
    apply list_elem_of_lookup. exists j. by apply lookup_take_Some.
Qed.

End EnumFacts.

Section MessageFacts.
Context `{env : GoEnv} `{oneofs : !OneofEmitters}.

Lemma wfField_fieldHasDefault (field : Field) :
  wfField field = true -> is_Some (fieldHasDefault field).
Proof.
  intros Hwf. rewrite (wfDefault_fieldHasDefault field (wfField_default field Hwf)). eauto.
Qed.

Lemma wfField_fieldDefaultValue (message : Message) (field : Field) :
  wfField field = true -> is_Some (fieldDefaultValue message field).
Proof.
  intros Hwf. unfold fieldDefaultValue. case_decide; [eauto|].
  destruct (wfField_fieldHasDefault field Hwf) as [b ->]. simpl.
  destruct b; [case_decide; eauto|].
  destruct (fdKind (fDesc field)) eqn:Hk; eauto.
  destruct (wfField_enum field Hwf Hk) as (enum & -> & Hwfe).
  destruct (wfEnum_first enum Hwfe) as [first Hfirst]. simpl. rewrite Hfirst. eauto.
Qed.

(** The iteration of the loop over the holders for a float or double field
    whose declared default is -Inf, +Inf or NaN. *)
Lemma genMessage_defaultVar_special_line (message : Message) (field : Field)
    (x : float64) (fn param : string) :
  fdKind (fDesc field) = FloatKind \/ fdKind (fDesc field) = DoubleKind ->
  fdHasDefault (fDesc field) = true ->
  Value_Float (fdDefault (fDesc field)) = Some x ->
  specialFloat x = Some (fn, param) ->
  let holder := "Default_" +:+ GoName (mGoIdent message) +:+ "_" +:+ fGoName field in
  let call := QualifiedGoIdent (mkGoIdent fn "math") +:+ param in
  emits (genMessage_defaultVar message field) tt
    [ if decide (fdKind (fDesc field) = FloatKind)
      then [ PStr "var "; PStr holder; PStr " "; PStr "float32"; PStr " = ";
             PStr ("float32(" +:+ call +:+ ")") ]
      else [ PStr "var "; PStr holder; PStr " "; PStr "float64"; PStr " = ";
             PStr call ] ].
Proof.
  intros Hkind Hdef Hx Hspecial holder call. subst holder call.
  unfold genMessage_defaultVar.
  assert (Hhas : fieldHasDefault field = Some true).
  { unfold fieldHasDefault. rewrite Hdef. by destruct Hkind as [-> | ->]. }
  eapply emits_orPanic_bind; [exact Hhas|]. simpl.
  destruct Hkind as [Hk|Hk]; rewrite Hk; simpl;
    (eapply emits_orPanic_bind; [exact Hx|]);
    destruct x as [| [|] | |]; simpl in Hspecial; try discriminate;
    injection Hspecial as <- <-; apply emits_P.
Qed.

(** The iteration of the loop over the getters for a well-formed field. For
    a field outside a oneof the body tests the receiver against nil before
    it reads the field, and returns the default of the unset field after the
    test; the test is on the receiver alone under proto3 or when that
    default is nil, and otherwise on the receiver and on the field. For a
    member of a oneof the body reaches the receiver only through the
    accessor of the oneof. *)
Lemma genMessage_getter_emits (f : fileInfo) (message : Message) (field : Field) :
  wfField field = true ->
  exists goType pointer defaultValue,
    fieldGoType field = Some (goType, pointer)
    /\ fieldDefaultValue message field = Some defaultValue
    /\ let receiverOnly :=
          bool_decide (fdSyntax (fDesc field) = Proto3) || String.eqb defaultValue "nil" in
        let header : Line :=
          [ PStr "func (m *"; PIdent (mGoIdent message); PStr ") Get";
            PStr (fGoName field); PStr "() "; PStr goType; PStr " {" ] in
        let tail : list Line :=
          [ [ PStr "return "; PStr defaultValue ]; [ PStr "}" ]; [] ] in
        let deprecated : list Line :=
          if fDeprecated field then [ [PStr "// Deprecated: Do not use."] ] else [] in
        match fOneofType field with
        | None =>
            emits (genMessage_getter f message field) tt
              (deprecated
               ++ [ header;
                    (if receiverOnly
                     then [ PStr "if m != nil {" ]
                     else [ PStr "if m != nil && m."; PStr (fGoName field);
                            PStr " != nil {" ]);
                    [ PStr "return "; PStr (if pointer then "*" else ""); PStr " m.";
                      PStr (fGoName field) ];
                    [ PStr "}" ] ]
               ++ tail)
            /\ (pointer = true -> defaultValue <> "nil" -> receiverOnly = false)
        | Some oneof =>
            exists isFirst,
              isFirstOfOneof field oneof = Some isFirst
              /\ emits (genMessage_getter f message field) tt
                   ((if isFirst : bool then genOneofTypes f message oneof else [])
                    ++ deprecated
                    ++ [ header;
                         [ PStr "if x, ok := m.Get"; PStr (orGoName oneof); PStr "().(*";
                           PIdent (fieldOneofType field); PStr "); ok {" ];
                         [ PStr "return x."; PStr (fGoName field) ];
                         [ PStr "}" ] ]
                    ++ tail)
        end.
Proof.
  intros Hwf.
  destruct (wfField_fieldGoType field Hwf) as [[goType pointer] Htype].
  destruct (wfField_fieldDefaultValue message field Hwf) as [defaultValue Hdv].
  exists goType, pointer, defaultValue. split; [done|]. split; [done|].
  cbv zeta.
  assert (Hrest : forall guard : list Line,
    emits (genMessage_getterGuard field pointer defaultValue) tt guard ->
    emits
      (typ ← orPanic (fieldGoType field);
       let goType : string := typ.1 in
       let pointer : bool := typ.2 in
       def ← orPanic (fieldDefaultValue message field);
       let defaultValue : string := def in
       when (fDeprecated field) (g_P(deprecationComment true)) ;;
       g_P("func (m *", mGoIdent message, ") Get", fGoName field, "() ", goType, " {") ;;
       genMessage_getterGuard field pointer defaultValue ;;
       g_P("return ", defaultValue) ;;
       g_P("}") ;;
       g_P []) tt
      ((if fDeprecated field then [ [PStr "// Deprecated: Do not use."] ] else [])
       ++ ([ PStr "func (m *"; PIdent (mGoIdent message); PStr ") Get";
             PStr (fGoName field); PStr "() "; PStr goType; PStr " {" ] :: guard)
       ++ [ [ PStr "return "; PStr defaultValue ]; [ PStr "}" ]; [] ])).
  { intros guard Hguard.
    eapply emits_orPanic_bind; [exact Htype|].
    eapply emits_orPanic_bind; [exact Hdv|]. simpl.
    eapply emits_bind.
    { destruct (fDeprecated field); [apply emits_when_true, emits_P|apply emits_when_false]. }
    eapply (emits_bind _ _ tt tt [_] _); [apply emits_P|].
    eapply emits_bind; [exact Hguard|].
    eapply (emits_bind _ _ tt tt [_] _); [apply emits_P|].
    eapply (emits_bind _ _ tt tt [_] _); apply emits_P. }
  destruct (fOneofType field) as [oneof|] eqn:Honeof.
  - destruct (wfField_oneof field oneof Hwf Honeof) as [first Hfirst].
    exists (bool_decide (fAddr field = first)).
    split; [unfold isFirstOfOneof; by rewrite Hfirst|].
    unfold genMessage_getter. rewrite Honeof.
    eapply emits_bind.
    { eapply emits_orPanic_bind; [unfold isFirstOfOneof; by rewrite Hfirst|].
      destruct (bool_decide (fAddr field = first));
        [apply emits_when_true, emits_emitLines|apply emits_when_false]. }
    apply (Hrest [_; _; _]).
    unfold genMessage_getterGuard. rewrite Honeof.
    eapply (emits_bind _ _ tt tt [_] _); [apply emits_P|].
    eapply (emits_bind _ _ tt tt [_] _); apply emits_P.
  - split.
    + unfold genMessage_getter. rewrite Honeof.
      change (mret tt ≫= ?k) with (k tt).
      apply (Hrest [_; _; _]).
      unfold genMessage_getterGuard. rewrite Honeof.
      eapply (emits_bind _ _ tt tt [_] _).
      * destruct (bool_decide (fdSyntax (fDesc field) = Proto3)
                  || (defaultValue =? "nil")%string); apply emits_P.
      * eapply (emits_bind _ _ tt tt [_] _); apply emits_P.
    + intros -> Hnil.
      assert (Hsyn : fdSyntax (fDesc field) <> Proto3).
      { intros Hp3.
        by pose proof (fieldGoType_pointer_false _ _ _ (or_introl Hp3) Htype). }
      rewrite bool_decide_eq_false_2 by done. simpl.
      by apply String.eqb_neq.
Qed.

End MessageFacts.

Section RegistrationFacts.
Context `{env : GoEnv} `{oneofs : !OneofEmitters}.

Lemma emits_forRange_rel {A} (R : A -> list Line -> Prop) (body : A -> Gen unit)
    (l : list A) :
  (forall x, x ∈ l -> exists ls, R x ls /\ emits (body x) tt ls) ->
  exists lss, Forall2 R l lss /\ emits (forRange l body) tt (concat lss).
Proof.
  induction l as [|x l IH]; intros H.
  - exists []. split; [constructor|apply emits_ret].
  - destruct (H x) as (ls & HR & Hx); [left|].
    destruct IH as (lss & HF & Hl); [intros; apply H; by right|].
    exists (ls :: lss). split; [by constructor|]. simpl. by eapply emits_bind.
Qed.

Lemma emits_forRange_rel1 {A} (R : A -> Line -> Prop) (body : A -> Gen unit)
    (l : list A) :
  (forall x, x ∈ l -> exists line, R x line /\ emits (body x) tt [line]) ->
  exists ls, Forall2 R l ls /\ emits (forRange l body) tt ls.
Proof.
  induction l as [|x l IH]; intros H.
  - exists []. split; [constructor|apply emits_ret].
  - destruct (H x) as (line & HR & Hx); [left|].
    destruct IH as (ls & HF & Hl); [intros; apply H; by right|].
    exists (line :: ls). split; [by constructor|]. simpl.
    by apply (emits_bind _ _ tt tt [line] ls).
Qed.

Lemma emits_forRange_filter {A} (P : A -> bool) (R : A -> list Line -> Prop)
    (body : A -> Gen unit) (l : list A) :
  (forall x, x ∈ l -> P x = false -> emits (body x) tt []) ->
  (forall x, x ∈ l -> P x = true -> exists ls, R x ls /\ emits (body x) tt ls) ->
  exists lss, Forall2 R (filter (fun x => P x = true) l) lss
              /\ emits (forRange l body) tt (concat lss).
Proof.
  induction l as [|x l IH]; intros Hskip Hkeep.
  - exists []. split; [constructor|apply emits_ret].
  - destruct IH as (lss & HF & Hl);
      [intros; apply Hskip; by (done || right)
      |intros; apply Hkeep; by (done || right)|].
    rewrite filter_cons. destruct (P x) eqn:HP.
    + destruct (Hkeep x) as (ls & HR & Hx); [left|done|].
      exists (ls :: lss). rewrite decide_True by done.
      split; [by constructor|]. simpl. by eapply emits_bind.
    + exists lss. rewrite decide_False by done. split; [done|]. simpl.
      apply (emits_bind _ _ tt tt [] (concat lss)); [|done].
      apply Hskip; [left|done].
Qed.

Lemma emits_forRange_silent {A} (body : A -> Gen unit) (l : list A) :
  (forall x, x ∈ l -> emits (body x) tt []) -> emits (forRange l body) tt [].
Proof.
  induction l as [|x l IH]; intros H; simpl.
  - apply emits_ret.
  - apply (emits_bind _ _ tt tt [] []); [apply H; left|apply IH; intros; apply H; by right].
Qed.

Lemma Sorted_weaken {A} (R1 R2 : A -> A -> Prop) (l : list A) :
  (forall x y, R1 x y -> R2 x y) -> Sorted R1 l -> Sorted R2 l.
Proof.
  intros HR. induction 1 as [|x l _ IH Hhd]; constructor; [done|].
  destruct Hhd; constructor; auto.
Qed.

Lemma ltb_false_leb (a b : string) : String.ltb b a = false -> String.leb a b = true.
Proof.
  unfold String.ltb, String.leb. rewrite (String.compare_antisym a b).
  by destruct (String.compare b a).
Qed.

Lemma wfExtension_registration (f : fileInfo) (extension : Extension) :
  wfExtension extension = true ->
  exists lines, extensionRegistration f extension lines
                /\ emits (genRegisterExtension f extension) tt lines.
Proof.
  intros Hwf. apply andb_prop in Hwf. destruct Hwf as [Hwf Hext].
  destruct (fExtendedType extension) as [extended|] eqn:He; [|discriminate].
  assert (His : exists b, isExtensionMessageSetElement extension = Some b).
  { unfold isExtensionMessageSetElement. rewrite He.
    destruct (fParentMessage extension); simpl; eauto. }
  destruct His as [isElement His].
  destruct (wfField_fieldGoType extension Hwf) as [[goType pointer] Htype].
  unfold genRegisterExtension, extensionRegistration.
  destruct isElement.
  - eexists. split.
    + exists true. split; [done|]. exists goType, pointer. split; [done|]. reflexivity.
    + eapply (emits_bind _ _ tt tt [_] [_]); [apply emits_P|].
      eapply emits_orPanic_bind; [exact His|]. apply emits_when_true.
      eapply emits_orPanic_bind; [exact Htype|]. simpl. apply emits_P.
  - eexists. split.
    + exists false. split; [done|]. reflexivity.
    + eapply (emits_bind _ _ tt tt [_] []); [apply emits_P|].
      eapply emits_orPanic_bind; [exact His|]. apply emits_when_false.
Qed.

Lemma wfField_mapTypeRegistration (field : Field) :
  wfField field = true -> fdIsMap (fDesc field) = true ->
  exists line, mapTypeRegistration field line
    /\ emits (mt ← orPanic (fMessageType field);
              let typeName := mrFullName mt in
              '(goType, _) ← orPanic (fieldGoType field);
              g_P(protoIdent "RegisterMapType",
                  "((" +:+ goType +:+ ")(nil), " +:+ strconv_Quote typeName +:+ ")")) tt [line].
Proof.
  intros Hwf Hmap.
  destruct (wfField_map field Hwf Hmap) as (_ & mt & _ & _ & Hmt & _).
  destruct (wfField_fieldGoType field Hwf) as [[goType pointer] Htype].
  eexists. split.
  - exists mt, goType, pointer. split; [done|]. split; [done|]. reflexivity.
  - eapply emits_orPanic_bind; [exact Hmt|]. simpl.
    eapply emits_orPanic_bind; [exact Htype|]. simpl. apply emits_P.
Qed.

Lemma genInitFunction_mapTypes_emits (message : Message) :
  forallb wfField (mFields message) = true ->
  sortsBy mapFieldLess (sort_Slice mapFieldLess) ->
  exists sortedFields mapLines,
    sortedFields ≡ₚ filter (fun field => fdIsMap (fDesc field) = true) (mFields message)
    /\ Sorted (fun x y => String.leb (mapFieldName x) (mapFieldName y) = true) sortedFields
    /\ Forall2 mapTypeRegistration sortedFields mapLines
    /\ emits (genInitFunction_mapTypes message) tt mapLines.
Proof.
  intros Hwf Hsort. unfold genInitFunction_mapTypes.
  set (mapFields := filter (fun field => fdIsMap (fDesc field) = true) (mFields message)).
  destruct (Hsort mapFields) as [Hperm Hsorted].
  assert (Hin : forall field, field ∈ mapFields ->
                  wfField field = true /\ fdIsMap (fDesc field) = true).
  { intros field [Hmap Hfield]%list_elem_of_filter. split; [|done].
    rewrite forallb_forall in Hwf. apply Hwf. by apply list_elem_of_In. }
  destruct (emits_forRange_rel1 mapTypeRegistration
              (fun field =>
                 mt ← orPanic (fMessageType field);
                 let typeName := mrFullName mt in
                 '(goType, _) ← orPanic (fieldGoType field);
                 g_P(protoIdent "RegisterMapType",
                     "((" +:+ goType +:+ ")(nil), " +:+ strconv_Quote typeName +:+ ")"))
              (sort_Slice mapFieldLess mapFields)) as (mapLines & HF & Hemit).
  { intros field Hfield. rewrite Hperm in Hfield.
    destruct (Hin field Hfield). by apply wfField_mapTypeRegistration. }
  exists (sort_Slice mapFieldLess mapFields), mapLines.
  split; [done|]. split.
  { eapply Sorted_weaken; [|exact Hsorted]. intros x y. apply ltb_false_leb. }
  split; [done|].
  apply (emits_bind _ _ tt tt [] mapLines); [|done].
  apply emits_forRange_silent. intros field Hfield.
  destruct (Hin field Hfield) as [Hwff Hmap].
  destruct (wfField_map field Hwff Hmap) as (_ & mt & _ & _ & Hmt & _).
  eapply emits_orPanic_bind; [exact Hmt|]. apply emits_ret.
Qed.

Lemma genInitFunction_message_emits (f : fileInfo) (message : Message) :
  mIsMapEntry message = false ->
  forallb wfField (mFields message) = true ->
  forallb wfExtension (mExtensions message) = true ->
  sortsBy mapFieldLess (sort_Slice mapFieldLess) ->
  exists lines, messageRegistration f message lines
                /\ emits (genInitFunction_message f message) tt lines.
Proof.
  intros Hentry Hfields Hexts Hsort.
  destruct (emits_forRange_rel (extensionRegistration f) (genRegisterExtension f)
              (mExtensions message)) as (extensionLines & HFext & Hext).
  { intros extension Hin. apply wfExtension_registration.
    rewrite forallb_forall in Hexts. apply Hexts. by apply list_elem_of_In. }
  destruct (genInitFunction_mapTypes_emits message Hfields Hsort)
    as (sortedFields & mapLines & Hperm & Hsorted & HFmap & Hmap).
  eexists. split.
  - exists extensionLines, sortedFields, mapLines. repeat (split; [done|]). reflexivity.
  - unfold genInitFunction_message. rewrite Hentry.
    eapply emits_bind; [exact Hext|].
    eapply (emits_bind _ _ tt tt [_] _); [apply emits_P|]. exact Hmap.
Qed.

(** The init function of a file information with some entity. *)
Lemma genInitFunction_emits (f : fileInfo) :
  wfFileInfo f = true ->
  sortsBy mapFieldLess (sort_Slice mapFieldLess) ->
  allMessages f <> [] \/ allEnums f <> [] \/ allExtensions f <> [] ->
  exists (enumLines : list Line) (messageLines extensionLines : list (list Line)),
    Forall2 enumRegistration (allEnums f) enumLines
    /\ Forall2 (messageRegistration f)
         (filter (fun m => negb (mIsMapEntry m) = true) (allMessages f)) messageLines
    /\ Forall2 (extensionRegistration f) (fileExtensions (fiFile f)) extensionLines
    /\ emits (genInitFunction f) tt
         ([ [PStr "func init() {"] ]
          ++ enumLines ++ concat messageLines ++ concat extensionLines
          ++ [ [PStr "}"]; [] ]).
Proof.
  intros Hwf Hsort Hsome.
  apply andb_prop in Hwf. destruct Hwf as [Hwf Hexts].
  apply andb_prop in Hwf. destruct Hwf as [Henums Hmsgs].
  rewrite forallb_forall in Henums, Hmsgs, Hexts.
  destruct (emits_forRange_rel1 enumRegistration
              (fun enum =>
                 let name := GoName (eGoIdent enum) in
                 reg ← orPanic (enumRegistryName enum);
                 g_P(protoIdent "RegisterEnum",
                     "(" +:+ strconv_Quote reg +:+ ", " +:+ name +:+ "_name, "
                     +:+ name +:+ "_value)"))
              (allEnums f)) as (enumLines & HFenum & Henum).
  { intros enum Hin.
    destruct (wfEnum_registryName enum) as [reg Hreg];
      [apply Henums; by apply list_elem_of_In|].
    eexists. split; [exists reg; split; [done|reflexivity]|].
    eapply emits_orPanic_bind; [exact Hreg|]. apply emits_P. }
  destruct (emits_forRange_filter (fun m => negb (mIsMapEntry m)) (messageRegistration f)
              (genInitFunction_message f) (allMessages f))
    as (messageLines & HFmsg & Hmsg).
  { intros m _ Hm. unfold genInitFunction_message.
    destruct (mIsMapEntry m); [apply emits_ret|done]. }
  { intros m Hin Hm.
    specialize (Hmsgs m (proj1 (list_elem_of_In _ _) Hin)).
    apply andb_prop in Hmsgs. destruct Hmsgs.
    apply genInitFunction_message_emits; try done. by destruct (mIsMapEntry m). }
  destruct (emits_forRange_rel (extensionRegistration f) (genRegisterExtension f)
              (fileExtensions (fiFile f))) as (extensionLines & HFext & Hext).
  { intros extension Hin. apply wfExtension_registration.
    apply Hexts. by apply list_elem_of_In. }
  exists enumLines, messageLines, extensionLines.
  repeat (split; [done|]).
  unfold genInitFunction.
  assert (Hcond : bool_decide (length (allMessages f) = 0%nat)
                  && bool_decide (length (allEnums f) = 0%nat)
                  && bool_decide (length (allExtensions f) = 0%nat) = false).
  { destruct (allMessages f), (allEnums f), (allExtensions f); simpl; try done.
    by destruct Hsome as [?|[?|?]]. }
  rewrite Hcond.
  eapply (emits_bind _ _ tt tt [_] _); [apply emits_P|].
  eapply emits_bind; [exact Henum|].
  eapply emits_bind; [exact Hmsg|].
  eapply emits_bind; [exact Hext|].
  eapply (emits_bind _ _ tt tt [_] [_]); apply emits_P.
Qed.

(** *** The flat lists of a file *)

Lemma Message_nested_ind (P : Message -> Prop) :
  (forall m, Forall P (mMessages m) -> P m) -> forall m, P m.
Proof.
  intros H. fix IH 1. intros m. apply H.
  destruct m as [ident name fullName entry ranges depr wire path fields oo enums exts ms].
  simpl. revert ms.
  refine (fix all (ms : list Message) : Forall P ms :=
            match ms with
            | [] => @List.Forall_nil _ P
            | m' :: rest => @List.Forall_cons _ P m' rest (IH m') (all rest)
            end).
Qed.

Lemma walkMessage_unfold {S} (f : Message -> S -> option S) (m : Message) (s : S) :
  walkMessage f m s
  = match f m s with
    | Some s1 => walkMessages (mMessages m) f s1
    | None => None
    end.
Proof.
  destruct m as [ident name fullName entry ranges depr wire path fields oo enums exts ms].
  simpl. destruct (f _ s) as [s1|]; [|done].
  revert s1. induction ms as [|m' rest IH]; intros s1; simpl; [done|].
  destruct (walkMessage f m' s1); [apply IH|done].
Qed.

Lemma messageTree_unfold (m : Message) :
  messageTree m = m :: descendants (mMessages m).
Proof.
  destruct m as [ident name fullName entry ranges depr wire path fields oo enums exts ms].
  simpl; f_equal; try done;
    induction ms as [|m' rest IH]; simpl; try done; by rewrite IH.
Qed.

Lemma wfMessage_unfold (m : Message) :
  wfMessage m
  = forallb wfField (mFields m) && forallb wfEnum (mEnums m)
    && forallb wfExtension (mExtensions m) && forallb wfMessage (mMessages m).
Proof.
  destruct m as [ident name fullName entry ranges depr wire path fields oo enums exts ms].
  simpl; f_equal; try done;
    induction ms as [|m' rest IH]; simpl; try done; by rewrite IH.
Qed.

Lemma walkMessages_collect_from (messages : list Message) (l : flatLists) :
  Forall (fun m => forall l,
            walkMessage collectMessage m l = Some (collected l (messageTree m))) messages ->
  walkMessages messages collectMessage l = Some (collected l (descendants messages)).
Proof.
  intros H. revert l. induction H as [|m rest Hm _ IH]; intros l; simpl.
  - destruct l. unfold collected. simpl. by rewrite !app_nil_r.
  - rewrite Hm, IH. unfold collected, descendants. simpl.
    by rewrite !flat_map_app, !app_assoc.
Qed.

Lemma walkMessage_collect (m : Message) (l : flatLists) :
  walkMessage collectMessage m l = Some (collected l (messageTree m)).
Proof.
  revert l. induction m as [m IH] using Message_nested_ind. intros l.
  rewrite walkMessage_unfold, messageTree_unfold. simpl.
  rewrite (walkMessages_collect_from _ _ IH). unfold collected. simpl.
  by rewrite <- !app_assoc.
Qed.

Lemma walkMessages_collect (messages : list Message) (l : flatLists) :
  walkMessages messages collectMessage l = Some (collected l (descendants messages)).
Proof.
  apply walkMessages_collect_from, Forall_forall. intros m _. apply walkMessage_collect.
Qed.

(** The file information GenerateFile builds: it is always built, and its
    flat lists are the enums of the file and then of the messages, the
    messages depth first, and the extensions of the messages and then of
    the file. *)
Lemma newFileInfo_lists (file : File) :
  exists f, newFileInfo file = Some f
    /\ fiFile f = file
    /\ allEnums f = fileEnums file ++ flat_map mEnums (descendants (fileMessages file))
    /\ allMessages f = descendants (fileMessages file)
    /\ allExtensions f
        = flat_map mExtensions (descendants (fileMessages file)) ++ fileExtensions file.
Proof.
  unfold newFileInfo. rewrite walkMessages_collect. simpl. eexists. split; [done|]. done.
Qed.

Lemma wfMessage_tree (m : Message) :
  wfMessage m = true ->
  Forall (fun m' => forallb wfField (mFields m') = true
                    /\ forallb wfEnum (mEnums m') = true
                    /\ forallb wfExtension (mExtensions m') = true) (messageTree m).
Proof.
  induction m as [m IH] using Message_nested_ind. rewrite wfMessage_unfold, messageTree_unfold.
  intros H. apply andb_prop in H. destruct H as [H Hms].
  apply andb_prop in H. destruct H as [H Hexts].
  apply andb_prop in H. destruct H as [Hfields Henums].
  constructor; [done|]. unfold descendants.
  rewrite forallb_forall in Hms. rewrite Forall_forall in IH.
  apply Forall_forall. intros m' Hin. apply list_elem_of_In, in_flat_map in Hin.
  destruct Hin as (c & Hc & Hin).
  specialize (IH c (proj2 (list_elem_of_In _ _) Hc) (Hms c Hc)).
  rewrite Forall_forall in IH. apply IH. by apply list_elem_of_In.
Qed.

Lemma wfFile_descendants (file : File) :
  wfFile file = true ->
  Forall (fun m' => forallb wfField (mFields m') = true
                    /\ forallb wfEnum (mEnums m') = true
                    /\ forallb wfExtension (mExtensions m') = true)
         (descendants (fileMessages file)).
Proof.
  unfold wfFile. intros H. apply andb_prop in H. destruct H as [H _].
  apply andb_prop in H. destruct H as [H _]. rewrite forallb_forall in H.
  apply Forall_forall. intros m' Hin. apply list_elem_of_In, in_flat_map in Hin.
  destruct Hin as (c & Hc & Hin).
  pose proof (wfMessage_tree c (H c Hc)) as Htree.
  rewrite Forall_forall in Htree. apply Htree. by apply list_elem_of_In.
Qed.

Lemma wfFile_wfFileInfo (file : File) (f : fileInfo) :
  wfFile file = true -> newFileInfo file = Some f -> wfFileInfo f = true.
Proof.
  intros Hwf Hf. destruct (newFileInfo_lists file) as (f' & Hf' & Hfile & He & Hm & _).
  rewrite Hf in Hf'. injection Hf' as <-.
  pose proof (wfFile_descendants file Hwf) as Hd. rewrite Forall_forall in Hd.
  unfold wfFile in Hwf. apply andb_prop in Hwf. destruct Hwf as [Hwf Hexts].
  apply andb_prop in Hwf. destruct Hwf as [_ Henums].
  unfold wfFileInfo. rewrite He, Hm, Hfile, Hexts, andb_true_r.
  apply andb_true_intro. split.
  - rewrite forallb_app, Henums. simpl. apply forallb_forall. intros enum Hin.
    apply in_flat_map in Hin. destruct Hin as (m & Hm' & Hin).
    destruct (Hd m (proj2 (list_elem_of_In _ _) Hm')) as (_ & Hen & _).
    rewrite forallb_forall in Hen. by apply Hen.
  - apply forallb_forall. intros m Hin.
    destruct (Hd m (proj2 (list_elem_of_In _ _) Hin)) as (Hf1 & _ & Hx).
    by rewrite Hf1, Hx.
Qed.


End RegistrationFacts.

Section RegistrationWitnesses.
Import Demo.

#[local] Instance mapFieldLess_total :
  Total (fun x y : Field => mapFieldLess y x = false).
Proof.
  intros x y. unfold mapFieldLess, String.ltb.
  rewrite (String.compare_antisym (mapFieldName x) (mapFieldName y)).
  destruct (String.compare (mapFieldName y) (mapFieldName x)); simpl; auto.
Defined.

Lemma merge_sort_sortsBy : sortsBy mapFieldLess (sort_Slice mapFieldLess).
Proof.
  intros l. split.
  - apply merge_sort_Permutation.
  - apply (Sorted_merge_sort (fun x y : Field => mapFieldLess y x = false)).
Defined.


End RegistrationWitnesses.

Section TotalityFacts.
Context `{env : GoEnv} `{oneofs : !OneofEmitters}.

Ltac quiet_step :=
  lazymatch goal with
  | |- quiet (mret _) => apply quiet_ret
  | |- quiet (g_P _) => apply quiet_P
  | |- quiet (emitLines _) => apply quiet_emitLines
  | |- quiet (when _ _) => apply quiet_when
  | |- quiet (orPanic _ ≫= _) => eapply quiet_orPanic_bind; [eassumption|]
  | |- quiet (_ ≫= _) => apply quiet_bind; [|intros ?]
  | |- quiet (forRange _ _) => apply quiet_forRange; intros ? ?
  | |- quiet (if ?b then _ else _) => destruct b
  | |- quiet (match ?o with Some _ => _ | None => _ end) => destruct o
  | |- quiet (let '(_, _) := ?p in _) => destruct p
  end.

Ltac quiet_auto := repeat (quiet_step; simpl).

Lemma quiet_genComment (f : fileInfo) (path : list Z) : quiet (genComment f path).
Proof. unfold genComment. quiet_auto. Qed.

Lemma quiet_genWellKnownType ptr ident fullName name :
  quiet (genWellKnownType ptr ident fullName name).
Proof. unfold genWellKnownType. quiet_auto. Qed.

Lemma quiet_genEnum_nameMapEntries values generated :
  quiet (genEnum_nameMapEntries values generated).
Proof.
  revert generated. induction values as [|value rest IH]; intros generated; simpl.
  - apply quiet_ret.
  - apply quiet_bind; [apply quiet_P|intros _; apply IH].
Qed.

Lemma quiet_genEnum (f : fileInfo) (enum : Enum) : quiet (genEnum f enum).
Proof.
  unfold genEnum, genEnum_nameMap, genEnum_valueMap. cbv zeta.
  repeat lazymatch goal with
    | |- quiet (genComment _ _) => apply quiet_genComment
    | |- quiet (genWellKnownType _ _ _ _) => apply quiet_genWellKnownType
    | |- quiet (genEnum_nameMapEntries _ _) => apply quiet_genEnum_nameMapEntries
    | |- _ => quiet_step
    end.
Qed.

Lemma wfField_fieldProtobufTag (field : Field) :
  wfField field = true -> is_Some (fieldProtobufTag field).
Proof.
  intros Hwf. unfold fieldProtobufTag.
  assert (Hname : is_Some (if decide (fdKind (fDesc field) = GroupKind)
                           then mt ← fMessageType field; Some (mrName mt)
                           else Some (fdName (fDesc field)))).
  { case_decide as Hk; [|eauto].
    destruct (wfField_message field Hwf) as [mt ->]; [by rewrite Hk|]. simpl. eauto. }
  destruct Hname as [name ->]. simpl.
  destruct (decide (fdKind (fDesc field) = EnumKind)) as [Hk|Hk].
  - destruct (wfField_enum field Hwf Hk) as (enum & -> & Hwfe).
    destruct (wfEnum_registryName enum Hwfe) as [reg Hreg]. simpl.
    rewrite Hreg. simpl.
    destruct (fdHasDefault (fDesc field)) eqn:Hd; [|eauto].
    destruct (wfDefault_tagDefault _ _ (wfField_default field Hwf) Hd) as [d ->].
    simpl. eauto.
  - destruct (fdHasDefault (fDesc field)) eqn:Hd; [|eauto].
    destruct (wfDefault_tagDefault _ _ (wfField_default field Hwf) Hd) as [d ->].
    simpl. eauto.
Qed.

Lemma ByNumber_Index_lookup (values : list EnumValue) (n : Z) :
  n ∈ map evNumber values ->
  exists index value, ByNumber_Index values n = Some index /\ values !! index = Some value.
Proof.
  induction values as [|v rest IH]; simpl.
  - by intros ?%elem_of_nil.
  - intros Hin. case_decide as Hn; [by exists 0%nat, v|].
    apply elem_of_cons in Hin as [Hin|Hin]; [done|].
    destruct (IH Hin) as (index & value & -> & Hv). by exists (S index), value.
Qed.

Lemma quiet_genMessage_structField (f : fileInfo) (message : Message) (field : Field) :
  wfField field = true -> quiet (genMessage_structField f message field).
Proof.
  intros Hwf. unfold genMessage_structField.
  destruct (fOneofType field) as [oneof|] eqn:Honeof.
  - destruct (wfField_oneof field oneof Hwf Honeof) as [first Hfirst].
    assert (isFirstOfOneof field oneof = Some (bool_decide (fAddr field = first)))
      by (unfold isFirstOfOneof; by rewrite Hfirst).
    quiet_auto.
  - destruct (wfField_fieldGoType field Hwf) as [[goType pointer] Htype].
    destruct (wfField_fieldProtobufTag field Hwf) as [tag Htag].
    apply quiet_bind; [apply quiet_genComment|intros _].
    eapply quiet_orPanic_bind; [exact Htype|]. simpl.
    eapply quiet_orPanic_bind; [exact Htag|]. simpl.
    apply quiet_bind; [|intros ?; apply quiet_P].
    destruct (fdIsMap (fDesc field)) eqn:Hmap; [|apply quiet_ret].
    destruct (wfField_map field Hwf Hmap) as (_ & mt & key & val & Hmt & Hkey & Hval & Hk & Hv).
    destruct (wfField_fieldProtobufTag key Hk) as [keyTag HkeyTag].
    destruct (wfField_fieldProtobufTag val Hv) as [valTag HvalTag].
    quiet_auto.
Qed.

Lemma quiet_genMessage_defaultVar (message : Message) (field : Field) :
  wfField field = true -> quiet (genMessage_defaultVar message field).
Proof.
  intros Hwf. unfold genMessage_defaultVar.
  destruct (wfField_fieldHasDefault field Hwf) as [hasDefault Hhas].
  eapply quiet_orPanic_bind; [exact Hhas|].
  destruct hasDefault; simpl; [|apply quiet_ret].
  assert (Hdef : fdHasDefault (fDesc field) = true).
  { unfold fieldHasDefault in Hhas. by destruct (fdHasDefault (fDesc field)). }
  pose proof (wfField_default field Hwf) as Hwfd. unfold wfDefault in Hwfd.
  rewrite Hdef in Hwfd. simpl in Hwfd.
  destruct (wfField_fieldGoType field Hwf) as [[goType pointer] Htype].
  destruct (fdKind (fDesc field)) eqn:Hk;
    try (eapply quiet_orPanic_bind; [exact Htype|]; simpl; apply quiet_P).
  - (* enum *)
    destruct (fdDefault (fDesc field)) as [| | | | | | | | | |n]; try discriminate.
    destruct (wfField_enum field Hwf Hk) as (enum & He & Hwfe).
    rewrite He in Hwfd. apply bool_decide_eq_true in Hwfd.
    destruct (ByNumber_Index_lookup _ _ Hwfd) as (index & value & Hindex & Hvalue).
    eapply quiet_orPanic_bind; [exact He|].
    eapply quiet_orPanic_bind; [reflexivity|].
    eapply quiet_orPanic_bind; [exact Hindex|].
    eapply quiet_orPanic_bind; [exact Hvalue|]. apply quiet_P.
  - (* float *)
    destruct (fdDefault (fDesc field)) as [| | | | | |x| | | |]; try discriminate.
    eapply quiet_orPanic_bind; [reflexivity|]. simpl. quiet_auto.
  - (* double *)
    destruct (fdDefault (fDesc field)) as [| | | | | | |x| | |]; try discriminate.
    eapply quiet_orPanic_bind; [reflexivity|]. simpl. quiet_auto.
  - (* string *) apply quiet_P.
  - (* bytes *)
    destruct (fdDefault (fDesc field)) as [| | | | | | | | |b|]; try discriminate.
    eapply quiet_orPanic_bind; [reflexivity|]. apply quiet_P.
Qed.

Lemma quiet_genMessage_getter (f : fileInfo) (message : Message) (field : Field) :
  wfField field = true -> quiet (genMessage_getter f message field).
Proof.
  intros Hwf. unfold genMessage_getter, genMessage_getterGuard.
  destruct (wfField_fieldGoType field Hwf) as [[goType pointer] Htype].
  destruct (wfField_fieldDefaultValue message field Hwf) as [defaultValue Hdv].
  destruct (fOneofType field) as [oneof|] eqn:Honeof.
  - destruct (wfField_oneof field oneof Hwf Honeof) as [first Hfirst].
    assert (isFirstOfOneof field oneof = Some (bool_decide (fAddr field = first)))
      by (unfold isFirstOfOneof; by rewrite Hfirst).
    apply quiet_bind; [quiet_auto|intros _].
    eapply quiet_orPanic_bind; [exact Htype|].
    eapply quiet_orPanic_bind; [exact Hdv|]. simpl. quiet_auto.
  - apply quiet_bind; [apply quiet_ret|intros _].
    eapply quiet_orPanic_bind; [exact Htype|].
    eapply quiet_orPanic_bind; [exact Hdv|]. simpl. quiet_auto.
Qed.

Lemma wfExtension_isElement (extension : Extension) :
  wfExtension extension = true ->
  exists extended isElement,
    fExtendedType extension = Some extended
    /\ isExtensionMessageSetElement extension = Some isElement.
Proof.
  intros Hwf. apply andb_prop in Hwf. destruct Hwf as [_ Hext].
  unfold isExtensionMessageSetElement.
  destruct (fExtendedType extension) as [extended|]; [|discriminate].
  destruct (fParentMessage extension); simpl; eauto.
Qed.

Lemma quiet_genExtension (f : fileInfo) (extension : Extension) :
  wfExtension extension = true -> quiet (genExtension f extension).
Proof.
  intros Hwf. destruct (wfExtension_isElement extension Hwf) as (extended & isElement & He & His).
  apply andb_prop in Hwf. destruct Hwf as [Hwf _].
  destruct (wfField_fieldGoType extension Hwf) as [[goType pointer] Htype].
  destruct (wfField_fieldProtobufTag extension Hwf) as [tag Htag].
  unfold genExtension.
  eapply quiet_orPanic_bind; [exact His|]. simpl.
  apply quiet_bind; [apply quiet_P|intros _].
  eapply quiet_orPanic_bind; [exact He|].
  apply quiet_bind; [apply quiet_P|intros _].
  eapply quiet_orPanic_bind; [exact Htype|]. simpl. quiet_auto.
Qed.

Lemma quiet_genMessage (f : fileInfo) (message : Message) :
  forallb wfField (mFields message) = true ->
  forallb wfExtension (mExtensions message) = true ->
  quiet (genMessage f message).
Proof.
  intros Hfields Hexts. rewrite forallb_forall in Hfields, Hexts.
  assert (Hfield : forall field, field ∈ mFields message -> wfField field = true)
    by (intros field Hin; by apply Hfields, list_elem_of_In).
  assert (Hext : forall x, x ∈ mExtensions message -> wfExtension x = true)
    by (intros x Hin; by apply Hexts, list_elem_of_In).
  clear Hfields Hexts.
  unfold genMessage. destruct (mIsMapEntry message); [apply quiet_ret|].
  cbv zeta.
  repeat lazymatch goal with
    | |- quiet (genComment _ _) => apply quiet_genComment
    | |- quiet (genWellKnownType _ _ _ _) => apply quiet_genWellKnownType
    | |- quiet (forRange _ (genMessage_structField _ _)) =>
        apply quiet_forRange; intros field Hin;
        apply quiet_genMessage_structField, Hfield, Hin
    | |- quiet (forRange _ (genMessage_defaultVar _)) =>
        apply quiet_forRange; intros field Hin;
        apply quiet_genMessage_defaultVar, Hfield, Hin
    | |- quiet (forRange _ (genMessage_getter _ _)) =>
        apply quiet_forRange; intros field Hin;
        apply quiet_genMessage_getter, Hfield, Hin
    | |- quiet (forRange _ (genExtension _)) =>
        apply quiet_forRange; intros extension Hin;
        apply quiet_genExtension, Hext, Hin
    | |- _ => quiet_step
    end.
Qed.

Lemma quiet_genInitFunction (f : fileInfo) :
  wfFileInfo f = true ->
  sortsBy mapFieldLess (sort_Slice mapFieldLess) ->
  quiet (genInitFunction f).
Proof.
  intros Hwf Hsort.
  destruct (decide (allMessages f <> [] \/ allEnums f <> [] \/ allExtensions f <> []))
    as [Hsome|Hnone].
  - destruct (genInitFunction_emits f Hwf Hsort Hsome) as (? & ? & ? & _ & _ & _ & H).
    by eapply emits_quiet.
  - unfold genInitFunction.
    destruct (allMessages f), (allEnums f), (allExtensions f); simpl;
      try apply quiet_ret; exfalso; apply Hnone; auto.
Qed.

Lemma quiet_g_Import (path : string) : quiet (g_Import path).
Proof. intros st. exists tt, (mkGenState (gBuf st) ({[path]} ∪ gImports st) (genErrors st)), [].
  simpl. by rewrite app_nil_r. Qed.

(** walkMessages with a function that only prints. *)
Lemma walkMessages_prints {S} (proj : S -> GenState) (F : Message -> S -> option S) :
  (forall m s, exists s' ls,
      F m s = Some s' /\ genErrors (proj s') = genErrors (proj s)
      /\ gBuf (proj s') = gBuf (proj s) ++ ls) ->
  forall messages s, exists s' ls,
    walkMessages messages F s = Some s' /\ genErrors (proj s') = genErrors (proj s)
    /\ gBuf (proj s') = gBuf (proj s) ++ ls.
Proof.
  intros HF.
  assert (Hlist : forall messages,
    Forall (fun m => forall s, exists s' ls,
              walkMessage F m s = Some s' /\ genErrors (proj s') = genErrors (proj s)
              /\ gBuf (proj s') = gBuf (proj s) ++ ls) messages ->
    forall s, exists s' ls,
      walkMessages messages F s = Some s' /\ genErrors (proj s') = genErrors (proj s)
      /\ gBuf (proj s') = gBuf (proj s) ++ ls).
  { induction 1 as [|m rest Hm _ IH]; intros s; simpl.
    - exists s, []. by rewrite app_nil_r.
    - destruct (Hm s) as (s1 & l1 & -> & He1 & Hb1).
      destruct (IH s1) as (s2 & l2 & -> & He2 & Hb2).
      exists s2, (l1 ++ l2). split; [done|]. split; [congruence|].
      by rewrite Hb2, Hb1, app_assoc. }
  assert (Hone : forall m s, exists s' ls,
            walkMessage F m s = Some s' /\ genErrors (proj s') = genErrors (proj s)
            /\ gBuf (proj s') = gBuf (proj s) ++ ls).
  { induction m as [m IH] using Message_nested_ind. intros s.
    rewrite walkMessage_unfold. destruct (HF m s) as (s1 & l1 & -> & He1 & Hb1).
    destruct (Hlist _ IH s1) as (s2 & l2 & -> & He2 & Hb2).
    exists s2, (l1 ++ l2). split; [done|]. split; [congruence|].
    by rewrite Hb2, Hb1, app_assoc. }
  intros messages. apply Hlist, Forall_forall. intros m _. apply Hone.
Qed.

Lemma quiet_genImport (gen : Plugin) (f : fileInfo) (imp : FileImport) :
  quiet (genImport gen f imp).
Proof.
  unfold genImport. destruct (filesByName gen !! impPath imp) as [impFile|];
    [|apply quiet_ret].
  destruct (String.eqb _ _); [apply quiet_ret|].
  apply quiet_bind; [apply quiet_g_Import|intros _].
  destruct (negb (impIsPublic imp)); [apply quiet_ret|]. cbv zeta.
  apply quiet_bind.
  - intros st.
    destruct (walkMessages_prints snd (genImport_message imp)) with
      (messages := fileMessages impFile) (s := ([] ++ fileEnums impFile, st))
      as ([enums st'] & ls & Hwalk & He & Hb).
    + intros m [enums0 st0]. unfold genImport_message. simpl.
      match goal with
      | |- context [?body st0] =>
          assert (Hq : quiet body) by quiet_auto;
          destruct (Hq st0) as ([] & st1 & ls1 & -> & ? & ?)
      end.
      by exists (enums0 ++ mEnums m, st1), ls1.
    + exists enums, st', ls. by rewrite Hwalk.
  - intros enums. quiet_auto.
Qed.

(** How [runsInto] composes along a sequence of steps. *)
Lemma runsInto_refl {A} (last : Gen A) : runsInto last last.
Proof. intros st. exists st, []. by rewrite app_nil_r. Qed.

Lemma runsInto_bind {A B} (m : Gen A) (k : A -> Gen B) (last : Gen B) :
  quiet m -> (forall a, runsInto (k a) last) -> runsInto (m ≫= k) last.
Proof.
  intros Hm Hk st. destruct (Hm st) as (a & st1 & l1 & E1 & He1 & Hb1).
  destruct (Hk a st1) as (st2 & l2 & He2 & Hb2 & E2).
  exists st2, (l1 ++ l2). split; [congruence|]. split; [by rewrite Hb2, Hb1, app_assoc|].
  unfold mbind, Gen_bind. by rewrite E1.
Qed.

Lemma runsInto_orPanic_bind {A B} (o : option A) (k : A -> Gen B) (last : Gen B) a :
  o = Some a -> runsInto (k a) last -> runsInto (orPanic o ≫= k) last.
Proof. intros -> Hk st. apply Hk. Qed.

Lemma genFileDescriptor_result (f : fileInfo) (st : GenState) :
  genFileDescriptor f st
  = match proto_Marshal (dropSourceCodeInfo (fileProto (fiFile f))) with
    | inr err => Some (tt, mkGenState (gBuf st) (gImports st) (genErrors st ++ [err]))
    | inl b => Some (tt, addLines st (descriptorBlock f (gzip_BestCompression b)))
    end.
Proof.
  unfold genFileDescriptor. destruct (proto_Marshal _) as [b|err]; [|done].
  cbv zeta. unfold descriptorBlock.
  apply (emits_bind _ _ tt tt [_] _); [apply emits_P|].
  apply (emits_bind _ _ tt tt [_] _); [apply emits_P|].
  apply (emits_bind _ _ tt tt [_] _); [apply emits_P|].
  apply (emits_bind _ _ tt tt [_] _); [apply emits_P|].
  apply (emits_bind _ _ tt tt _ _);
    [apply (emits_forRange_map _ (fun chunk =>
       [ PStr (fold_left (fun s c => s +:+ "0x" +:+ hex02x c +:+ ",") chunk "") ]));
     intros; apply emits_P|].
  apply (emits_bind _ _ tt tt [_] [_]); apply emits_P.
Qed.

Lemma GenerateFile_runsInto (gen : Plugin) (file : File) (f : fileInfo) :
  newFileInfo file = Some f ->
  wfFile file = true ->
  sortsBy mapFieldLess (sort_Slice mapFieldLess) ->
  runsInto (GenerateFile gen file) (genFileDescriptor f).
Proof.
  intros Hf Hwf Hsort.
  pose proof (wfFile_wfFileInfo file f Hwf Hf) as Hwfi.
  assert (Hwfi' := Hwfi). unfold wfFileInfo in Hwfi'.
  apply andb_prop in Hwfi'. destruct Hwfi' as [Hwfi' Hexts].
  apply andb_prop in Hwfi'. destruct Hwfi' as [_ Hmsgs].
  rewrite forallb_forall in Hmsgs, Hexts.
  assert (Hfile : fiFile f = file).
  { destruct (newFileInfo_lists file) as (f' & Hf' & Hfile & _). congruence. }
  rewrite Hfile in Hexts.
  unfold GenerateFile.
  eapply runsInto_orPanic_bind; [exact Hf|].
  cbv zeta.
  repeat lazymatch goal with
    | |- runsInto (genInitFunction _ ≫= _) _ =>
        apply runsInto_bind; [by apply quiet_genInitFunction|intros _]
    | |- runsInto (genComment _ _ ≫= _) _ =>
        apply runsInto_bind; [apply quiet_genComment|intros _]
    | |- runsInto (forRange _ (genImport _ _) ≫= _) _ =>
        apply runsInto_bind;
        [apply quiet_forRange; intros; apply quiet_genImport|intros _]
    | |- runsInto (forRange _ (genEnum _) ≫= _) _ =>
        apply runsInto_bind;
        [apply quiet_forRange; intros; apply quiet_genEnum|intros _]
    | |- runsInto (forRange _ (genMessage _) ≫= _) _ =>
        apply runsInto_bind;
        [apply quiet_forRange; intros m Hin;
         specialize (Hmsgs m (proj1 (list_elem_of_In _ _) Hin));
         apply andb_prop in Hmsgs; destruct Hmsgs; by apply quiet_genMessage
        |intros _]
    | |- runsInto (forRange _ (genExtension _) ≫= _) _ =>
        apply runsInto_bind;
        [apply quiet_forRange; intros x Hin;
         apply quiet_genExtension, Hexts; by apply list_elem_of_In
        |intros _]
    | |- runsInto (_ ≫= _) _ => apply runsInto_bind; [quiet_auto|intros _]
    end.
  apply runsInto_refl.
Qed.

(** C9: marshalling the descriptor of the file is the one step of
    GenerateFile that can fail. On a well-formed file every step before it
    runs without a panic and reports no error, and the run ends in
    genFileDescriptor; when proto.Marshal fails there, the error goes to the
    plugin and nothing is printed, neither the init function that registers
    the file nor the var with the bytes; when it succeeds the block is
    printed and no error is reported. *)
Theorem GenerateFile_fallible (gen : Plugin) (file : File) (st : GenState) :
  wfFile file = true ->
  sortsBy mapFieldLess (sort_Slice mapFieldLess) ->
  exists f st1 ls,
    newFileInfo file = Some f
    /\ genErrors st1 = genErrors st
    /\ gBuf st1 = gBuf st ++ ls
    /\ GenerateFile gen file st = genFileDescriptor f st1
    /\ match proto_Marshal (dropSourceCodeInfo (fileProto file)) with
       | inr err =>
           genFileDescriptor f st1
           = Some (tt, mkGenState (gBuf st1) (gImports st1) (genErrors st ++ [err]))
       | inl b =>
           genFileDescriptor f st1
           = Some (tt, addLines st1 (descriptorBlock f (gzip_BestCompression b)))
       end.
Proof.
  intros Hwf Hsort.
  destruct (newFileInfo_lists file) as (f & Hf & Hfile & _).
  destruct (GenerateFile_runsInto gen file f Hf Hwf Hsort st) as (st1 & ls & He & Hb & E).
  exists f, st1, ls. repeat (split; [done|]).
  rewrite genFileDescriptor_result, Hfile, He.
  by destruct (proto_Marshal _).
Qed.

End TotalityFacts.

Section TotalityWitnesses.
Import Demo.

Lemma GenerateFile_fallible_witness :
  (exists st', GenerateFile plugin (file false) start = Some (tt, st')
               /\ genErrors st' = ["proto: required field not set"])
  /\ (exists st', GenerateFile plugin (file true) start = Some (tt, st')
                  /\ genErrors st' = []).
Proof.
  split.
  - destruct (GenerateFile_fallible plugin (file false) start eq_refl merge_sort_sortsBy)
      as (f & st1 & ls & Hf & He & Hb & E & Hm).
    simpl in Hm. eexists. rewrite E, Hm. split; reflexivity.
  - destruct (GenerateFile_fallible plugin (file true) start eq_refl merge_sort_sortsBy)
      as (f & st1 & ls & Hf & He & Hb & E & Hm).
    simpl in Hm. eexists. rewrite E, Hm. split; [reflexivity|]. exact He.
Defined.

End TotalityWitnesses.

(** ** Further properties of the generator *)

Section PathKeyFacts.

Lemma commaFree_cons c s : c <> ","%char -> commaFree s -> commaFree (String c s).
Proof. intros. by constructor. Qed.

Lemma pretty_N_char_not_comma x : pretty_N_char x <> ","%char.
Proof. unfold pretty_N_char. by repeat case_match. Qed.

Lemma pretty_N_go_commaFree x s : commaFree s -> commaFree (pretty_N_go x s).
Proof.
  revert s. induction (N.lt_wf_0 x) as [x _ IH]; intros s Hs.
  destruct (decide (0 < x)%N) as [Hx|Hx].
  - rewrite pretty_N_go_step by done. apply IH; [by apply N.div_lt|].
    apply commaFree_cons; [apply pretty_N_char_not_comma|done].
  - assert (x = 0%N) as -> by lia. by rewrite pretty_N_go_0.
Qed.

Lemma pretty_N_go_length x s :
  (String.length s <= String.length (pretty_N_go x s))%nat.
Proof.
  revert s. induction (N.lt_wf_0 x) as [x _ IH]; intros s.
  destruct (decide (0 < x)%N) as [Hx|Hx].
  - rewrite pretty_N_go_step by done.
    etrans; [|apply IH; by apply N.div_lt]. simpl. lia.
  - assert (x = 0%N) as -> by lia. by rewrite pretty_N_go_0.
Qed.

Lemma pretty_N_commaFree (x : N) : commaFree (pretty x) /\ pretty x <> "".
Proof.
  unfold pretty, pretty_N. case_decide as Hx.
  - split; [|done]. repeat constructor. done.
  - split; [apply pretty_N_go_commaFree; constructor|].
    rewrite pretty_N_go_step by lia. intros E.
    pose proof (pretty_N_go_length (x `div` 10)%N
                  (String (pretty_N_char (x `mod` 10)%N) "")) as Hlen.
    rewrite E in Hlen. simpl in Hlen. lia.
Qed.

Lemma strconv_Itoa_commaFree (z : Z) :
  commaFree (strconv_Itoa z) /\ strconv_Itoa z <> "".
Proof.
  unfold strconv_Itoa, pretty, pretty_Z. destruct z as [|p|p].
  - split; [|done]. repeat constructor. done.
  - apply (pretty_N_commaFree (Npos p)).
  - split; [|done]. apply commaFree_cons; [done|].
    apply (pretty_N_commaFree (Npos p)).
Qed.

Lemma append_String (c : ascii) (a t : string) : String c a +:+ t = String c (a +:+ t).
Proof. done. Qed.

Lemma append_empty_r (s : string) : s +:+ "" = s.
Proof. induction s as [|c s IH]; [done|]. by rewrite append_String, IH. Qed.

(** Two comma-free strings, each followed by nothing or by a comma, are
    equal when the whole strings are. *)
Lemma commaFree_prefix (a b t1 t2 : string) :
  commaFree a -> commaFree b ->
  (t1 = "" \/ exists r, t1 = String "," r) ->
  (t2 = "" \/ exists r, t2 = String "," r) ->
  a +:+ t1 = b +:+ t2 -> a = b /\ t1 = t2.
Proof.
  revert b. induction a as [|c a IH]; intros b Ha Hb H1 H2 E.
  - destruct b as [|d b]; [done|]. exfalso.
    apply Forall_cons in Hb as [Hd _]. rewrite append_String in E.
    change ("" +:+ t1) with t1 in E.
    destruct H1 as [->|[r ->]]; [done|]. injection E as E1 _. congruence.
  - destruct b as [|d b].
    + exfalso. apply Forall_cons in Ha as [Hc _]. rewrite append_String in E.
      change ("" +:+ t2) with t2 in E.
      destruct H2 as [->|[r ->]]; [done|]. injection E as E1 _. congruence.
    + rewrite !append_String in E. injection E as -> E.
      apply Forall_cons in Ha as [_ Ha]. apply Forall_cons in Hb as [_ Hb].
      destruct (IH b Ha Hb H1 H2 E) as [-> ->]. done.
Qed.

Lemma strings_Join_cons (x : string) (rest : list string) (sep : string) :
  strings_Join (x :: rest) sep
  = x +:+ (if rest is [] then "" else sep +:+ strings_Join rest sep).
Proof.
  destruct rest; simpl; [|done]. by rewrite append_empty_r.
Qed.

Lemma strings_Join_comma_inj (l1 l2 : list string) :
  Forall (fun s => commaFree s /\ s <> "") l1 ->
  Forall (fun s => commaFree s /\ s <> "") l2 ->
  strings_Join l1 "," = strings_Join l2 "," -> l1 = l2.
Proof.
  intros H1. revert l2. induction H1 as [|x l1 [Hx Hne] H1 IH]; intros l2 H2 E.
  - destruct H2 as [|y l2 [Hy Hney] H2]; [done|].
    rewrite strings_Join_cons in E. simpl in E. destruct y; [done|discriminate].
  - destruct H2 as [|y l2 [Hy Hney] H2].
    + rewrite strings_Join_cons in E. simpl in E. destruct x; [done|discriminate].
    + rewrite !strings_Join_cons in E.
      apply commaFree_prefix in E as [-> E]; try done.
      * f_equal. destruct l1, l2; try done. apply IH; [done|].
        simpl in E. by injection E.
      * destruct l1; [by left|right; eauto].
      * destruct l2; [by left|right; eauto].
Qed.

(** The key of a path determines the path. *)
Lemma pathKey_eq (p q : list Z) : pathKey p = pathKey q -> p = q.
Proof.
  unfold pathKey. intros E. apply strings_Join_comma_inj in E.
  - revert E. apply (inj (fmap strconv_Itoa)).
  - apply Forall_fmap, Forall_forall. intros z _. apply strconv_Itoa_commaFree.
  - apply Forall_fmap, Forall_forall. intros z _. apply strconv_Itoa_commaFree.
Qed.

(** X1: pathKey is injective: two location paths have the same key only
    when they are the same path, so no two paths share an entry of the
    location map. *)
Theorem pathKey_injective (p q : list Z) : pathKey p = pathKey q <-> p = q.
Proof. split; [apply pathKey_eq|by intros ->]. Qed.

End PathKeyFacts.

Section CommentFacts.
Context `{env : GoEnv}.

Lemma fold_locations_lookup (locs : list Location) (m : gmap string (list Location))
    (key : string) :
  fold_left (fun m loc =>
               let key := pathKey (locPath loc) in
               <[ key := default [] (m !! key) ++ [loc] ]> m) locs m !! key
  = match filter (fun loc => pathKey (locPath loc) = key) locs with
    | [] => m !! key
    | l => Some (default [] (m !! key) ++ l)
    end.
Proof.
  revert m. induction locs as [|loc locs IH]; intros m; simpl; [done|].
  rewrite IH, filter_cons. case_decide as Hk.
  - rewrite Hk, lookup_insert_eq. simpl.
    destruct (filter _ locs); [done|]. by rewrite <- app_assoc.
  - by rewrite lookup_insert_ne.
Qed.

Lemma buildLocationMap_lookup (locs : list Location) (path : list Z) :
  buildLocationMap locs !! pathKey path
  = match locationsAt path locs with [] => None | l => Some l end.
Proof.
  unfold buildLocationMap, locationsAt. rewrite fold_locations_lookup, lookup_empty.
  rewrite (list_filter_iff _ (fun loc => locPath loc = path)); [done|].
  intros loc. split; [apply pathKey_eq|by intros ->].
Qed.

Lemma strings_Split_newline_not_nil (s : string) : strings_Split_newline s <> [].
Proof.
  induction s as [|c s IH]; simpl; [done|].
  destruct (Ascii.eqb c newline); [done|]. by destruct (strings_Split_newline s).
Qed.

Lemma genComment_emits (f : fileInfo) (path : list Z) :
  let found := firstCommented (default [] (locationMap f !! pathKey path)) in
  emits (genComment f path) (bool_decide (is_Some found))
    (match found with
     | Some comments =>
         map commentLine (strings_Split_newline (strings_TrimSuffix_newline comments))
     | None => []
     end).
Proof.
  intros found. subst found. unfold genComment.
  destruct (firstCommented _) as [comments|].
  - set (lines := strings_Split_newline (strings_TrimSuffix_newline comments)).
    rewrite <- (app_nil_r (map commentLine lines)).
    rewrite (bool_decide_eq_true_2 (is_Some (Some comments))) by eauto.
    eapply (emits_bind _ _ tt);
      [apply (emits_forRange_map _ commentLine); intros; apply emits_P|].
    rewrite bool_decide_eq_true_2 by apply strings_Split_newline_not_nil.
    apply emits_ret.
  - rewrite bool_decide_eq_false_2 by (by intros [? ?]). apply emits_ret.
Qed.

Lemma newFileInfo_genComment (file : File) (f : fileInfo) (path : list Z) :
  newFileInfo file = Some f ->
  let found := firstCommented (locationsAt path (GetLocation (fileProto file))) in
  emits (genComment f path) (bool_decide (is_Some found))
    (match found with
     | Some comments =>
         map commentLine (strings_Split_newline (strings_TrimSuffix_newline comments))
     | None => []
     end).
Proof.
  intros Hf found.
  assert (Hfound : firstCommented (default [] (locationMap f !! pathKey path)) = found).
  { unfold newFileInfo in Hf. destruct (walkMessages _ _ _); simpl in Hf; [|done].
    injection Hf as <-. simpl. rewrite buildLocationMap_lookup.
    subst found. by destruct (locationsAt _ _). }
  pose proof (genComment_emits f path) as H. cbv zeta in H. by rewrite Hfound in H.
Qed.

Lemma genComment_leadingComment (f : fileInfo) (path : list Z) :
  exists hasComment,
    emits (genComment f path) hasComment (map commentLine (leadingComment f path)).
Proof.
  pose proof (genComment_emits f path) as H. cbv zeta in H. unfold leadingComment.
  destruct (firstCommented _); eauto.
Qed.

(** X2: the location map GenerateFile builds holds, under the key of a
    path, the locations of that path in their order in the descriptor, and
    no entry for a path without location. *)
Theorem locationMap_lookup (file : File) (f : fileInfo) (path : list Z) :
  newFileInfo file = Some f ->
  locationMap f !! pathKey path
  = match locationsAt path (GetLocation (fileProto file)) with
    | [] => None
    | l => Some l
    end.
Proof.
  unfold newFileInfo. intros Hf.
  destruct (walkMessages _ _ _); simpl in Hf; [|done].
  injection Hf as <-. simpl. apply buildLocationMap_lookup.
Qed.

(** X3: in the file information of GenerateFile, genComment prints the
    leading comments of the first location of the path that has some, one
    line of the comments to a printed line behind //, and returns true;
    when the path has no location, or none with leading comments, it prints
    nothing and returns false. *)
Theorem genComment_first_commented (file : File) (f : fileInfo) (path : list Z) :
  newFileInfo file = Some f ->
  let found := firstCommented (locationsAt path (GetLocation (fileProto file))) in
  emits (genComment f path) (bool_decide (is_Some found))
    (match found with
     | Some comments =>
         map commentLine (strings_Split_newline (strings_TrimSuffix_newline comments))
     | None => []
     end)
  /\ (found = None -> forall st, genComment f path st = Some (false, st)).
Proof.
  intros Hf found. pose proof (newFileInfo_genComment file f path Hf) as H.
  cbv zeta in H. fold found in H. split; [done|]. intros Hnone st.
  rewrite Hnone in H. rewrite (H st), addLines_nil. done.
Qed.

Lemma strings_Split_newline_join (s : string) :
  strings_Join (strings_Split_newline s) (String newline "") = s
  /\ Forall (fun line => newline ∉ String.list_ascii_of_string line)
       (strings_Split_newline s).
Proof.
  induction s as [|c s [IHj IHf]]; simpl.
  - split; [done|]. repeat constructor. by intros ?%elem_of_nil.
  - destruct (Ascii.eqb_spec c newline) as [->|Hc].
    + split.
      * rewrite strings_Join_cons.
        destruct (strings_Split_newline s) eqn:E;
          [by destruct (strings_Split_newline_not_nil s)|].
        by rewrite IHj.
      * constructor; [by intros ?%elem_of_nil|done].
    + destruct (strings_Split_newline s) as [|h t] eqn:E;
        [by destruct (strings_Split_newline_not_nil s)|].
      split.
      * rewrite strings_Join_cons in IHj |- *. rewrite append_String. by rewrite IHj.
      * apply Forall_cons in IHf as [Hh Ht]. constructor; [|done].
        simpl. intros [?|?]%elem_of_cons; [by subst|done].
Qed.

(** X4: the lines genComment prints for a comment hold no newline, and
    joined with newlines they give the comment back, less one newline at its
    end. *)
Theorem genComment_lines_roundtrip (f : fileInfo) (path : list Z) (comments : string) :
  firstCommented (default [] (locationMap f !! pathKey path)) = Some comments ->
  exists lines,
    emits (genComment f path) true (map commentLine lines)
    /\ strings_Join lines (String newline "") = strings_TrimSuffix_newline comments
    /\ Forall (fun line => newline ∉ String.list_ascii_of_string line) lines.
Proof.
  intros Hfound.
  exists (strings_Split_newline (strings_TrimSuffix_newline comments)).
  pose proof (genComment_emits f path) as H. cbv zeta in H. rewrite Hfound in H.
  rewrite bool_decide_eq_true_2 in H by eauto.
  split; [done|]. apply strings_Split_newline_join.
Qed.

End CommentFacts.

Section DumpFacts.

Lemma chunks16_concat (b : list Byte.byte) : concat (chunks16 b) = b.
Proof.
  funelim (chunks16 b); [done|].
  simpl. rewrite H. by rewrite take_drop.
Qed.

Lemma chunks16_lengths (b : list Byte.byte) :
  Forall (fun chunk => (0 < length chunk <= 16)%nat) (chunks16 b).
Proof.
  funelim (chunks16 b); [constructor|].
  constructor; [|done]. rewrite length_take. simpl length. lia.
Qed.

Lemma chunks16_full (b : list Byte.byte) (i : nat) (chunk : list Byte.byte) :
  chunks16 b !! i = Some chunk -> (S i < length (chunks16 b))%nat ->
  length chunk = 16%nat.
Proof.
  revert i. funelim (chunks16 b); intros i; [done|].
  destruct i as [|i].
  - intros [= <-] Hlen. simpl in Hlen |- *. rewrite length_take.
    destruct (drop 15 b') as [|d rest] eqn:Hd.
    + simp chunks16 in Hlen. simpl in Hlen. lia.
    + assert (length (drop 15 b') > 0)%nat by (rewrite Hd; simpl; lia).
      rewrite length_drop in *. lia.
  - intros Hi Hlen. simpl in Hi, Hlen. apply (H chunk i); [done|lia].
Qed.

(** X5: the loop of the byte dump cuts the bytes into lines that, put end
    to end, are the bytes again; no line is empty, none has more than
    sixteen bytes, and every line but the last has sixteen. *)
Theorem chunks16_partition (b : list Byte.byte) :
  concat (chunks16 b) = b
  /\ Forall (fun chunk => (0 < length chunk <= 16)%nat) (chunks16 b)
  /\ (forall i chunk, chunks16 b !! i = Some chunk ->
        (S i < length (chunks16 b))%nat -> length chunk = 16%nat).
Proof.
  split; [apply chunks16_concat|]. split; [apply chunks16_lengths|].
  apply chunks16_full.
Qed.

Lemma append_assoc (a b c : string) : (a +:+ b) +:+ c = a +:+ (b +:+ c).
Proof. induction a as [|x a IH]; [done|]. by rewrite !append_String, IH. Qed.

(** The value of a hexadecimal digit, and the byte of two digits. *)
Lemma hex02x_inj (c d : Byte.byte) : hex02x c = hex02x d -> c = d.
Proof.
  intros E.
  assert (Hback : forall x, hexByte (hex02x x) = Some x) by (by intros []).
  apply (f_equal hexByte) in E. rewrite !Hback in E. by injection E.
Qed.

Lemma dumpLine_from (chunk : list Byte.byte) (acc : string) :
  fold_left (fun s c => s +:+ "0x" +:+ hex02x c +:+ ",") chunk acc
  = acc +:+ dumpLine chunk.
Proof.
  unfold dumpLine. revert acc. induction chunk as [|c chunk IH]; intros acc; simpl.
  - by rewrite append_empty_r.
  - rewrite IH, (IH ("" +:+ _)). by rewrite append_assoc.
Qed.

Lemma dumpLine_cons (c : Byte.byte) (chunk : list Byte.byte) :
  dumpLine (c :: chunk) = "0x" +:+ hex02x c +:+ "," +:+ dumpLine chunk.
Proof.
  unfold dumpLine at 1. simpl. rewrite dumpLine_from.
  change ("" +:+ ?s) with s. by rewrite !append_assoc.
Qed.

Lemma dumpLine_inj (chunk1 chunk2 : list Byte.byte) :
  dumpLine chunk1 = dumpLine chunk2 -> chunk1 = chunk2.
Proof.
  revert chunk2. induction chunk1 as [|c chunk1 IH]; intros [|d chunk2] E; try done.
  - rewrite dumpLine_cons in E. discriminate.
  - rewrite dumpLine_cons in E. discriminate.
  - rewrite !dumpLine_cons in E. unfold hex02x in E.
    rewrite !append_String in E. injection E as E1 E2 E3.
    change (dumpLine chunk1 = dumpLine chunk2) in E3.
    f_equal; [|by apply IH].
    apply hex02x_inj. unfold hex02x. by rewrite E1, E2.
Qed.

Lemma dumpLines_inj (b1 b2 : list Byte.byte) :
  map dumpLine (chunks16 b1) = map dumpLine (chunks16 b2) -> b1 = b2.
Proof.
  intros E.
  rewrite <- (chunks16_concat b1), <- (chunks16_concat b2). f_equal.
  revert E. generalize (chunks16 b1) (chunks16 b2).
  induction l as [|x l IH]; intros [|y l'] E; try done.
  simpl in E. injection E as Ex E. f_equal; [by apply dumpLine_inj|by apply IH].
Qed.

(** X6: the block genFileDescriptor prints loses nothing of the bytes: two
    byte sequences with the same block are the same sequence. *)
Theorem descriptorBlock_injective `{env : GoEnv} (f : fileInfo) (b1 b2 : list Byte.byte) :
  descriptorBlock f b1 = descriptorBlock f b2 <-> b1 = b2.
Proof.
  split; [|by intros ->]. unfold descriptorBlock. intros E.
  injection E as _ E. apply app_inj_2 in E as [E _]; [|done].
  apply dumpLines_inj.
  rewrite <- !(map_map dumpLine (fun s => [PStr s])) in E.
  revert E. generalize (map dumpLine (chunks16 b1)) (map dumpLine (chunks16 b2)).
  induction l as [|x l IH]; intros [|y l'] E; try done.
  simpl in E. injection E as -> E. f_equal. by apply IH.
Qed.

End DumpFacts.

Section TypeFacts.
Context `{env : GoEnv}.

(** X7: when the type mapper returns, the struct field is a pointer exactly
    when the field is declared under proto2, is not repeated and its kind is
    neither bytes nor message nor group. *)
Theorem fieldGoType_pointer_iff (field : Field) (goType : string) (pointer : bool) :
  fieldGoType field = Some (goType, pointer) ->
  (pointer = true <->
   fdSyntax (fDesc field) <> Proto3
   /\ fdCardinality (fDesc field) <> Repeated
   /\ fdKind (fDesc field) <> BytesKind
   /\ isMessageOrGroup (fdKind (fDesc field)) = false).
Proof.
  destruct field as [addr desc goName path depr enumType mt oneof parent extended].
  simpl.
  destruct (fdKind desc); simpl;
    try (repeat case_decide; intros [= <- <-]; by intuition).
  - destruct enumType; [|done]. repeat case_decide; intros [= <- <-]; by intuition.
  - destruct mt as [mt|]; [|done]. destruct (fdIsMap desc).
    + destruct (mrFields mt) as [|key [|val rest]]; try done.
      destruct (fieldGoType key) as [[kt kp]|]; [|done].
      destruct (fieldGoType val) as [[vt vp]|]; [|done]. intros [= <- <-]. by intuition.
    + repeat case_decide; intros [= <- <-]; by intuition.
  - destruct mt as [mt|]; [|done]. destruct (fdIsMap desc).
    + destruct (mrFields mt) as [|key [|val rest]]; try done.
      destruct (fieldGoType key) as [[kt kp]|]; [|done].
      destruct (fieldGoType val) as [[vt vp]|]; [|done]. intros [= <- <-]. by intuition.
    + repeat case_decide; intros [= <- <-]; by intuition.
Qed.

(** X8: making a field repeated puts [] before the type the mapper gives
    to the single field and drops the pointer; a map field keeps its mapping
    type whatever its cardinality. *)
Theorem fieldGoType_repeated (field : Field) (goType : string) (pointer : bool) :
  fieldGoType (withCardinality Optional field) = Some (goType, pointer) ->
  fieldGoType (withCardinality Repeated field)
  = Some (if isMessageOrGroup (fdKind (fDesc field)) && fdIsMap (fDesc field)
          then goType else "[]" +:+ goType, false).
Proof.
  destruct field as [addr desc goName path depr enumType mt oneof parent extended].
  destruct desc as [kind number card packed name fullName json syntax oo hasDef def isMap].
  unfold withCardinality. simpl.
  destruct kind; simpl;
    try (repeat case_decide; intros [= <- <-]; by try done).
  - destruct enumType; [|done]. repeat case_decide; by intros [= <- <-].
  - destruct mt as [mt|]; [|done]. destruct isMap.
    + destruct (mrFields mt) as [|key [|val rest]]; try done.
      destruct (fieldGoType key) as [[kt kp]|]; [|done].
      destruct (fieldGoType val) as [[vt vp]|]; [|done]. by intros [= <- <-].
    + repeat case_decide; by intros [= <- <-].
  - destruct mt as [mt|]; [|done]. destruct isMap.
    + destruct (mrFields mt) as [|key [|val rest]]; try done.
      destruct (fieldGoType key) as [[kt kp]|]; [|done].
      destruct (fieldGoType val) as [[vt vp]|]; [|done]. by intros [= <- <-].
    + repeat case_decide; by intros [= <- <-].
Qed.

Lemma rootDescriptor_file (desc : Descriptor) (package : string) :
  rootDescriptor desc = FileDesc package
  <-> exists depth, desc = nestedIn depth (FileDesc package).
Proof.
  split.
  - induction desc as [p|parent IH|]; simpl; intros E.
    + exists 0%nat. by injection E as ->.
    + destruct (IH E) as [depth ->]. by exists (S depth).
    + done.
  - intros [depth ->]. induction depth as [|depth IH]; [done|]. simpl. exact IH.
Qed.

(** X9: an enum has a registry name exactly when the chain of parents of
    its descriptor ends in a file, at whatever depth; the name is then the
    package of that file, a dot and the Go name of the enum, so the messages
    the enum is nested in leave no trace in it. *)
Theorem enumRegistryName_depth (enum : Enum) (name : string) :
  enumRegistryName enum = Some name
  <-> exists depth package,
        eDesc enum = nestedIn depth (FileDesc package)
        /\ name = package +:+ "." +:+ GoName (eGoIdent enum).
Proof.
  unfold enumRegistryName. split.
  - destruct (rootDescriptor (eDesc enum)) as [package| |] eqn:E; try done.
    intros [= <-]. apply rootDescriptor_file in E as [depth E]. eauto.
  - intros (depth & package & E & ->).
    assert (rootDescriptor (eDesc enum) = FileDesc package) as ->; [|done].
    apply rootDescriptor_file. eauto.
Qed.

Lemma wellKnownTypes_package (fullName : string) :
  wellKnownTypes fullName = true ->
  String.prefix "google.protobuf." fullName = true.
Proof.
  unfold wellKnownTypes. intros H%bool_decide_eq_true.
  repeat (apply elem_of_cons in H as [->|H]; [done|]). by apply elem_of_nil in H.
Qed.

(** X10: only names of the package google.protobuf are in the table of
    well-known types: for a message or an enum whose full name does not
    begin with that package, genWellKnownType prints nothing. *)
Theorem genWellKnownType_package (ptr : string) (ident : GoIdent)
    (fullName name : string) :
  String.prefix "google.protobuf." fullName = false ->
  emits (genWellKnownType ptr ident fullName name) tt [].
Proof.
  intros Hprefix. unfold genWellKnownType.
  destruct (wellKnownTypes fullName) eqn:Hwk; [|apply emits_when_false].
  apply wellKnownTypes_package in Hwk. congruence.
Qed.

End TypeFacts.

Section DefaultFacts.
Context `{env : GoEnv} `{oneofs : !OneofEmitters}.

(** X11: a string field that declares the default "" has a tag that ends
    in the token def= with nothing behind it, while no holder is printed
    for it and its getter returns the empty string literal. *)
Theorem empty_string_default (message : Message) (field : Field) :
  fdKind (fDesc field) = StringKind ->
  fdHasDefault (fDesc field) = true ->
  fdDefault (fDesc field) = VString "" ->
  fdCardinality (fDesc field) <> Repeated ->
  (exists tokens, fieldProtobufTag field = Some (strings_Join (tokens ++ ["def="]) ","))
  /\ emits (genMessage_defaultVar message field) tt []
  /\ fieldDefaultValue message field = Some (dq +:+ dq).
Proof.
  intros Hk Hd Hv Hcard.
  assert (Hhas : fieldHasDefault field = Some false).
  { unfold fieldHasDefault. by rewrite Hd, Hk, Hv. }
  split; [|split].
  - unfold fieldProtobufTag, tagDefault. rewrite Hk, Hd, Hv. simpl. eexists. reflexivity.
  - unfold genMessage_defaultVar.
    eapply emits_orPanic_bind; [exact Hhas|]. apply emits_ret.
  - unfold fieldDefaultValue. rewrite decide_False by done. rewrite Hhas. simpl.
    by rewrite Hk.
Qed.

Lemma ByNumber_Index_first (values : list EnumValue) (n : Z) (index : nat) :
  ByNumber_Index values n = Some index ->
  exists value,
    values !! index = Some value /\ evNumber value = n
    /\ forall j other, (j < index)%nat -> values !! j = Some other -> evNumber other <> n.
Proof.
  revert index. induction values as [|v rest IH]; intros index; simpl; [done|].
  case_decide as Hn.
  - intros [= <-]. exists v. repeat split; [done|]. intros j other Hj. lia.
  - destruct (ByNumber_Index rest n) as [i|] eqn:E; [|done]. simpl. intros [= <-].
    destruct (IH i eq_refl) as (value & Hv & Hnum & Hfirst).
    exists value. repeat split; [done..|].
    intros [|j] other Hj; simpl; [by intros [= <-]|].
    apply Hfirst. lia.
Qed.

(** The iteration of the loop over the holders for an enum field with a
    default: a constant set to the first declared value that has the number
    of the default. *)
Lemma enum_default_holder_line (message : Message) (field : Field) (enum : Enum) (n : Z) :
  wfField field = true ->
  fdKind (fDesc field) = EnumKind ->
  fdHasDefault (fDesc field) = true ->
  fdDefault (fDesc field) = VEnum n ->
  fEnumType field = Some enum ->
  exists index value,
    eValues enum !! index = Some value
    /\ evNumber value = n
    /\ (forall j other, (j < index)%nat -> eValues enum !! j = Some other ->
          evNumber other <> n)
    /\ emits (genMessage_defaultVar message field) tt
         [ [ PStr "const ";
             PStr ("Default_" +:+ GoName (mGoIdent message) +:+ "_" +:+ fGoName field);
             PStr " "; PIdent (eGoIdent enum); PStr " = "; PIdent (evGoIdent value) ] ].
Proof.
  intros Hwf Hk Hd Hv He.
  pose proof (wfField_default field Hwf) as Hwfd. unfold wfDefault in Hwfd.
  rewrite Hd, Hk, Hv, He in Hwfd. simpl in Hwfd. apply bool_decide_eq_true in Hwfd.
  destruct (ByNumber_Index_lookup _ _ Hwfd) as (index & value & Hindex & Hvalue).
  destruct (ByNumber_Index_first _ _ _ Hindex) as (value' & Hvalue' & Hnum & Hfirst).
  rewrite Hvalue in Hvalue'. injection Hvalue' as <-.
  exists index, value. repeat (split; [done|]).
  unfold genMessage_defaultVar.
  assert (Hhas : fieldHasDefault field = Some true).
  { unfold fieldHasDefault. by rewrite Hd, Hk. }
  eapply emits_orPanic_bind; [exact Hhas|]. simpl. rewrite Hk, Hv.
  eapply emits_orPanic_bind; [exact He|].
  eapply emits_orPanic_bind; [reflexivity|].
  eapply emits_orPanic_bind; [exact Hindex|].
  eapply emits_orPanic_bind; [exact Hvalue|]. apply emits_P.
Qed.

End DefaultFacts.

Section IndexFacts.

(** X13: on a location path, which alternates field numbers and indexes,
    the loop of Descriptor and EnumDescriptor keeps the indexes, in order,
    and drops a last number that no index follows. *)
Theorem oddIndexes_pairs {A : Type} (pairs : list (A * A)) (last : list A) :
  (length last <= 1)%nat ->
  oddIndexes (flat_map (fun p => [p.1; p.2]) pairs ++ last) = map snd pairs.
Proof.
  intros Hlast. induction pairs as [|[a b] pairs IH]; simpl.
  - destruct last as [|x [|y rest]]; simpl in *; try done. lia.
  - by rewrite IH.
Qed.

(** For a range of int32 numbers that is not empty, the end less one does
    not wrap around and is the last number of the range. *)
Lemma wrap_int32_inclusive (start end_ n : Z) :
  - 2 ^ 31 <= start -> start < end_ -> end_ < 2 ^ 31 ->
  wrap_int32 (end_ - 1) = end_ - 1
  /\ (start <= n < end_ <-> start <= n <= wrap_int32 (end_ - 1)).
Proof.
  intros Hlo Hlt Hhi.
  assert (E : wrap_int32 (end_ - 1) = end_ - 1).
  { unfold wrap_int32. rewrite Z.mod_small; lia. }
  rewrite E. split; [done|lia].
Qed.

End IndexFacts.

Section ImportFacts.
Context `{env : GoEnv} `{oneofs : !OneofEmitters}.

(** The function genImport hands to walkMessages prints the aliases of the
    message and appends its enums. *)
Lemma genImport_message_run (imp : FileImport) (message : Message)
    (enums : list Enum) (st : GenState) :
  genImport_message imp message (enums, st)
  = Some (enums ++ mEnums message, addLines st (messageAliases imp message)).
Proof.
  unfold genImport_message. cbv zeta.
  match goal with
  | |- context [?body (enums, st).2] =>
      assert (H : emits body tt (messageAliases imp message))
  end.
  { unfold messageAliases.
    eapply (emits_bind _ _ tt tt [_] _); [apply emits_P|].
    eapply (emits_bind _ _ tt tt [_] _); [apply emits_P|].
    eapply (emits_bind _ _ tt tt _ [_]); [|apply emits_P].
    induction (mOneofs message) as [|oneof rest IH]; simpl; [apply emits_ret|].
    eapply emits_bind; [|exact IH].
    apply emits_forRange_map. intros field _. apply emits_P. }
  by rewrite H.
Qed.

Lemma walkMessages_genImport_from (imp : FileImport) (messages : list Message)
    (enums : list Enum) (st : GenState) :
  Forall (fun m => forall enums st,
            walkMessage (genImport_message imp) m (enums, st)
            = Some (enums ++ flat_map mEnums (messageTree m),
                    addLines st (flat_map (messageAliases imp) (messageTree m))))
         messages ->
  walkMessages messages (genImport_message imp) (enums, st)
  = Some (enums ++ flat_map mEnums (descendants messages),
          addLines st (flat_map (messageAliases imp) (descendants messages))).
Proof.
  intros H. revert enums st. induction H as [|m rest Hm _ IH]; intros enums st; simpl.
  - unfold addLines. destruct st. simpl. by rewrite !app_nil_r.
  - rewrite Hm, IH. unfold descendants, addLines. simpl.
    by rewrite !flat_map_app, !app_assoc.
Qed.

Lemma walkMessage_genImport (imp : FileImport) (m : Message)
    (enums : list Enum) (st : GenState) :
  walkMessage (genImport_message imp) m (enums, st)
  = Some (enums ++ flat_map mEnums (messageTree m),
          addLines st (flat_map (messageAliases imp) (messageTree m))).
Proof.
  revert enums st. induction m as [m IH] using Message_nested_ind. intros enums st.
  rewrite walkMessage_unfold, messageTree_unfold, genImport_message_run.
  rewrite (walkMessages_genImport_from _ _ _ _ IH). unfold addLines.
  cbn [flat_map gBuf gImports genErrors]. by rewrite <- !app_assoc.
Qed.

Lemma walkMessages_genImport (imp : FileImport) (messages : list Message)
    (enums : list Enum) (st : GenState) :
  walkMessages messages (genImport_message imp) (enums, st)
  = Some (enums ++ flat_map mEnums (descendants messages),
          addLines st (flat_map (messageAliases imp) (descendants messages))).
Proof.
  apply walkMessages_genImport_from, Forall_forall. intros m _ enums' st'.
  apply walkMessage_genImport.
Qed.

(** What genImport does, case by case. *)
Lemma genImport_run (gen : Plugin) (f : fileInfo) (imp : FileImport) (st : GenState) :
  genImport gen f imp st
  = match filesByName gen !! impPath imp with
    | None => Some (tt, st)
    | Some impFile =>
        if String.eqb (fileGoImportPath impFile) (fileGoImportPath (fiFile f))
        then Some (tt, st)
        else if impIsPublic imp
        then Some (tt, addLines (imported (fileGoImportPath impFile) st)
                         (flat_map (messageAliases imp) (descendants (fileMessages impFile))
                          ++ flat_map (enumAliases imp)
                               (fileEnums impFile
                                ++ flat_map mEnums (descendants (fileMessages impFile)))))
        else Some (tt, imported (fileGoImportPath impFile) st)
    end.
Proof.
  unfold genImport. destruct (filesByName gen !! impPath imp) as [impFile|]; [|done].
  destruct (String.eqb _ _); [done|].
  unfold mbind at 1, Gen_bind at 1. unfold g_Import at 1.
  fold (imported (fileGoImportPath impFile) st).
  destruct (impIsPublic imp); simpl; [|done].
  unfold mbind at 1, Gen_bind at 1. rewrite walkMessages_genImport.
  set (enums := fileEnums impFile ++ _).
  assert (H : emits (forRange enums (fun enum =>
            g_P("// ", GoName (eGoIdent enum), " from public import ", impPath imp) ;;
            g_P("type ", GoName (eGoIdent enum), " = ", eGoIdent enum) ;;
            g_P("var ", GoName (eGoIdent enum), "_name = ", eGoIdent enum, "_name") ;;
            g_P("var ", GoName (eGoIdent enum), "_value = ", eGoIdent enum, "_value") ;;
            g_P [] ;;
            forRange (eValues enum) (fun value =>
              g_P("const ", GoName (evGoIdent value), " = ", GoName (eGoIdent enum), "(",
                  evGoIdent value, ")")))) tt (flat_map (enumAliases imp) enums)).
  { induction enums as [|enum rest IH]; cbn [forRange flat_map]; [apply emits_ret|].
    apply (emits_bind _ _ tt tt (enumAliases imp enum) _); [|exact IH].
    unfold enumAliases.
    eapply (emits_bind _ _ tt tt [_] _); [apply emits_P|].
    eapply (emits_bind _ _ tt tt [_] _); [apply emits_P|].
    eapply (emits_bind _ _ tt tt [_] _); [apply emits_P|].
    eapply (emits_bind _ _ tt tt [_] _); [apply emits_P|].
    eapply (emits_bind _ _ tt tt [_] _); [apply emits_P|].
    apply emits_forRange_map. intros value _. apply emits_P. }
  rewrite H. unfold addLines. simpl. by rewrite app_assoc.
Qed.

(** X15: genImport does nothing at all, whatever the state, exactly when
    the plugin does not know the imported file or the imported file is in
    the Go package of the file generated; in every other case it records
    the Go import path of the imported file, and that is all it does when
    the import is not public. *)
Theorem genImport_skips (gen : Plugin) (f : fileInfo) (imp : FileImport) :
  ((forall st, genImport gen f imp st = Some (tt, st))
   <-> (filesByName gen !! impPath imp = None
        \/ exists impFile, filesByName gen !! impPath imp = Some impFile
             /\ fileGoImportPath impFile = fileGoImportPath (fiFile f)))
  /\ (forall impFile st,
        filesByName gen !! impPath imp = Some impFile ->
        fileGoImportPath impFile <> fileGoImportPath (fiFile f) ->
        exists st', genImport gen f imp st = Some (tt, st')
                    /\ fileGoImportPath impFile ∈ gImports st'
                    /\ (impIsPublic imp = false ->
                        st' = imported (fileGoImportPath impFile) st)).
Proof.
  assert (Hrec : forall impFile st,
            filesByName gen !! impPath imp = Some impFile ->
            fileGoImportPath impFile <> fileGoImportPath (fiFile f) ->
            exists st', genImport gen f imp st = Some (tt, st')
                        /\ fileGoImportPath impFile ∈ gImports st'
                        /\ (impIsPublic imp = false ->
                            st' = imported (fileGoImportPath impFile) st)).
  { intros impFile st Hfile Hne. rewrite genImport_run, Hfile.
    apply String.eqb_neq in Hne. rewrite Hne.
    destruct (impIsPublic imp); eexists; (split; [done|]); simpl;
      (split; [set_solver|done]). }
  split; [|exact Hrec]. split.
  - intros H. destruct (filesByName gen !! impPath imp) as [impFile|] eqn:Hfile; [|by left].
    right. exists impFile. split; [done|].
    destruct (decide (fileGoImportPath impFile = fileGoImportPath (fiFile f)))
      as [|Hne]; [done|].
    destruct (Hrec impFile Demo.start eq_refl Hne) as (st' & Hrun & Hin & _).
    rewrite H in Hrun. injection Hrun as <-. simpl in Hin. set_solver.
  - intros [Hnone|(impFile & Hfile & Heq)] st; rewrite genImport_run.
    + by rewrite Hnone.
    + rewrite Hfile. apply String.eqb_eq in Heq. by rewrite Heq.
Qed.

(** X16: for a public import of a file in another Go package, genImport
    records the import and prints the aliases of every message of the
    imported file, nested ones included, in the order of walkMessages, and
    then the aliases of every enum: those of the file first, then those
    declared in the messages. *)
Theorem genImport_public (gen : Plugin) (f : fileInfo) (imp : FileImport)
    (impFile : File) (st : GenState) :
  filesByName gen !! impPath imp = Some impFile ->
  fileGoImportPath impFile <> fileGoImportPath (fiFile f) ->
  impIsPublic imp = true ->
  genImport gen f imp st
  = Some (tt, addLines (imported (fileGoImportPath impFile) st)
                (flat_map (messageAliases imp) (descendants (fileMessages impFile))
                 ++ flat_map (enumAliases imp)
                      (fileEnums impFile
                       ++ flat_map mEnums (descendants (fileMessages impFile))))).
Proof.
  intros Hfile Hne Hpublic. rewrite genImport_run, Hfile, Hpublic.
  apply String.eqb_neq in Hne. by rewrite Hne.
Qed.

End ImportFacts.

Section PreambleFacts.
Context `{env : GoEnv} `{oneofs : !OneofEmitters}.

Lemma printsFirst_nil {A} (m last : Gen A) : runsInto m last -> printsFirst m [] last.
Proof. intros H st. destruct (H st) as (st1 & ls & ? & ? & ?). by exists st1, ls. Qed.

Lemma printsFirst_emits_bind {A B} (m : Gen A) (k : A -> Gen B) (a : A)
    (ls header : list Line) (last : Gen B) :
  emits m a ls -> printsFirst (k a) header last ->
  printsFirst (m ≫= k) (ls ++ header) last.
Proof.
  intros Hm Hk st. destruct (Hk (addLines st ls)) as (st1 & rest & He & Hb & Hrun).
  exists st1, rest. split; [done|]. split.
  - rewrite Hb. simpl. by rewrite <- !app_assoc.
  - unfold mbind, Gen_bind. by rewrite (Hm st).
Qed.

Lemma printsFirst_P_bind {B} (l : Line) (k : unit -> Gen B)
    (header : list Line) (last : Gen B) :
  printsFirst (k tt) header last -> printsFirst (g_P l ≫= k) (l :: header) last.
Proof. apply (printsFirst_emits_bind _ _ tt [l]), emits_P. Qed.

(** The run of GenerateFile on a well-formed file begins with the lines of
    the preamble and ends in genFileDescriptor. *)
Lemma GenerateFile_printsFirst (gen : Plugin) (file : File) (f : fileInfo) :
  newFileInfo file = Some f ->
  wfFile file = true ->
  sortsBy mapFieldLess (sort_Slice mapFieldLess) ->
  printsFirst (GenerateFile gen file) (preamble file) (genFileDescriptor f).
Proof.
  intros Hf Hwf Hsort.
  pose proof (wfFile_wfFileInfo file f Hwf Hf) as Hwfi.
  assert (Hwfi' := Hwfi). unfold wfFileInfo in Hwfi'.
  apply andb_prop in Hwfi'. destruct Hwfi' as [Hwfi' Hexts].
  apply andb_prop in Hwfi'. destruct Hwfi' as [_ Hmsgs].
  rewrite forallb_forall in Hmsgs, Hexts.
  assert (Hfile : fiFile f = file).
  { destruct (newFileInfo_lists file) as (f' & Hf' & Hfile & _). congruence. }
  rewrite Hfile in Hexts.
  pose proof (newFileInfo_genComment file f [2] Hf) as Hcomment. cbv zeta in Hcomment.
  fold (packageComment file) in Hcomment.
  unfold GenerateFile.
  intros st. unfold mbind at 1, Gen_bind at 1, orPanic at 1. rewrite Hf. revert st.
  cbv zeta. unfold preamble.
  apply printsFirst_P_bind.
  apply (printsFirst_emits_bind _ _ tt
           [if GetDeprecated (fileProto file)
            then [ PStr "// "; PStr (fileDescPath file); PStr " is a deprecated file." ]
            else [ PStr "// source: "; PStr (fileDescPath file) ]]);
    [destruct (GetDeprecated (fileProto file)); apply emits_P|].
  apply printsFirst_P_bind.
  apply (printsFirst_emits_bind _ _
           (bool_decide (is_Some (firstCommented
              (locationsAt [2] (GetLocation (fileProto file))))))
           (map commentLine (packageComment file))).
  { unfold packageComment.
    destruct (firstCommented (locationsAt [2] (GetLocation (fileProto file))));
      exact Hcomment. }
  do 14 apply printsFirst_P_bind.
  apply printsFirst_nil.
  repeat lazymatch goal with
    | |- runsInto (genInitFunction _ ≫= _) _ =>
        apply runsInto_bind; [by apply quiet_genInitFunction|intros _]
    | |- runsInto (forRange _ (genImport _ _) ≫= _) _ =>
        apply runsInto_bind;
        [apply quiet_forRange; intros; apply quiet_genImport|intros _]
    | |- runsInto (forRange _ (genEnum _) ≫= _) _ =>
        apply runsInto_bind;
        [apply quiet_forRange; intros; apply quiet_genEnum|intros _]
    | |- runsInto (forRange _ (genMessage _) ≫= _) _ =>
        apply runsInto_bind;
        [apply quiet_forRange; intros m Hin;
         specialize (Hmsgs m (proj1 (list_elem_of_In _ _) Hin));
         apply andb_prop in Hmsgs; destruct Hmsgs; by apply quiet_genMessage
        |intros _]
    | |- runsInto (forRange _ (genExtension _) ≫= _) _ =>
        apply runsInto_bind;
        [apply quiet_forRange; intros x Hin;
         apply quiet_genExtension, Hexts; by apply list_elem_of_In
        |intros _]
    end.
  apply runsInto_refl.
Qed.

(** X17: on a well-formed file GenerateFile returns, and what it has
    printed begins with the preamble: the marker of generated code, the
    source line (or the deprecation line of a deprecated file), the package
    clause under the leading comments of the package statement, the three
    reference imports and the assertion on version 2 of the proto
    package. *)
Theorem GenerateFile_preamble (gen : Plugin) (file : File) (st : GenState) :
  wfFile file = true ->
  sortsBy mapFieldLess (sort_Slice mapFieldLess) ->
  exists st' rest,
    GenerateFile gen file st = Some (tt, st')
    /\ gBuf st' = gBuf st ++ preamble file ++ rest.
Proof.
  intros Hwf Hsort.
  destruct (newFileInfo_lists file) as (f & Hf & _).
  destruct (GenerateFile_printsFirst gen file f Hf Hwf Hsort st)
    as (st1 & ls & He & Hb & Hrun).
  rewrite Hrun, genFileDescriptor_result.
  destruct (proto_Marshal _) as [b|err].
  - eexists _, (ls ++ descriptorBlock f (gzip_BestCompression b)).
    split; [done|]. unfold addLines. cbn [gBuf]. rewrite Hb. by rewrite <- !app_assoc.
  - eexists _, ls. split; [done|]. cbn [gBuf]. by rewrite Hb.
Qed.

End PreambleFacts.

Section FileInfoFacts.
Context `{env : GoEnv} `{oneofs : !OneofEmitters}.

(** X18: genInitFunction prints nothing exactly when the file has no
    message, no enum and no extension at all; otherwise it prints an init
    function, from its opening line to the closing brace and a blank
    line. *)
Theorem genInitFunction_silent_iff (f : fileInfo) :
  wfFileInfo f = true ->
  sortsBy mapFieldLess (sort_Slice mapFieldLess) ->
  exists lines,
    emits (genInitFunction f) tt lines
    /\ (lines = [] <-> allMessages f = [] /\ allEnums f = [] /\ allExtensions f = [])
    /\ (lines <> [] ->
        exists body, lines = [PStr "func init() {"] :: body ++ [ [PStr "}"]; [] ]).
Proof.
  intros Hwf Hsort.
  destruct (allMessages f) as [|m ms] eqn:Hm;
    [destruct (allEnums f) as [|e es] eqn:He;
       [destruct (allExtensions f) as [|x xs] eqn:Hx|]|].
  - exists []. split; [|split; [done|done]].
    unfold genInitFunction. rewrite Hm, He, Hx. simpl. apply emits_ret.
  - destruct (genInitFunction_emits f Hwf Hsort)
      as (enumLines & messageLines & extensionLines & _ & _ & _ & Hemit).
    { right. right. by rewrite Hx. }
    eexists. split; [exact Hemit|]. split; [by split; [|intros (_ & _ & ?)]|].
    intros _. eexists. simpl. rewrite !app_assoc. reflexivity.
  - destruct (genInitFunction_emits f Hwf Hsort)
      as (enumLines & messageLines & extensionLines & _ & _ & _ & Hemit).
    { right. left. by rewrite He. }
    eexists. split; [exact Hemit|]. split; [by split; [|intros (_ & ? & _)]|].
    intros _. eexists. simpl. rewrite !app_assoc. reflexivity.
  - destruct (genInitFunction_emits f Hwf Hsort)
      as (enumLines & messageLines & extensionLines & _ & _ & _ & Hemit).
    { left. by rewrite Hm. }
    eexists. split; [exact Hemit|]. split; [by split; [|intros (? & _ & _)]|].
    intros _. eexists. simpl. rewrite !app_assoc. reflexivity.
Qed.

(** X19: an extension declared at the level of the file is never taken
    for an element of a message set, whatever it extends and whatever its
    name: its var is E_ and its Go name, and its registration is the one
    call of RegisterExtension, with no look at the extended type. *)
Theorem genRegisterExtension_file_level (f : fileInfo) (extension : Extension) :
  fParentMessage extension = None ->
  isExtensionMessageSetElement extension = Some false
  /\ extensionVar f extension
     = mkGoIdent ("E_" +:+ fGoName extension) (fileGoImportPath (fiFile f))
  /\ emits (genRegisterExtension f extension) tt
       [ [ PIdent (protoIdent "RegisterExtension"); PStr "(";
           PIdent (extensionVar f extension); PStr ")" ] ].
Proof.
  intros Hparent.
  assert (His : isExtensionMessageSetElement extension = Some false).
  { unfold isExtensionMessageSetElement. by rewrite Hparent. }
  split; [done|]. split.
  - unfold extensionVar. by rewrite Hparent.
  - unfold genRegisterExtension.
    eapply (emits_bind _ _ tt tt [_] []); [apply emits_P|].
    eapply emits_orPanic_bind; [exact His|]. apply emits_when_false.
Qed.

(** X20: the file information of GenerateFile is always built, and its
    flat lists take the enums of the file before those of the messages but
    the extensions of the messages before those of the file; the messages
    are those of the file with all their descendants, each one before the
    messages nested in it. *)
Theorem newFileInfo_flat_lists (file : File) :
  exists f, newFileInfo file = Some f
    /\ allMessages f = flat_map messageTree (fileMessages file)
    /\ (forall m, messageTree m = m :: flat_map messageTree (mMessages m))
    /\ allEnums f = fileEnums file ++ flat_map mEnums (allMessages f)
    /\ allExtensions f = flat_map mExtensions (allMessages f) ++ fileExtensions file.
Proof.
  destruct (newFileInfo_lists file) as (f & Hf & _ & He & Hm & Hx).
  exists f. split; [done|]. split; [done|]. split; [apply messageTree_unfold|].
  rewrite Hm. by split.
Qed.

End FileInfoFacts.

Section BlockFacts.
Context `{env : GoEnv} `{oneofs : !OneofEmitters}.

(** The iteration of the loop over the fields of the struct for a
    well-formed field outside a oneof: the leading comments of the field and
    one line with the Go name, the Go type, the tags and the deprecation
    comment. *)
Lemma genMessage_structField_emits (f : fileInfo) (message : Message) (field : Field) :
  wfField field = true ->
  fOneofType field = None ->
  exists goType pointer tag entryTags,
    fieldGoType field = Some (goType, pointer)
    /\ fieldProtobufTag field = Some tag
    /\ (if fdIsMap (fDesc field)
        then exists mt key val keyTag valTag,
               fMessageType field = Some mt
               /\ mrFields mt !! 0%nat = Some key /\ mrFields mt !! 1%nat = Some val
               /\ fieldProtobufTag key = Some keyTag
               /\ fieldProtobufTag val = Some valTag
               /\ entryTags = [ "protobuf_key:" +:+ strconv_Quote keyTag;
                                "protobuf_val:" +:+ strconv_Quote valTag ]
        else entryTags = [])
    /\ emits (genMessage_structField f message field) tt
         (map commentLine (leadingComment f (fPath field))
          ++ [ [ PStr (fGoName field); PStr " ";
                 PStr (if pointer then "*" +:+ goType else goType); PStr " `";
                 PStr (strings_Join
                         ([ "protobuf:" +:+ strconv_Quote tag;
                            "json:" +:+ strconv_Quote (fdName (fDesc field) +:+ ",omitempty") ]
                          ++ entryTags) " ");
                 PStr "`"; PStr (deprecationComment (fDeprecated field)) ] ]).
Proof.
  intros Hwf Honeof.
  destruct (wfField_fieldGoType field Hwf) as [[goType pointer] Htype].
  destruct (wfField_fieldProtobufTag field Hwf) as [tag Htag].
  destruct (genComment_leadingComment f (fPath field)) as [hasComment Hcomment].
  exists goType, pointer, tag.
  unfold genMessage_structField. rewrite Honeof.
  destruct (fdIsMap (fDesc field)) eqn:Hmap.
  - destruct (wfField_map field Hwf Hmap)
      as (_ & mt & key & val & Hmt & Hkey & Hval & Hk & Hv).
    destruct (wfField_fieldProtobufTag key Hk) as [keyTag HkeyTag].
    destruct (wfField_fieldProtobufTag val Hv) as [valTag HvalTag].
    eexists. split; [done|]. split; [done|]. split.
    { exists mt, key, val, keyTag, valTag. repeat (split; [done|]). reflexivity. }
    eapply emits_bind; [exact Hcomment|].
    eapply emits_orPanic_bind; [exact Htype|]. cbn beta iota zeta.
    eapply emits_orPanic_bind; [exact Htag|]. cbn beta iota zeta.
    eapply (emits_bind _ _ _ tt [] [_]); [|apply emits_P].
    eapply emits_orPanic_bind; [exact Hmt|].
    eapply emits_orPanic_bind; [exact Hkey|].
    eapply emits_orPanic_bind; [exact Hval|].
    eapply emits_orPanic_bind; [exact HkeyTag|].
    eapply emits_orPanic_bind; [exact HvalTag|]. apply emits_ret.
  - exists []. split; [done|]. split; [done|]. split; [done|].
    eapply emits_bind; [exact Hcomment|].
    eapply emits_orPanic_bind; [exact Htype|]. cbn beta iota zeta.
    eapply emits_orPanic_bind; [exact Htag|]. cbn beta iota zeta.
    eapply (emits_bind _ _ _ tt [] [_]); [apply emits_ret|apply emits_P].
Qed.

(** X22: for a well-formed extension genExtension prints the nine lines of
    its ExtensionDesc. The Name is the full name of the extension, less its
    last component exactly when the extension is declared in a message,
    extends a message with the message-set wire format and has the name
    message_set_extension. *)
Theorem genExtension_block (f : fileInfo) (extension : Extension) :
  wfExtension extension = true ->
  exists extended goType pointer tag isElement,
    fExtendedType extension = Some extended
    /\ fieldGoType extension = Some (goType, pointer)
    /\ fieldProtobufTag extension = Some tag
    /\ (isElement = true <->
        is_Some (fParentMessage extension)
        /\ mrMessageSetWireFormat extended = true
        /\ fdName (fDesc extension) = "message_set_extension")
    /\ emits (genExtension f extension) tt
         [ [ PStr "var "; PIdent (extensionVar f extension); PStr " = &";
             PIdent (protoIdent "ExtensionDesc"); PStr "{" ];
           [ PStr "ExtendedType: (*"; PIdent (mrGoIdent extended); PStr ")(nil)," ];
           [ PStr "ExtensionType: (";
             PStr (if pointer then "*" +:+ goType else goType); PStr ")(nil)," ];
           [ PStr "Field: "; PInt (fdNumber (fDesc extension)); PStr "," ];
           [ PStr "Name: ";
             PStr (strconv_Quote
                     (if isElement then FullName_Parent (fdFullName (fDesc extension))
                      else fdFullName (fDesc extension)));
             PStr "," ];
           [ PStr "Tag: "; PStr (strconv_Quote tag); PStr "," ];
           [ PStr "Filename: "; PStr (strconv_Quote (fileDescPath (fiFile f))); PStr "," ];
           [ PStr "}" ];
           [] ].
Proof.
  intros Hwf.
  destruct (wfExtension_isElement extension Hwf) as (extended & isElement & He & His).
  apply andb_prop in Hwf. destruct Hwf as [Hwf _].
  destruct (wfField_fieldGoType extension Hwf) as [[goType pointer] Htype].
  destruct (wfField_fieldProtobufTag extension Hwf) as [tag Htag].
  exists extended, goType, pointer, tag, isElement.
  repeat (split; [done|]). split.
  { unfold isExtensionMessageSetElement in His. rewrite He in His.
    destruct (fParentMessage extension) as [parent|]; simpl in His.
    - injection His as <-. rewrite andb_true_iff, String.eqb_eq.
      split; [intros [? ?]; eauto|]. by intros (_ & ? & ?).
    - injection His as <-. split; [done|]. by intros ([? ?] & _). }
  unfold genExtension.
  eapply emits_orPanic_bind; [exact His|]. cbn beta iota zeta.
  eapply (emits_bind _ _ tt tt [_] _); [apply emits_P|].
  eapply emits_orPanic_bind; [exact He|].
  eapply (emits_bind _ _ tt tt [_] _); [apply emits_P|].
  eapply emits_orPanic_bind; [exact Htype|]. cbn beta iota zeta.
  eapply (emits_bind _ _ tt tt [_] _); [apply emits_P|].
  eapply (emits_bind _ _ tt tt [_] _); [apply emits_P|].
  eapply (emits_bind _ _ tt tt [_] _); [apply emits_P|].
  eapply emits_orPanic_bind; [exact Htag|].
  eapply (emits_bind _ _ tt tt [_] _); [apply emits_P|].
  eapply (emits_bind _ _ tt tt [_] _); [apply emits_P|].
  eapply (emits_bind _ _ tt tt [_] [_]); apply emits_P.
Qed.

(** The iteration of the loop over the getters for a well-formed repeated
    field outside a oneof. *)
Lemma genMessage_getter_repeated_lines (f : fileInfo) (message : Message) (field : Field) :
  wfField field = true ->
  fdCardinality (fDesc field) = Repeated ->
  fOneofType field = None ->
  exists goType,
    fieldGoType field = Some (goType, false)
    /\ fieldDefaultValue message field = Some "nil"
    /\ emits (genMessage_getter f message field) tt
         ((if fDeprecated field then [ [ PStr "// Deprecated: Do not use." ] ] else [])
          ++ [ [ PStr "func (m *"; PIdent (mGoIdent message); PStr ") Get";
                 PStr (fGoName field); PStr "() "; PStr goType; PStr " {" ];
               [ PStr "if m != nil {" ];
               [ PStr "return "; PStr ""; PStr " m."; PStr (fGoName field) ];
               [ PStr "}" ];
               [ PStr "return "; PStr "nil" ];
               [ PStr "}" ];
               [] ]).
Proof.
  intros Hwf Hcard Honeof.
  destruct (wfField_fieldGoType field Hwf) as [[goType pointer] Htype].
  assert (pointer = false) as ->
    by (eapply fieldGoType_pointer_false; [right; exact Hcard|exact Htype]).
  assert (Hdv : fieldDefaultValue message field = Some "nil").
  { unfold fieldDefaultValue. cbv zeta. by rewrite decide_True. }
  exists goType. repeat (split; [done|]).
  unfold genMessage_getter, genMessage_getterGuard. rewrite Honeof.
  eapply (emits_bind _ _ tt tt [] _); [apply emits_ret|].
  eapply emits_orPanic_bind; [exact Htype|]. cbn beta iota zeta.
  eapply emits_orPanic_bind; [exact Hdv|]. cbn beta iota zeta.
  eapply (emits_bind _ _ tt tt _ _).
  { destruct (fDeprecated field); [apply emits_when_true, emits_P|apply emits_when_false]. }
  eapply (emits_bind _ _ tt tt [_] _); [apply emits_P|].
  eapply (emits_bind _ _ tt tt [_; _; _] _).
  { rewrite orb_true_r.
    eapply (emits_bind _ _ tt tt [_] _); [apply emits_P|].
    eapply (emits_bind _ _ tt tt [_] [_]); apply emits_P. }
  eapply (emits_bind _ _ tt tt [_] _); [apply emits_P|].
  eapply (emits_bind _ _ tt tt [_] [_]); apply emits_P.
Qed.

End BlockFacts.

Section FurtherWitnesses.
Import Demo.

Lemma locationMap_lookup_witness :
  locationMap Sample.info !! pathKey [2]
  = Some [ mkLocation [2] None;
           mkLocation [2] (Some Sample.packageComments);
           mkLocation [2] (Some " A later comment.") ]
  /\ locationMap Sample.info !! pathKey [7] = None.
Proof.
  split.
  - exact (locationMap_lookup Sample.file Sample.info [2] eq_refl).
  - exact (locationMap_lookup Sample.file Sample.info [7] eq_refl).
Defined.

Lemma genComment_first_commented_witness :
  emits (genComment Sample.info [2]) true
    [ commentLine " Package demo is a sample."; commentLine " It has one message." ]
  /\ (forall st, genComment Sample.info [7] st = Some (false, st)).
Proof.
  split.
  - exact (proj1 (genComment_first_commented Sample.file Sample.info [2] eq_refl)).
  - exact (proj2 (genComment_first_commented Sample.file Sample.info [7] eq_refl) eq_refl).
Defined.

Lemma genComment_lines_roundtrip_witness :
  exists lines,
    emits (genComment Sample.info [2]) true (map commentLine lines)
    /\ strings_Join lines (String newline "")
       = strings_TrimSuffix_newline Sample.packageComments
    /\ Forall (fun line => newline ∉ String.list_ascii_of_string line) lines.
Proof.
  exact (genComment_lines_roundtrip Sample.info [2] Sample.packageComments eq_refl).
Defined.

Lemma fieldGoType_pointer_iff_witness :
  fdSyntax (fDesc nameField) <> Proto3
  /\ fdCardinality (fDesc nameField) <> Repeated
  /\ fdKind (fDesc nameField) <> BytesKind
  /\ isMessageOrGroup (fdKind (fDesc nameField)) = false.
Proof.
  exact (proj1 (fieldGoType_pointer_iff nameField "string" true eq_refl) eq_refl).
Defined.

Lemma fieldGoType_repeated_witness :
  fieldGoType (withCardinality Repeated nameField) = Some ("[]string", false).
Proof. exact (fieldGoType_repeated nameField "string" true eq_refl). Defined.

Lemma genImport_public_witness :
  genImport Sample.plugin Sample.info Sample.publicImport start
  = Some (tt, addLines (imported Sample.depPath start)
                (flat_map (messageAliases Sample.publicImport) [Sample.outer; Sample.inner]
                 ++ flat_map (enumAliases Sample.publicImport)
                      [Sample.unitEnum; Sample.kindEnum])).
Proof.
  apply (genImport_public Sample.plugin Sample.info Sample.publicImport Sample.dep start);
    [reflexivity|discriminate|reflexivity].
Defined.

Lemma genInitFunction_silent_iff_witness :
  exists lines,
    emits (genInitFunction info) tt lines
    /\ (lines = [] <-> allMessages info = [] /\ allEnums info = [] /\ allExtensions info = [])
    /\ (lines <> [] ->
        exists body, lines = [PStr "func init() {"] :: body ++ [ [PStr "}"]; [] ]).
Proof. exact (genInitFunction_silent_iff info eq_refl merge_sort_sortsBy). Defined.

Lemma genRegisterExtension_file_level_witness :
  isExtensionMessageSetElement weightExt = Some false
  /\ extensionVar info weightExt = mkGoIdent "E_Weight" goPath
  /\ emits (genRegisterExtension info weightExt) tt
       [ [ PIdent (protoIdent "RegisterExtension"); PStr "(";
           PIdent (mkGoIdent "E_Weight" goPath); PStr ")" ] ].
Proof. exact (genRegisterExtension_file_level info weightExt eq_refl). Defined.

Lemma empty_string_default_witness :
  (exists tokens,
      fieldProtobufTag noteField = Some (strings_Join (tokens ++ ["def="]) ","))
  /\ emits (genMessage_defaultVar msg noteField) tt []
  /\ fieldDefaultValue msg noteField = Some (dq +:+ dq).
Proof.
  apply (empty_string_default msg noteField); [reflexivity..|discriminate].
Defined.

Lemma oddIndexes_pairs_witness : oddIndexes [4; 0; 3; 1; 2] = [0; 1].
Proof. apply (oddIndexes_pairs [(4, 0); (3, 1)] [2]). simpl. lia. Defined.

Lemma GenerateFile_preamble_witness :
  exists st' rest,
    GenerateFile Sample.plugin Sample.file start = Some (tt, st')
    /\ gBuf st' = gBuf start ++ preamble Sample.file ++ rest.
Proof.
  exact (GenerateFile_preamble Sample.plugin Sample.file start eq_refl merge_sort_sortsBy).
Defined.

Lemma genWellKnownType_package_witness :
  emits (genWellKnownType "*" (mGoIdent msg) "demo.Msg" "Msg") tt [].
Proof. exact (genWellKnownType_package "*" (mGoIdent msg) "demo.Msg" "Msg" eq_refl). Defined.

Lemma genExtension_block_witness :
  exists extended goType pointer tag isElement,
    fExtendedType Sample.element = Some extended
    /\ fieldGoType Sample.element = Some (goType, pointer)
    /\ fieldProtobufTag Sample.element = Some tag
    /\ (isElement = true <->
        is_Some (fParentMessage Sample.element)
        /\ mrMessageSetWireFormat extended = true
        /\ fdName (fDesc Sample.element) = "message_set_extension")
    /\ emits (genExtension info Sample.element) tt
         [ [ PStr "var "; PIdent (mkGoIdent "E_Item_MessageSetExtension" goPath);
             PStr " = &"; PIdent (protoIdent "ExtensionDesc"); PStr "{" ];
           [ PStr "ExtendedType: (*"; PIdent (mrGoIdent extended); PStr ")(nil)," ];
           [ PStr "ExtensionType: (";
             PStr (if pointer then "*" +:+ goType else goType); PStr ")(nil)," ];
           [ PStr "Field: "; PInt 4; PStr "," ];
           [ PStr "Name: ";
             PStr (strconv_Quote
                     (if isElement then "demo.Item"
                      else "demo.Item.message_set_extension"));
             PStr "," ];
           [ PStr "Tag: "; PStr (strconv_Quote tag); PStr "," ];
           [ PStr "Filename: "; PStr (strconv_Quote "demo.proto"); PStr "," ];
           [ PStr "}" ];
           [] ].
Proof. exact (genExtension_block info Sample.element eq_refl). Defined.

End FurtherWitnesses.

(** ** What genEnum and genMessage print *)

Section EntityFacts.
Context `{env : GoEnv} `{oneofs : !OneofEmitters}.

Lemma emits_when (b : bool) (m : Gen unit) (ls : list Line) :
  emits m tt ls -> emits (when b m) tt (if b then ls else []).
Proof. destruct b; [apply emits_when_true|intros _; apply emits_when_false]. Qed.

Lemma emits_genComment (f : fileInfo) (path : list Z) :
  emits (genComment f path) (hasLeadingComment f path)
    (map commentLine (leadingComment f path)).
Proof.
  pose proof (genComment_emits f path) as H. cbv zeta in H.
  unfold hasLeadingComment, leadingComment. by destruct (firstCommented _).
Qed.

Lemma emits_genWellKnownType (ptr : string) (ident : GoIdent) (fullName name : string) :
  emits (genWellKnownType ptr ident fullName name) tt
    (if wellKnownTypes fullName
     then [ [ PStr "func ("; PStr ptr; PIdent ident;
              PStr (") XXX_WellKnownType() string { return " +:+ dq);
              PStr name; PStr (dq +:+ " }") ];
            [] ]
     else []).
Proof.
  unfold genWellKnownType. apply emits_when.
  eapply (emits_bind _ _ tt tt [_] [_]); apply emits_P.
Qed.

(** What genEnum prints: the opening, the two tables and the methods. *)
Lemma genEnum_emits (f : fileInfo) (enum : Enum) :
  emits (genEnum f enum) tt
    (enumOpening f enum ++ nameTable enum ++ valueTable enum ++ enumMethods f enum).
Proof.
  destruct (genEnum_tables_emits enum) as (Hname & Hvalue & _). cbv zeta in Hname, Hvalue.
  fold (nameTable enum) in Hname. fold (valueTable enum) in Hvalue.
  unfold genEnum, enumOpening. rewrite <- !app_assoc.
  eapply emits_bind; [apply emits_genComment|].
  eapply (emits_bind _ _ tt tt [_] _); [apply emits_P|].
  eapply (emits_bind _ _ tt tt [_] _); [apply emits_P|].
  eapply emits_bind.
  { clear Hname Hvalue.
    induction (eValues enum) as [|value rest IH]; cbn [forRange flat_map];
      [apply emits_ret|].
    eapply emits_bind; [|exact IH].
    eapply emits_bind; [apply emits_genComment|apply emits_P]. }
  eapply (emits_bind _ _ tt tt [_] _); [apply emits_P|].
  eapply (emits_bind _ _ tt tt [_] _); [apply emits_P|].
  eapply emits_bind; [exact Hname|].
  eapply emits_bind; [exact Hvalue|].
  unfold enumMethods.
  eapply emits_bind.
  { apply emits_when.
    do 5 (eapply (emits_bind _ _ tt tt [_] _); [apply emits_P|]). apply emits_P. }
  do 4 (eapply (emits_bind _ _ tt tt [_] _); [apply emits_P|]).
  eapply emits_bind.
  { apply emits_when.
    do 8 (eapply (emits_bind _ _ tt tt [_] _); [apply emits_P|]). apply emits_P. }
  cbv zeta.
  do 4 (eapply (emits_bind _ _ tt tt [_] _); [apply emits_P|]).
  apply emits_genWellKnownType.
Qed.

Lemma wfField_structField_emits (f : fileInfo) (message : Message) (field : Field) :
  wfField field = true ->
  exists ls, emits (genMessage_structField f message field) tt ls.
Proof.
  intros Hwf. destruct (fOneofType field) as [oneof|] eqn:Honeof.
  - destruct (wfField_oneof field oneof Hwf Honeof) as [first Hfirst].
    unfold genMessage_structField. rewrite Honeof.
    eexists. eapply emits_orPanic_bind; [unfold isFirstOfOneof; by rewrite Hfirst|].
    apply emits_when, emits_emitLines.
  - destruct (genMessage_structField_emits f message field Hwf Honeof)
      as (goType & pointer & tag & entryTags & _ & _ & _ & H). eauto.
Qed.

Lemma wfField_defaultVar_emits (message : Message) (field : Field) :
  wfField field = true ->
  exists ls, emits (genMessage_defaultVar message field) tt ls.
Proof.
  intros Hwf. unfold genMessage_defaultVar.
  destruct (wfField_fieldHasDefault field Hwf) as [hasDefault Hhas].
  destruct hasDefault; simpl;
    [|eexists; eapply emits_orPanic_bind; [exact Hhas|]; apply emits_ret].
  assert (Hdef : fdHasDefault (fDesc field) = true).
  { unfold fieldHasDefault in Hhas. by destruct (fdHasDefault (fDesc field)). }
  pose proof (wfField_default field Hwf) as Hwfd. unfold wfDefault in Hwfd.
  rewrite Hdef in Hwfd. simpl in Hwfd.
  destruct (wfField_fieldGoType field Hwf) as [[goType pointer] Htype].
  destruct (fdKind (fDesc field)) eqn:Hk;
    try (eexists; eapply emits_orPanic_bind; [exact Hhas|]; simpl;
         eapply emits_orPanic_bind; [exact Htype|]; simpl; apply emits_P).
  - (* enum *)
    destruct (fdDefault (fDesc field)) as [| | | | | | | | | |n]; try discriminate.
    destruct (wfField_enum field Hwf Hk) as (enum & He & Hwfe).
    rewrite He in Hwfd. apply bool_decide_eq_true in Hwfd.
    destruct (ByNumber_Index_lookup _ _ Hwfd) as (index & value & Hindex & Hvalue).
    eexists. eapply emits_orPanic_bind; [exact Hhas|]. simpl.
    eapply emits_orPanic_bind; [exact He|].
    eapply emits_orPanic_bind; [reflexivity|].
    eapply emits_orPanic_bind; [exact Hindex|].
    eapply emits_orPanic_bind; [exact Hvalue|]. apply emits_P.
  - (* float *)
    destruct (fdDefault (fDesc field)) as [| | | | | |x| | | |]; try discriminate.
    destruct (math_IsInf x (-1)) eqn:Hneg; [|destruct (math_IsInf x 1) eqn:Hpos;
                                              [|destruct (math_IsNaN x) eqn:Hnan]];
      eexists; (eapply emits_orPanic_bind; [exact Hhas|]); simpl;
      (eapply emits_orPanic_bind; [reflexivity|]); simpl;
      rewrite ?Hneg, ?Hpos, ?Hnan; apply emits_P.
  - (* double *)
    destruct (fdDefault (fDesc field)) as [| | | | | | |x| | |]; try discriminate.
    destruct (math_IsInf x (-1)) eqn:Hneg; [|destruct (math_IsInf x 1) eqn:Hpos;
                                              [|destruct (math_IsNaN x) eqn:Hnan]];
      eexists; (eapply emits_orPanic_bind; [exact Hhas|]); simpl;
      (eapply emits_orPanic_bind; [reflexivity|]); simpl;
      rewrite ?Hneg, ?Hpos, ?Hnan; apply emits_P.
  - (* string *)
    eexists. eapply emits_orPanic_bind; [exact Hhas|]. simpl. apply emits_P.
  - (* bytes *)
    destruct (fdDefault (fDesc field)) as [| | | | | | | | |b|]; try discriminate.
    eexists. eapply emits_orPanic_bind; [exact Hhas|]. simpl.
    eapply emits_orPanic_bind; [reflexivity|]. apply emits_P.
Qed.

Lemma wfField_getter_emits (f : fileInfo) (message : Message) (field : Field) :
  wfField field = true ->
  exists ls, emits (genMessage_getter f message field) tt ls.
Proof.
  intros Hwf.
  destruct (genMessage_getter_emits f message field Hwf)
    as (goType & pointer & defaultValue & _ & _ & H). cbv zeta in H.
  destruct (fOneofType field) as [oneof|].
  - destruct H as (isFirst & _ & H). eauto.
  - destruct H as [H _]. eauto.
Qed.

Lemma wfExtension_genExtension_emits (f : fileInfo) (extension : Extension) :
  wfExtension extension = true ->
  exists ls, emits (genExtension f extension) tt ls.
Proof.
  intros Hwf.
  destruct (genExtension_block f extension Hwf)
    as (extended & goType & pointer & tag & isElement & _ & _ & _ & _ & H). eauto.
Qed.

Lemma emits_forRange_loop {A} (body : A -> Gen unit) (l : list A) :
  (forall x, x ∈ l -> exists ls, emits (body x) tt ls) ->
  exists lss, Forall2 (fun x ls => emits (body x) tt ls) l lss
              /\ emits (forRange l body) tt (concat lss).
Proof.
  intros H. apply (emits_forRange_rel (fun x ls => emits (body x) tt ls)).
  intros x Hin. destruct (H x Hin) as [ls Hls]. eauto.
Qed.

(** What genMessage prints for a message that is not a map entry and whose
    fields and extensions are well-formed: the opening, the lines of the
    struct, the methods, the holders, the getters, the functions of the
    oneofs and the extensions. *)
Lemma genMessage_emits (f : fileInfo) (message : Message) :
  mIsMapEntry message = false ->
  forallb wfField (mFields message) = true ->
  forallb wfExtension (mExtensions message) = true ->
  exists structLines holderLines getterLines extensionLines,
    messageLoops f message structLines holderLines getterLines extensionLines
    /\ emits (genMessage f message) tt
         (messageLines f message structLines holderLines getterLines extensionLines).
Proof.
  intros Hentry Hfields Hexts. rewrite forallb_forall in Hfields, Hexts.
  assert (Hfield : forall field, field ∈ mFields message -> wfField field = true)
    by (intros field Hin; by apply Hfields, list_elem_of_In).
  assert (Hext : forall x, x ∈ mExtensions message -> wfExtension x = true)
    by (intros x Hin; by apply Hexts, list_elem_of_In).
  clear Hfields Hexts.
  destruct (emits_forRange_loop (genMessage_structField f message) (mFields message))
    as (structLines & HFstruct & Hstruct);
    [intros field Hin; by apply wfField_structField_emits, Hfield|].
  destruct (emits_forRange_loop (genMessage_defaultVar message) (mFields message))
    as (holderLines & HFholder & Hholder);
    [intros field Hin; by apply wfField_defaultVar_emits, Hfield|].
  destruct (emits_forRange_loop (genMessage_getter f message) (mFields message))
    as (getterLines & HFgetter & Hgetter);
    [intros field Hin; by apply wfField_getter_emits, Hfield|].
  destruct (emits_forRange_loop (genExtension f) (mExtensions message))
    as (extensionLines & HFext & Hextension);
    [intros x Hin; by apply wfExtension_genExtension_emits, Hext|].
  exists structLines, holderLines, getterLines, extensionLines.
  split; [done|].
  unfold genMessage. rewrite Hentry.
  unfold messageLines, messageOpening. rewrite <- !app_assoc.
  eapply emits_bind; [apply emits_genComment|].
  eapply emits_bind.
  { apply emits_when. eapply emits_bind; [apply emits_when, emits_P|apply emits_P]. }
  eapply (emits_bind _ _ tt tt [_] _); [apply emits_P|].
  eapply emits_bind; [exact Hstruct|].
  unfold messageMethods. cbv zeta. rewrite <- !app_assoc.
  eapply (emits_bind _ _ tt tt [_] _); [apply emits_P|].
  eapply emits_bind; [apply emits_when, emits_P|].
  do 4 (eapply (emits_bind _ _ tt tt [_] _); [apply emits_P|]).
  do 7 (eapply (emits_bind _ _ tt tt [_] _); [apply emits_P|]).
  eapply emits_bind.
  { apply emits_when.
    eapply emits_bind.
    { apply emits_when.
      do 6 (eapply (emits_bind _ _ tt tt [_] _); [apply emits_P|]). apply emits_P. }
    eapply (emits_bind _ _ tt tt [_] _); [apply emits_P|].
    eapply emits_bind; [apply (emits_forRange_map _ rangeLine); intros; apply emits_P|].
    do 5 (eapply (emits_bind _ _ tt tt [_] _); [apply emits_P|]). apply emits_P. }
  eapply emits_bind; [apply emits_genWellKnownType|].
  do 18 (eapply (emits_bind _ _ tt tt [_] _); [apply emits_P|]).
  eapply emits_bind; [exact Hholder|].
  eapply (emits_bind _ _ tt tt [_] _); [apply emits_P|].
  eapply emits_bind; [exact Hgetter|].
  eapply emits_bind; [apply emits_when, emits_emitLines|].
  exact Hextension.
Qed.

End EntityFacts.

Section PrintedEntities.
Context `{env : GoEnv} `{oneofs : !OneofEmitters}.

Lemma emits_inj {A} (m : Gen A) (a a' : A) (ls ls' : list Line) :
  emits m a ls -> emits m a' ls' -> ls = ls'.
Proof.
  intros H H'. specialize (H (mkGenState [] ∅ [])). rewrite H' in H.
  by injection H.
Qed.

(** In what the loops of genMessage print, the lists at the index of a
    field are what the iterations for that field print. *)
Lemma messageLoops_lookup (f : fileInfo) (message : Message)
    (structLines holderLines getterLines extensionLines : list (list Line))
    (i : nat) (field : Field) :
  messageLoops f message structLines holderLines getterLines extensionLines ->
  mFields message !! i = Some field ->
  (forall ls, emits (genMessage_structField f message field) tt ls ->
     structLines !! i = Some ls)
  /\ (forall ls, emits (genMessage_defaultVar message field) tt ls ->
        holderLines !! i = Some ls)
  /\ (forall ls, emits (genMessage_getter f message field) tt ls ->
        getterLines !! i = Some ls).
Proof.
  intros (Hs & Hh & Hg & _) Hi. repeat split; intros ls Hls.
  - destruct (Forall2_lookup_l _ _ _ _ _ Hs Hi) as (ls' & -> & Hls').
    f_equal. exact (emits_inj _ _ _ _ _ Hls' Hls).
  - destruct (Forall2_lookup_l _ _ _ _ _ Hh Hi) as (ls' & -> & Hls').
    f_equal. exact (emits_inj _ _ _ _ _ Hls' Hls).
  - destruct (Forall2_lookup_l _ _ _ _ _ Hg Hi) as (ls' & -> & Hls').
    f_equal. exact (emits_inj _ _ _ _ _ Hls' Hls).
Qed.

Lemma wfField_lookup (fields : list Field) (i : nat) (field : Field) :
  forallb wfField fields = true -> fields !! i = Some field -> wfField field = true.
Proof.
  rewrite forallb_forall. intros H Hi. apply H, list_elem_of_In.
  by eapply list_elem_of_lookup_2.
Qed.

(** C8: genEnum prints, after the type and its constants and before the
    methods, the two tables of the enum. The number-to-name table has one
    entry for every declared value, in declaration order; the entry of a
    value whose number repeats that of an earlier value is printed behind
    the duplicate comment, so that the first value of a number gives it its
    name. The name-to-number table has one entry for every declared value,
    keyed by the name of the value, and none is left out or marked. *)
Theorem genEnum_tables (f : fileInfo) (enum : Enum) :
  let values := eValues enum in
  let goName := GoName (eGoIdent enum) in
  emits (genEnum f enum) tt
    (enumOpening f enum
     ++ ([ [PStr "var "; PStr (goName +:+ "_name"); PStr " = map[int32]string{"] ]
         ++ imap (fun i value => nameMapLine (repeatsEarlier values i) value) values
         ++ [ [PStr "}"]; [] ])
     ++ ([ [PStr "var "; PStr (goName +:+ "_value"); PStr " = map[string]int32{"] ]
         ++ map valueMapLine values
         ++ [ [PStr "}"]; [] ])
     ++ enumMethods f enum)
  /\ (forall i value, values !! i = Some value ->
        (repeatsEarlier values i = true <->
         exists j earlier, (j < i)%nat /\ values !! j = Some earlier
                           /\ evNumber earlier = evNumber value)).
Proof.
  intros values goName. split; [exact (genEnum_emits f enum)|].
  destruct (genEnum_tables_emits enum) as (_ & _ & H). exact H.
Qed.

(** C4: in what genMessage prints for a message, the holder of the default
    of a float or double field whose declared default is -Inf, +Inf or NaN
    is one line, a var initialised by a call of math.Inf or math.NaN, never
    by the value itself as a literal, and for a float field the call is
    converted to float32. *)
Theorem genMessage_defaultVar_special (f : fileInfo) (message : Message) (i : nat)
    (field : Field) (x : float64) (fn param : string) :
  mIsMapEntry message = false ->
  forallb wfField (mFields message) = true ->
  forallb wfExtension (mExtensions message) = true ->
  mFields message !! i = Some field ->
  fdKind (fDesc field) = FloatKind \/ fdKind (fDesc field) = DoubleKind ->
  fdHasDefault (fDesc field) = true ->
  Value_Float (fdDefault (fDesc field)) = Some x ->
  specialFloat x = Some (fn, param) ->
  let holder := "Default_" +:+ GoName (mGoIdent message) +:+ "_" +:+ fGoName field in
  let call := QualifiedGoIdent (mkGoIdent fn "math") +:+ param in
  exists structLines holderLines getterLines extensionLines,
    messageLoops f message structLines holderLines getterLines extensionLines
    /\ emits (genMessage f message) tt
         (messageLines f message structLines holderLines getterLines extensionLines)
    /\ holderLines !! i
       = Some [ if decide (fdKind (fDesc field) = FloatKind)
                then [ PStr "var "; PStr holder; PStr " "; PStr "float32"; PStr " = ";
                       PStr ("float32(" +:+ call +:+ ")") ]
                else [ PStr "var "; PStr holder; PStr " "; PStr "float64"; PStr " = ";
                       PStr call ] ].
Proof.
  intros Hentry Hfields Hexts Hi Hkind Hdef Hx Hspecial holder call.
  destruct (genMessage_emits f message Hentry Hfields Hexts)
    as (structLines & holderLines & getterLines & extensionLines & Hloops & Hemits).
  exists structLines, holderLines, getterLines, extensionLines.
  split; [done|]. split; [done|].
  destruct (messageLoops_lookup _ _ _ _ _ _ i field Hloops Hi) as (_ & Hholder & _).
  apply Hholder.
  exact (genMessage_defaultVar_special_line message field x fn param Hkind Hdef Hx Hspecial).
Qed.

(** X12: in what genMessage prints for a message, the holder of the default
    of an enum field is one line, a constant set to the first declared value
    that has the number of the default, so among values that share a number
    the one declared first names the default. *)
Theorem enum_default_holder (f : fileInfo) (message : Message) (i : nat)
    (field : Field) (enum : Enum) (n : Z) :
  mIsMapEntry message = false ->
  forallb wfField (mFields message) = true ->
  forallb wfExtension (mExtensions message) = true ->
  mFields message !! i = Some field ->
  fdKind (fDesc field) = EnumKind ->
  fdHasDefault (fDesc field) = true ->
  fdDefault (fDesc field) = VEnum n ->
  fEnumType field = Some enum ->
  exists index value structLines holderLines getterLines extensionLines,
    eValues enum !! index = Some value
    /\ evNumber value = n
    /\ (forall j other, (j < index)%nat -> eValues enum !! j = Some other ->
          evNumber other <> n)
    /\ messageLoops f message structLines holderLines getterLines extensionLines
    /\ emits (genMessage f message) tt
         (messageLines f message structLines holderLines getterLines extensionLines)
    /\ holderLines !! i
       = Some [ [ PStr "const ";
                  PStr ("Default_" +:+ GoName (mGoIdent message) +:+ "_"
                        +:+ fGoName field);
                  PStr " "; PIdent (eGoIdent enum); PStr " = ";
                  PIdent (evGoIdent value) ] ].
Proof.
  intros Hentry Hfields Hexts Hi Hk Hd Hv He.
  destruct (genMessage_emits f message Hentry Hfields Hexts)
    as (structLines & holderLines & getterLines & extensionLines & Hloops & Hemits).
  destruct (enum_default_holder_line message field enum n
              (wfField_lookup _ _ _ Hfields Hi) Hk Hd Hv He)
    as (index & value & Hvalue & Hn & Hfirst & Hline).
  exists index, value, structLines, holderLines, getterLines, extensionLines.
  repeat (split; [done|]).
  destruct (messageLoops_lookup _ _ _ _ _ _ i field Hloops Hi) as (_ & Hholder & _).
  by apply Hholder.
Qed.

Lemma app_middle {A} (l1 l2 l3 l4 : list A) (v : A) (m : list A) (c : A)
    (l5 l6 l7 : list A) :
  l1 ++ l2 ++ l3 ++ (l4 ++ [v] ++ m ++ c :: l5) ++ l6 ++ l7
  = (l1 ++ l2 ++ l3 ++ l4) ++ [v] ++ m ++ [c] ++ (l5 ++ l6 ++ l7).
Proof. by rewrite <- !app_assoc. Qed.

(** The table of the extension ranges among the methods of a message. *)
Lemma messageMethods_ranges (f : fileInfo) (message : Message) :
  mExtensionRanges message <> [] ->
  exists before after,
    messageMethods f message
    = before
      ++ [ [ PStr "var "; PStr ("extRange_" +:+ GoName (mGoIdent message)); PStr " = []";
             PIdent (protoIdent "ExtensionRange"); PStr " {" ] ]
      ++ map rangeLine (mExtensionRanges message)
      ++ [ [ PStr "}" ] ]
      ++ after.
Proof.
  intros Hsome.
  assert (Hext : bool_decide (0 < length (mExtensionRanges message))%nat = true).
  { apply bool_decide_eq_true. destruct (mExtensionRanges message); [done|simpl; lia]. }
  unfold messageMethods. cbv zeta. rewrite Hext.
  eexists _, _. apply app_middle.
Qed.

(** X14: for a message with extension ranges genMessage prints the table
    of the ranges, one line for each range behind the opening of the var.
    The End printed for a range is its last number: for a range of int32
    numbers that is not empty it is the end less one, without wrapping
    around, and a number is in the range exactly when it lies between the
    Start and the End printed. *)
Theorem extension_range_inclusive (f : fileInfo) (message : Message) :
  mIsMapEntry message = false ->
  forallb wfField (mFields message) = true ->
  forallb wfExtension (mExtensions message) = true ->
  mExtensionRanges message <> [] ->
  Forall (fun r => - 2 ^ 31 <= r.1 /\ r.1 < r.2 /\ r.2 < 2 ^ 31) (mExtensionRanges message) ->
  exists before after,
    emits (genMessage f message) tt
      (before
       ++ [ [ PStr "var "; PStr ("extRange_" +:+ GoName (mGoIdent message)); PStr " = []";
              PIdent (protoIdent "ExtensionRange"); PStr " {" ] ]
       ++ map (fun r => [ PStr "{Start:"; PInt r.1; PStr ", End:"; PInt (r.2 - 1);
                          PStr "}," ])
            (mExtensionRanges message)
       ++ [ [ PStr "}" ] ]
       ++ after)
    /\ Forall (fun r => forall n, r.1 <= n < r.2 <-> r.1 <= n <= r.2 - 1)
         (mExtensionRanges message).
Proof.
  intros Hentry Hfields Hexts Hsome Hvalid.
  destruct (genMessage_emits f message Hentry Hfields Hexts)
    as (structLines & holderLines & getterLines & extensionLines & Hloops & Hemits).
  destruct (messageMethods_ranges f message Hsome) as (before & after & Hmethods).
  assert (Hlines : map rangeLine (mExtensionRanges message)
                   = map (fun r => [ PStr "{Start:"; PInt r.1; PStr ", End:";
                                     PInt (r.2 - 1); PStr "}," ])
                       (mExtensionRanges message)).
  { apply map_ext_in. intros r Hin. rewrite Forall_forall in Hvalid.
    destruct (Hvalid r (proj2 (list_elem_of_In _ _) Hin)) as (Hlo & Hlt & Hhi).
    unfold rangeLine.
    by destruct (wrap_int32_inclusive r.1 r.2 0 Hlo Hlt Hhi) as [-> _]. }
  rewrite Hlines in Hmethods. clear Hlines.
  unfold messageLines in Hemits. rewrite Hmethods in Hemits. clear Hmethods.
  revert Hemits.
  generalize (messageOpening f message) (concat structLines) (concat holderLines)
    (concat getterLines) (concat extensionLines)
    (if bool_decide (0 < length (mOneofs message))%nat
     then genOneofFuncs f message else []).
  intros opening structs holders getters extensions funcs Hemits.
  exists (opening ++ structs ++ before),
    (after ++ holders ++ [ [] ] ++ getters ++ funcs ++ extensions).
  split.
  - rewrite <- !app_assoc in Hemits. rewrite <- !app_assoc. exact Hemits.
  - eapply Forall_impl; [exact Hvalid|]. intros r (Hlo & Hlt & Hhi) n. lia.
Qed.

(** X21: in what genMessage prints for a message, the lines of the struct
    for a well-formed field outside a oneof are the leading comments of the
    field and one line that holds the Go name, the Go type (behind a star
    when fieldGoType asks for a pointer), the tags and the deprecation
    comment. The tags are the protobuf tag and the json tag, which is made
    of the proto name of the field and not of its JSON name; a map field
    has two more, the protobuf tags of the key and of the value of its
    entry. *)
Theorem genMessage_structField_line (f : fileInfo) (message : Message) (i : nat)
    (field : Field) :
  mIsMapEntry message = false ->
  forallb wfField (mFields message) = true ->
  forallb wfExtension (mExtensions message) = true ->
  mFields message !! i = Some field ->
  fOneofType field = None ->
  exists goType pointer tag entryTags structLines holderLines getterLines extensionLines,
    fieldGoType field = Some (goType, pointer)
    /\ fieldProtobufTag field = Some tag
    /\ (if fdIsMap (fDesc field)
        then exists mt key val keyTag valTag,
               fMessageType field = Some mt
               /\ mrFields mt !! 0%nat = Some key /\ mrFields mt !! 1%nat = Some val
               /\ fieldProtobufTag key = Some keyTag
               /\ fieldProtobufTag val = Some valTag
               /\ entryTags = [ "protobuf_key:" +:+ strconv_Quote keyTag;
                                "protobuf_val:" +:+ strconv_Quote valTag ]
        else entryTags = [])
    /\ messageLoops f message structLines holderLines getterLines extensionLines
    /\ emits (genMessage f message) tt
         (messageLines f message structLines holderLines getterLines extensionLines)
    /\ structLines !! i
       = Some (map commentLine (leadingComment f (fPath field))
               ++ [ [ PStr (fGoName field); PStr " ";
                      PStr (if pointer then "*" +:+ goType else goType); PStr " `";
                      PStr (strings_Join
                              ([ "protobuf:" +:+ strconv_Quote tag;
                                 "json:" +:+ strconv_Quote
                                               (fdName (fDesc field) +:+ ",omitempty") ]
                               ++ entryTags) " ");
                      PStr "`"; PStr (deprecationComment (fDeprecated field)) ] ]).
Proof.
  intros Hentry Hfields Hexts Hi Honeof.
  destruct (genMessage_emits f message Hentry Hfields Hexts)
    as (structLines & holderLines & getterLines & extensionLines & Hloops & Hemits).
  destruct (genMessage_structField_emits f message field
              (wfField_lookup _ _ _ Hfields Hi) Honeof)
    as (goType & pointer & tag & entryTags & Htype & Htag & Hentries & Hline).
  exists goType, pointer, tag, entryTags, structLines, holderLines, getterLines,
    extensionLines.
  repeat (split; [done|]).
  destruct (messageLoops_lookup _ _ _ _ _ _ i field Hloops Hi) as (Hstruct & _ & _).
  by apply Hstruct.
Qed.

(** X23: in what genMessage prints for a message, the getter of a
    well-formed repeated field outside a oneof returns the slice or map as
    it is: its Go type has no pointer, the guard tests the receiver alone,
    the field is returned without a star, and the value for a nil receiver
    is nil, whatever the syntax, the kind and the default declared. *)
Theorem genMessage_getter_repeated (f : fileInfo) (message : Message) (i : nat)
    (field : Field) :
  mIsMapEntry message = false ->
  forallb wfField (mFields message) = true ->
  forallb wfExtension (mExtensions message) = true ->
  mFields message !! i = Some field ->
  fdCardinality (fDesc field) = Repeated ->
  fOneofType field = None ->
  exists goType structLines holderLines getterLines extensionLines,
    fieldGoType field = Some (goType, false)
    /\ fieldDefaultValue message field = Some "nil"
    /\ messageLoops f message structLines holderLines getterLines extensionLines
    /\ emits (genMessage f message) tt
         (messageLines f message structLines holderLines getterLines extensionLines)
    /\ getterLines !! i
       = Some ((if fDeprecated field
                then [ [ PStr "// Deprecated: Do not use." ] ] else [])
               ++ [ [ PStr "func (m *"; PIdent (mGoIdent message); PStr ") Get";
                      PStr (fGoName field); PStr "() "; PStr goType; PStr " {" ];
                    [ PStr "if m != nil {" ];
                    [ PStr "return "; PStr ""; PStr " m."; PStr (fGoName field) ];
                    [ PStr "}" ];
                    [ PStr "return "; PStr "nil" ];
                    [ PStr "}" ];
                    [] ]).
Proof.
  intros Hentry Hfields Hexts Hi Hcard Honeof.
  destruct (genMessage_emits f message Hentry Hfields Hexts)
    as (structLines & holderLines & getterLines & extensionLines & Hloops & Hemits).
  destruct (genMessage_getter_repeated_lines f message field
              (wfField_lookup _ _ _ Hfields Hi) Hcard Honeof)
    as (goType & Htype & Hdv & Hlines).
  exists goType, structLines, holderLines, getterLines, extensionLines.
  repeat (split; [done|]).
  destruct (messageLoops_lookup _ _ _ _ _ _ i field Hloops Hi) as (_ & _ & Hgetter).
  by apply Hgetter.
Qed.

(** X24: in what genMessage prints for a message, the getter of a
    well-formed field outside a oneof is printed whole, and its body tests
    the receiver against nil in the line before the one that reads the
    field, and returns the default of the unset field after the test. The
    test is on the receiver alone under proto3 or when that default is nil;
    otherwise, so for every pointer field whose default is not nil, it is
    on the receiver and on the field. *)
Theorem genMessage_getter_guard (f : fileInfo) (message : Message) (i : nat)
    (field : Field) :
  mIsMapEntry message = false ->
  forallb wfField (mFields message) = true ->
  forallb wfExtension (mExtensions message) = true ->
  mFields message !! i = Some field ->
  fOneofType field = None ->
  exists goType pointer defaultValue structLines holderLines getterLines extensionLines,
    fieldGoType field = Some (goType, pointer)
    /\ fieldDefaultValue message field = Some defaultValue
    /\ messageLoops f message structLines holderLines getterLines extensionLines
    /\ emits (genMessage f message) tt
         (messageLines f message structLines holderLines getterLines extensionLines)
    /\ let receiverOnly :=
          bool_decide (fdSyntax (fDesc field) = Proto3) || String.eqb defaultValue "nil" in
        getterLines !! i
        = Some ((if fDeprecated field
                 then [ [ PStr "// Deprecated: Do not use." ] ] else [])
                ++ [ [ PStr "func (m *"; PIdent (mGoIdent message); PStr ") Get";
                       PStr (fGoName field); PStr "() "; PStr goType; PStr " {" ];
                     (if receiverOnly
                      then [ PStr "if m != nil {" ]
                      else [ PStr "if m != nil && m."; PStr (fGoName field);
                             PStr " != nil {" ]);
                     [ PStr "return "; PStr (if pointer then "*" else ""); PStr " m.";
                       PStr (fGoName field) ];
                     [ PStr "}" ] ]
                ++ [ [ PStr "return "; PStr defaultValue ]; [ PStr "}" ]; [] ])
        /\ (pointer = true -> defaultValue <> "nil" -> receiverOnly = false).
Proof.
  intros Hentry Hfields Hexts Hi Honeof.
  destruct (genMessage_emits f message Hentry Hfields Hexts)
    as (structLines & holderLines & getterLines & extensionLines & Hloops & Hemits).
  destruct (genMessage_getter_emits f message field (wfField_lookup _ _ _ Hfields Hi))
    as (goType & pointer & defaultValue & Htype & Hdv & Hlines).
  cbv zeta in Hlines. rewrite Honeof in Hlines. destruct Hlines as [Hlines Hguard].
  exists goType, pointer, defaultValue, structLines, holderLines, getterLines,
    extensionLines.
  repeat (split; [done|]). cbv zeta. split; [|exact Hguard].
  destruct (messageLoops_lookup _ _ _ _ _ _ i field Hloops Hi) as (_ & _ & Hgetter).
  by apply Hgetter.
Qed.

End PrintedEntities.

Section EntityWitnesses.
Import Demo.

Lemma genMessage_defaultVar_special_witness :
  (exists structLines holderLines getterLines extensionLines,
      messageLoops info msg structLines holderLines getterLines extensionLines
      /\ emits (genMessage info msg) tt
           (messageLines info msg structLines holderLines getterLines extensionLines)
      /\ holderLines !! 2%nat
         = Some [ [ PStr "var "; PStr "Default_Msg_Low"; PStr " "; PStr "float32";
                    PStr " = "; PStr "float32(math.Inf(-1))" ] ])
  /\ (exists structLines holderLines getterLines extensionLines,
         messageLoops info msg structLines holderLines getterLines extensionLines
         /\ emits (genMessage info msg) tt
              (messageLines info msg structLines holderLines getterLines extensionLines)
         /\ holderLines !! 3%nat
            = Some [ [ PStr "var "; PStr "Default_Msg_High"; PStr " "; PStr "float64";
                       PStr " = "; PStr "math.Inf(1)" ] ]).
Proof.
  split.
  - exact (genMessage_defaultVar_special info msg 2 lowField (S754_infinity true)
             "Inf" "(-1)" eq_refl eq_refl eq_refl eq_refl (or_introl eq_refl)
             eq_refl eq_refl eq_refl).
  - exact (genMessage_defaultVar_special info msg 3 highField (S754_infinity false)
             "Inf" "(1)" eq_refl eq_refl eq_refl eq_refl (or_intror eq_refl)
             eq_refl eq_refl eq_refl).
Defined.

Lemma enum_default_holder_witness :
  exists index value structLines holderLines getterLines extensionLines,
    eValues color !! index = Some value
    /\ evNumber value = 1
    /\ (forall j other, (j < index)%nat -> eValues color !! j = Some other ->
          evNumber other <> 1)
    /\ messageLoops info Sample.shaded structLines holderLines getterLines extensionLines
    /\ emits (genMessage info Sample.shaded) tt
         (messageLines info Sample.shaded structLines holderLines getterLines
            extensionLines)
    /\ holderLines !! 0%nat
       = Some [ [ PStr "const "; PStr "Default_Shaded_Shade"; PStr " ";
                  PIdent (eGoIdent color); PStr " = "; PIdent (evGoIdent value) ] ].
Proof.
  exact (enum_default_holder info Sample.shaded 0 Sample.shadeField color 1
           eq_refl eq_refl eq_refl eq_refl eq_refl eq_refl eq_refl eq_refl).
Defined.

Lemma extension_range_inclusive_witness :
  exists before after,
    emits (genMessage info msg) tt
      (before
       ++ [ [ PStr "var "; PStr "extRange_Msg"; PStr " = []";
              PIdent (protoIdent "ExtensionRange"); PStr " {" ] ]
       ++ [ [ PStr "{Start:"; PInt 100; PStr ", End:"; PInt 199; PStr "}," ] ]
       ++ [ [ PStr "}" ] ]
       ++ after)
    /\ Forall (fun r => forall n, r.1 <= n < r.2 <-> r.1 <= n <= r.2 - 1) [(100, 200)].
Proof.
  apply (extension_range_inclusive info msg); [reflexivity..|discriminate|].
  constructor; [simpl; lia|constructor].
Defined.

Lemma genMessage_structField_line_witness :
  exists goType pointer tag entryTags structLines holderLines getterLines extensionLines,
    fieldGoType tagsField = Some (goType, pointer)
    /\ fieldProtobufTag tagsField = Some tag
    /\ (exists mt key val keyTag valTag,
           fMessageType tagsField = Some mt
           /\ mrFields mt !! 0%nat = Some key /\ mrFields mt !! 1%nat = Some val
           /\ fieldProtobufTag key = Some keyTag
           /\ fieldProtobufTag val = Some valTag
           /\ entryTags = [ "protobuf_key:" +:+ strconv_Quote keyTag;
                            "protobuf_val:" +:+ strconv_Quote valTag ])
    /\ messageLoops info msg structLines holderLines getterLines extensionLines
    /\ emits (genMessage info msg) tt
         (messageLines info msg structLines holderLines getterLines extensionLines)
    /\ structLines !! 6%nat
       = Some (map commentLine (leadingComment info (fPath tagsField))
               ++ [ [ PStr "Tags"; PStr " ";
                      PStr (if pointer then "*" +:+ goType else goType); PStr " `";
                      PStr (strings_Join
                              ([ "protobuf:" +:+ strconv_Quote tag;
                                 "json:" +:+ strconv_Quote "tags,omitempty" ]
                               ++ entryTags) " ");
                      PStr "`"; PStr "" ] ]).
Proof.
  exact (genMessage_structField_line info msg 6 tagsField
           eq_refl eq_refl eq_refl eq_refl eq_refl).
Defined.

Lemma genMessage_getter_repeated_witness :
  exists goType structLines holderLines getterLines extensionLines,
    fieldGoType numsField = Some (goType, false)
    /\ fieldDefaultValue msg numsField = Some "nil"
    /\ messageLoops info msg structLines holderLines getterLines extensionLines
    /\ emits (genMessage info msg) tt
         (messageLines info msg structLines holderLines getterLines extensionLines)
    /\ getterLines !! 4%nat
       = Some [ [ PStr "func (m *"; PIdent (mGoIdent msg); PStr ") Get";
                  PStr "Nums"; PStr "() "; PStr goType; PStr " {" ];
                [ PStr "if m != nil {" ];
                [ PStr "return "; PStr ""; PStr " m."; PStr "Nums" ];
                [ PStr "}" ];
                [ PStr "return "; PStr "nil" ];
                [ PStr "}" ];
                [] ].
Proof.
  exact (genMessage_getter_repeated info msg 4 numsField
           eq_refl eq_refl eq_refl eq_refl eq_refl eq_refl).
Defined.

Lemma genMessage_getter_guard_witness :
  exists goType pointer defaultValue structLines holderLines getterLines extensionLines,
    fieldGoType nameField = Some (goType, pointer)
    /\ fieldDefaultValue msg nameField = Some defaultValue
    /\ pointer = true /\ defaultValue = "Default_Msg_Name"
    /\ emits (genMessage info msg) tt
         (messageLines info msg structLines holderLines getterLines extensionLines)
    /\ getterLines !! 0%nat
       = Some [ [ PStr "func (m *"; PIdent (mGoIdent msg); PStr ") Get";
                  PStr "Name"; PStr "() "; PStr "string"; PStr " {" ];
                [ PStr "if m != nil && m."; PStr "Name"; PStr " != nil {" ];
                [ PStr "return "; PStr "*"; PStr " m."; PStr "Name" ];
                [ PStr "}" ];
                [ PStr "return "; PStr "Default_Msg_Name" ];
                [ PStr "}" ];
                [] ].
Proof.
  destruct (genMessage_getter_guard info msg 0 nameField
              eq_refl eq_refl eq_refl eq_refl eq_refl)
    as (goType & pointer & defaultValue & structLines & holderLines & getterLines
        & extensionLines & Htype & Hdv & _ & Hemits & Hlines & _).
  injection Htype as <- <-. injection Hdv as <-.
  exists "string", true, "Default_Msg_Name", structLines, holderLines, getterLines,
    extensionLines.
  repeat (split; [reflexivity|]). split; [exact Hemits|exact Hlines].
Defined.

End EntityWitnesses.

(** ** The scenarios of the specification, run on the demo *)

Section Scenarios.
Import Demo.

(** A proto3 message with int32 id = 1. *)
Example scenario_proto3_int32 :
  fieldProtobufTag idField = Some "varint,1,opt,name=id,proto3"
  /\ fieldGoType idField = Some ("int32", false)
  /\ fieldDefaultValue msg idField = Some "0".
Proof. repeat split; reflexivity. Qed.

(** A proto2 message with optional string name = 2 [default = "x"]. *)
Example scenario_proto2_default :
  fieldProtobufTag nameField = Some "bytes,2,opt,name=name,def=x"
  /\ fieldDefaultValue msg nameField = Some "Default_Msg_Name"
  /\ (gBuf <$> (snd <$> genMessage_defaultVar msg nameField start))
      = Some [ [ PStr "const "; PStr "Default_Msg_Name"; PStr " string = ";
                 PStr (dq +:+ "x" +:+ dq) ] ].
Proof. repeat split; reflexivity. Qed.

(** The enum Color { RED = 0; GREEN = 1; BLUE = 1; }. *)
Example scenario_enum_duplicate :
  (gBuf <$> (snd <$> genEnum_nameMap color start))
  = Some [ [ PStr "var "; PStr "Color_name"; PStr " = map[int32]string{" ];
           [ PStr ""; PInt 0; PStr ": "; PStr (dq +:+ "RED" +:+ dq); PStr "," ];
           [ PStr ""; PInt 1; PStr ": "; PStr (dq +:+ "GREEN" +:+ dq); PStr "," ];
           [ PStr "// Duplicate value: "; PInt 1; PStr ": ";
             PStr (dq +:+ "BLUE" +:+ dq); PStr "," ];
           [ PStr "}" ]; [] ]
  /\ (gBuf <$> (snd <$> genEnum_valueMap color start))
     = Some [ [ PStr "var "; PStr "Color_value"; PStr " = map[string]int32{" ];
              [ PStr (dq +:+ "RED" +:+ dq); PStr ": "; PInt 0; PStr "," ];
              [ PStr (dq +:+ "GREEN" +:+ dq); PStr ": "; PInt 1; PStr "," ];
              [ PStr (dq +:+ "BLUE" +:+ dq); PStr ": "; PInt 1; PStr "," ];
              [ PStr "}" ]; [] ].
Proof. split; vm_compute; reflexivity. Qed.

(** The field map<string, int32> tags = 5 and the init function of the
    demo file, where the entry of attrs comes before the entry of tags. *)
Example scenario_map_registration :
  fieldGoType tagsField = Some ("map[string]int32", false)
  /\ (gBuf <$> (snd <$> genInitFunction info start))
     = Some [ [ PStr "func init() {" ];
              [ PIdent (protoIdent "RegisterEnum");
                PStr ("(" +:+ dq +:+ "demo.Color" +:+ dq +:+ ", Color_name, Color_value)") ];
              [ PIdent (protoIdent "RegisterType");
                PStr ("((*Msg)(nil), " +:+ dq +:+ "demo.Msg" +:+ dq +:+ ")") ];
              [ PIdent (protoIdent "RegisterMapType");
                PStr ("((map[string]int32)(nil), " +:+ dq +:+ "demo.Msg.AttrsEntry"
                      +:+ dq +:+ ")") ];
              [ PIdent (protoIdent "RegisterMapType");
                PStr ("((map[string]int32)(nil), " +:+ dq +:+ "demo.Msg.TagsEntry"
                      +:+ dq +:+ ")") ];
              [ PIdent (protoIdent "RegisterExtension"); PStr "(";
                PIdent (mkGoIdent "E_Weight" goPath); PStr ")" ];
              [ PStr "}" ]; [] ].
Proof. split; vm_compute; reflexivity. Qed.

End Scenarios.
